(** * Hyper-ZiLLA / DARK-ZiLLA native core: analysis orchestration and AI engine

    A shallow embedding of

    - [src/analysis/ai/ai_engine.{h,cpp}]   (module [AIEngine]),
    - [src/analysis/languages/cpp_analyzer.h] and the placeholder analyzers
      (module [Analyzers]),
    - [src/analysis/analysis_manager.cpp] and [src/core/error_handler.h]
      (module [AnalysisManager]),
    - the construction and the health check of the AI engine (module
      [EngineService]), the kinds of finding of the C++ analyzer (module
      [CppFindings]) and the automatic fixes of [base_analyzer.h],
      [cpp_analyzer.h] and [AnalysisManager::applyAutoFixes] (module
      [AutoFix]),

    followed by the properties of the specification that concern them and
    by further properties of the embedded code.

    Conventions.  C++ [int] is a 32-bit two's-complement integer carried in
    [Z]; [size_t] counters are carried in [Z] modulo 2^64.  [std::string] is
    [string]; [std::map] and [std::unordered_map] are [gmap].  Whatever the
    program obtains from outside itself (clocks, the Python subprocess, the
    file system, the iteration order of a hash table, OpenSSL's SHA-256) is
    passed in explicitly. *)

From stdpp Require Import gmap strings list fin_maps sorting.
From Stdlib Require Import ZArith Lia Ascii.
From Equations Require Import Equations.

Local Open Scope Z_scope.

(** ** Machine integers *)

Definition int_wrap (z : Z) : Z := (z + 2 ^ 31) mod 2 ^ 32 - 2 ^ 31.
Definition size_t_wrap (z : Z) : Z := z mod 2 ^ 64.
Definition int64_wrap (z : Z) : Z := (z + 2 ^ 63) mod 2 ^ 64 - 2 ^ 63.

Definition INT_MAX : Z := 2 ^ 31 - 1.

(** [std::string::empty] *)
Definition empty (s : string) : bool :=
  match s with EmptyString => true | String _ _ => false end.

(* ===================================================================== *)
(** * The AI engine ([ai_engine.h], [ai_engine.cpp])                      *)
(* ===================================================================== *)

Module AIEngine.

(** [struct AIEngineConfig] *)
Record AIEngineConfig := mkConfig {
  python_executable : string;
  ai_service_path : string;
  model_type : string;
  timeout_seconds : Z;
  max_retries : Z;
  enable_caching : bool;
  enable_learning : bool;
  cache_max_size : N
}.

(** Default member initialisers of [AIEngineConfig]. *)
Definition default_config : AIEngineConfig :=
  {| python_executable := "python3";
     ai_service_path := "src/analysis/ai/ai_service.py";
     model_type := "advanced";
     timeout_seconds := 30;
     max_retries := 3;
     enable_caching := true;
     enable_learning := true;
     cache_max_size := 1000 |}.

(** [AIEngineConfig::validate] *)
Definition validate (c : AIEngineConfig) : bool :=
  negb (empty (python_executable c)) &&
  negb (empty (ai_service_path c)) &&
  (0 <? timeout_seconds c) &&
  (0 <=? max_retries c).

(** [struct AIAnalysisResult].  [confidence_score] is only stored and
    copied by the engine; it is carried as the bit pattern of the double.
    [processing_time] is in milliseconds. *)
Record AIAnalysisResult := mkResult {
  success : bool;
  analysis : string;
  error_message : string;
  confidence_score : Z;
  severity_level : Z;
  recommendations : list string;
  processing_time : Z;
  from_cache : bool
}.

(** A default-constructed [AIAnalysisResult]. *)
Definition default_result : AIAnalysisResult :=
  {| success := false; analysis := ""; error_message := "";
     confidence_score := 0; severity_level := 0; recommendations := [];
     processing_time := 0; from_cache := false |}.

Definition failure (msg : string) : AIAnalysisResult :=
  {| success := false; analysis := ""; error_message := msg;
     confidence_score := 0; severity_level := 0; recommendations := [];
     processing_time := 0; from_cache := false |}.

Definition set_processing_time (t : Z) (r : AIAnalysisResult) : AIAnalysisResult :=
  {| success := success r; analysis := analysis r;
     error_message := error_message r;
     confidence_score := confidence_score r;
     severity_level := severity_level r;
     recommendations := recommendations r;
     processing_time := t; from_cache := from_cache r |}.

Definition set_from_cache (b : bool) (r : AIAnalysisResult) : AIAnalysisResult :=
  {| success := success r; analysis := analysis r;
     error_message := error_message r;
     confidence_score := confidence_score r;
     severity_level := severity_level r;
     recommendations := recommendations r;
     processing_time := processing_time r; from_cache := b |}.

(** [struct CacheEntry].  [timestamp] is a [system_clock] reading in
    nanoseconds; [access_count] is a [size_t]. *)
Record CacheEntry := mkEntry {
  key : string;
  result : AIAnalysisResult;
  timestamp : Z;
  access_count : Z
}.

(** [CACHE_TTL{3600}] seconds, in clock ticks (nanoseconds). *)
Definition CACHE_TTL : Z := 3600 * 10 ^ 9.

(** [CacheEntry::isExpired], with the clock reading [now] made explicit. *)
Definition isExpired (now : Z) (e : CacheEntry) : bool :=
  CACHE_TTL <? now - timestamp e.

(** [struct Metrics] *)
Record Metrics := mkMetrics {
  total_requests : Z;
  successful_requests : Z;
  failed_requests : Z;
  cache_hits : Z;
  cache_misses : Z;
  total_processing_time : Z;
  avg_processing_time : Z
}.

Definition initial_metrics : Metrics :=
  {| total_requests := 0; successful_requests := 0; failed_requests := 0;
     cache_hits := 0; cache_misses := 0;
     total_processing_time := 0; avg_processing_time := 0 |}.

(** The members of [class AIEngine] that the modelled operations read or
    write. *)
Record Engine := mkEngine {
  config_ : AIEngineConfig;
  analysis_cache_ : gmap string CacheEntry;
  metrics_ : Metrics
}.

Definition set_cache (c : gmap string CacheEntry) (st : Engine) : Engine :=
  {| config_ := config_ st; analysis_cache_ := c; metrics_ := metrics_ st |}.

Definition set_metrics (m : Metrics) (st : Engine) : Engine :=
  {| config_ := config_ st; analysis_cache_ := analysis_cache_ st; metrics_ := m |}.

Definition set_config (c : AIEngineConfig) (st : Engine) : Engine :=
  {| config_ := c; analysis_cache_ := analysis_cache_ st; metrics_ := metrics_ st |}.

(** The engine right after construction with configuration [c]. *)
Definition new_engine (c : AIEngineConfig) : Engine :=
  {| config_ := c; analysis_cache_ := ∅; metrics_ := initial_metrics |}.

(** ** Retry with exponential backoff *)

(** [AIEngine::executeWithRetry].  [operation k] is what the [k]-th
    invocation of the [std::function] returns (counting from 0); the list
    collects the arguments of [sleep_for], in milliseconds, in the order of
    the calls.  [delay_ms] is an [int]: doubling it wraps.  [attempt] never
    exceeds [max_retries + 1].

    Where the loop follows the program: the 25th doubling of [delay_ms]
    exceeds [INT_MAX], a signed overflow that C++ leaves undefined and that
    is carried here as the two's-complement wrap of a build that does not
    exploit it; and [attempt], carried without wrap, is the program's
    counter only while [attempt + 1] fits an [int].  Up to 24 doublings,
    that is while fewer than 25 invocations have failed, neither
    happens. *)
Equations retry_loop (operation : nat -> AIAnalysisResult)
    (max_retries attempt delay_ms : Z) (calls : nat)
    (result : AIAnalysisResult) (sleeps : list Z)
    : AIAnalysisResult * list Z
    by wf (Z.to_nat (max_retries + 1 - attempt)) lt :=
retry_loop operation max_retries attempt delay_ms calls result sleeps
  with decide (attempt <= max_retries) := {
  | right _ => (result, sleeps)
  | left _ =>
    let result' := operation calls in
    if success result' then (result', sleeps)
    else if decide (attempt + 1 <= max_retries)
         then retry_loop operation max_retries (attempt + 1)
                (int_wrap (delay_ms * 2)) (S calls) result'
                (sleeps ++ [delay_ms])
         else retry_loop operation max_retries (attempt + 1)
                delay_ms (S calls) result' sleeps }.
Next Obligation. lia. Qed.
Next Obligation. lia. Qed.

Definition executeWithRetry (operation : nat -> AIAnalysisResult)
    (max_retries : Z) : AIAnalysisResult * list Z :=
  retry_loop operation max_retries 0 100 0 default_result [].

(** ** Input sanitisation and the cache key *)

Definition MAX_INPUT_SIZE : nat := 1024 * 1024.

Fixpoint remove_nul (s : string) : string :=
  match s with
  | EmptyString => EmptyString
  | String c s' =>
    if Ascii.eqb c "000"%char then remove_nul s' else String c (remove_nul s')
  end.

(** [AIEngine::sanitizeInput] *)
Definition sanitizeInput (input : string) : string :=
  let sanitized := remove_nul input in
  if (MAX_INPUT_SIZE <? String.length sanitized)%nat
  then String.substring 0 MAX_INPUT_SIZE sanitized
  else sanitized.

Section Engine.

(** OpenSSL's [SHA256] followed by the lower-case hex rendering of the
    digest: the library is not part of the repository. *)
Variable SHA256_hex : string -> string.

(** The order in which iterating a [std::unordered_map] visits its
    elements.  The standard leaves it unspecified. *)
Variable iteration_order : gmap string CacheEntry -> list (string * CacheEntry).

(** [AIEngine::generateCacheKey] *)
Definition generateCacheKey (cfg : AIEngineConfig)
    (code language file_path : string) : string :=
  let combined :=
    (code +:+ "|" +:+ language +:+ "|" +:+ file_path +:+ "|" +:+ model_type cfg)%string in
  SHA256_hex combined.

(** ** The cache *)

(** [AIEngine::getFromCache]: the optional result and the cache afterwards. *)
Definition getFromCache (now : Z) (k : string) (cache : gmap string CacheEntry)
    : option AIAnalysisResult * gmap string CacheEntry :=
  match cache !! k with
  | Some e =>
    if negb (isExpired now e) then
      let e' := {| key := key e;
                   result := set_from_cache true (result e);
                   timestamp := timestamp e;
                   access_count := size_t_wrap (access_count e + 1) |} in
      (Some (result e'), <[k := e']> cache)
    else (None, delete k cache)
  | None => (None, cache)
  end.

(** [std::min_element] with the comparator of [evictCacheEntries]: the
    first element, in iteration order, that no other element precedes. *)
Fixpoint min_element_from (best : string * CacheEntry)
    (l : list (string * CacheEntry)) : string * CacheEntry :=
  match l with
  | [] => best
  | x :: l' =>
    if timestamp (snd x) <? timestamp (snd best)
    then min_element_from x l'
    else min_element_from best l'
  end.

Definition min_element (l : list (string * CacheEntry))
    : option (string * CacheEntry) :=
  match l with
  | [] => None
  | x :: l' => Some (min_element_from x l')
  end.

(** [AIEngine::evictCacheEntries]: the cache afterwards and the key named
    in the "Evicting cache entry" log line, if one is written. *)
Definition evictCacheEntries (cache : gmap string CacheEntry)
    : gmap string CacheEntry * option string :=
  if decide (cache = ∅) then (cache, None)
  else
    match min_element (iteration_order cache) with
    | Some lru => (delete (fst lru) cache, Some (fst lru))
    | None => (cache, None)
    end.

(** [AIEngine::storeInCache]: the cache afterwards and the eviction it
    logged. [now] is the [system_clock] reading taken for the entry. *)
Definition storeInCache (cfg : AIEngineConfig) (now : Z) (k : string)
    (r : AIAnalysisResult) (cache : gmap string CacheEntry)
    : gmap string CacheEntry * option string :=
  let '(cache1, evicted) :=
    if (cache_max_size cfg <=? N.of_nat (size cache))%N
    then evictCacheEntries cache
    else (cache, None) in
  let entry := {| key := k; result := r; timestamp := now; access_count := 1 |} in
  (<[k := entry]> cache1, evicted).

(** [AIEngine::clearCache] *)
Definition clearCache (st : Engine) : Engine := set_cache ∅ st.

(** ** Metrics and configuration *)

(** [AIEngine::updateMetrics] *)
Definition updateMetrics (duration : Z) (ok : bool) (m : Metrics) : Metrics :=
  let total := size_t_wrap (total_requests m + 1) in
  let time := int64_wrap (total_processing_time m + duration) in
  {| total_requests := total;
     successful_requests :=
       if ok then size_t_wrap (successful_requests m + 1) else successful_requests m;
     failed_requests :=
       if ok then failed_requests m else size_t_wrap (failed_requests m + 1);
     cache_hits := cache_hits m;
     cache_misses := cache_misses m;
     total_processing_time := time;
     avg_processing_time :=
       if 0 <? total then int64_wrap (size_t_wrap time / total)
       else avg_processing_time m |}.

Definition count_cache_hit (m : Metrics) : Metrics :=
  {| total_requests := total_requests m;
     successful_requests := successful_requests m;
     failed_requests := failed_requests m;
     cache_hits := size_t_wrap (cache_hits m + 1);
     cache_misses := cache_misses m;
     total_processing_time := total_processing_time m;
     avg_processing_time := avg_processing_time m |}.

Definition count_cache_miss (m : Metrics) : Metrics :=
  {| total_requests := total_requests m;
     successful_requests := successful_requests m;
     failed_requests := failed_requests m;
     cache_hits := cache_hits m;
     cache_misses := size_t_wrap (cache_misses m + 1);
     total_processing_time := total_processing_time m;
     avg_processing_time := avg_processing_time m |}.

(** [AIEngine::updateConfiguration] *)
Definition updateConfiguration (cfg : AIEngineConfig) (st : Engine)
    : bool * Engine :=
  if negb (validate cfg) then (false, st)
  else (true, set_config cfg st).

(** [AIEngine::getConfiguration] *)
Definition getConfiguration (st : Engine) : AIEngineConfig := config_ st.

(** ** The analysis request *)

(** What one call of [analyzeCode] obtains from outside the engine:
    the [system_clock] reading used by the cache lookup, the elapsed
    [steady_clock] time measured on a hit, the results of the successive
    runs of [executePythonService], the elapsed time measured after them,
    and the [system_clock] reading stamped on a stored entry. *)
Record Env := mkEnv {
  now_lookup : Z;
  elapsed_hit : Z;
  python_service : nat -> AIAnalysisResult;
  elapsed_total : Z;
  now_store : Z
}.

(** [AIEngine::analyzeCode]: the result returned, the engine afterwards,
    and the backoff delays slept. *)
Definition analyzeCode (env : Env) (code language file_path : string)
    (st : Engine) : AIAnalysisResult * Engine * list Z :=
  if empty code then
    (failure "Empty code provided",
     set_metrics (updateMetrics 0 false (metrics_ st)) st, [])
  else if empty language then
    (failure "Language not specified",
     set_metrics (updateMetrics 0 false (metrics_ st)) st, [])
  else
    let safe_code := sanitizeInput code in
    let safe_language := sanitizeInput language in
    let safe_path := sanitizeInput file_path in
    let cfg := config_ st in
    let cache_key := generateCacheKey cfg safe_code safe_language safe_path in
    let '(cached_result, st1) :=
      if enable_caching cfg then
        let '(cached, cache') := getFromCache (now_lookup env) cache_key (analysis_cache_ st) in
        match cached with
        | Some r =>
          (Some r,
           set_metrics
             (count_cache_hit (updateMetrics (elapsed_hit env) true (metrics_ st)))
             (set_cache cache' st))
        | None =>
          (None, set_metrics (count_cache_miss (metrics_ st)) (set_cache cache' st))
        end
      else (None, st) in
    match cached_result with
    | Some r => (r, st1, [])
    | None =>
      let '(result0, sleeps) := executeWithRetry (python_service env) (max_retries cfg) in
      let result := set_processing_time (elapsed_total env) result0 in
      let st2 :=
        if success result && enable_caching cfg
        then set_cache (fst (storeInCache cfg (now_store env) cache_key result
                               (analysis_cache_ st1))) st1
        else st1 in
      (* storeAnalysisResult only writes a log line *)
      let st3 := set_metrics
                   (updateMetrics (processing_time result) (success result) (metrics_ st2))
                   st2 in
      (result, st3, sleeps)
    end.

(** [AIEngine::getRecommendations] *)
Definition getRecommendations (env : Env) (code language analysis_type : string)
    (st : Engine) : list string * Engine :=
  let '(r, st', _) := analyzeCode env code language "" st in
  (recommendations r, st').

(** [AIEngine::warmup] *)
Definition warmup (env : Env) (st : Engine) : bool * Engine :=
  let '(r, st', _) := analyzeCode env "int main() { return 0; }" "cpp" "" st in
  (success r, st').

(** ** Runs of the engine *)

(** Successive [storeInCache] calls, each with its key, result and clock
    reading: the cache afterwards and the evictions logged, in order. *)
Fixpoint store_all (cfg : AIEngineConfig)
    (requests : list (string * AIAnalysisResult * Z))
    (cache : gmap string CacheEntry) : gmap string CacheEntry * list string :=
  match requests with
  | [] => (cache, [])
  | (k, r, now) :: rest =>
    let '(cache1, evicted) := storeInCache cfg now k r cache in
    let '(cache2, evictions) := store_all cfg rest cache1 in
    (cache2, option_list evicted ++ evictions)
  end.

(** The cache with the access counter of every entry replaced by what
    [counts] gives for its key: the effect on the counters of an arbitrary
    history of cache hits. *)
Definition with_access_counts (counts : string -> Z)
    (cache : gmap string CacheEntry) : gmap string CacheEntry :=
  (fun e => mkEntry (key e) (result e) (timestamp e) (counts (key e))) <$> cache.

(** The operations on an engine: the public member functions that touch
    the configuration or the cache, and the private cache helpers that can
    be run on their own.  [storeInCache] is private and has one call site,
    in [analyzeCode]. *)
Inductive operation :=
| OpAnalyzeCode (env : Env) (code language file_path : string)
| OpGetRecommendations (env : Env) (code language analysis_type : string)
| OpWarmup (env : Env)
| OpUpdateConfiguration (cfg : AIEngineConfig)
| OpClearCache
| OpGetFromCache (now : Z) (k : string)
| OpEvictCacheEntries.

Definition run_operation (st : Engine) (op : operation) : Engine :=
  match op with
  | OpAnalyzeCode env code language file_path =>
    (analyzeCode env code language file_path st).1.2
  | OpGetRecommendations env code language analysis_type =>
    (getRecommendations env code language analysis_type st).2
  | OpWarmup env => (warmup env st).2
  | OpUpdateConfiguration cfg => (updateConfiguration cfg st).2
  | OpClearCache => clearCache st
  | OpGetFromCache now k => set_cache (getFromCache now k (analysis_cache_ st)).2 st
  | OpEvictCacheEntries => set_cache (evictCacheEntries (analysis_cache_ st)).1 st
  end.

Definition run_operations (ops : list operation) (st : Engine) : Engine :=
  foldl run_operation st ops.

End Engine.

(** Every cached result is a successful one. *)
Definition cache_ok (cache : gmap string CacheEntry) : Prop :=
  map_Forall (fun _ e => success (result e) = true) cache.

(** [victim] is the key of a request of [requests] that no other request
    of [requests] precedes in time. *)
Definition oldest_of (requests : list (string * AIAnalysisResult * Z))
    (victim : string) : Prop :=
  exists r t, (victim, r, t) ∈ requests /\
    forall k' r' t', (k', r', t') ∈ requests -> t <= t'.

(** Two caches hold the same keys with the same timestamps; results and
    access counters may differ. *)
Definition same_timestamps (c1 c2 : gmap string CacheEntry) : Prop :=
  forall k, timestamp <$> c1 !! k = timestamp <$> c2 !! k.

(** The delays of an exponential backoff that starts at [delay_ms]: each
    is the [int] double of the one before. *)
Fixpoint backoff (delay_ms : Z) (n : nat) : list Z :=
  match n with
  | O => []
  | S n' => delay_ms :: backoff (int_wrap (delay_ms * 2)) n'
  end.

End AIEngine.

(* ===================================================================== *)
(** * Findings, exceptions and the error handler                          *)
(* ===================================================================== *)

(** [struct AnalysisResult] ([include/analysis/analysis_result.h]) *)
Record AnalysisResult := mkFinding {
  file_path : string;
  rule_id : string;
  message : string;
  severity : string;
  line_number : Z
}.

(** The constructor's default argument [line = 0]. *)
Definition finding (fp rid msg sev : string) : AnalysisResult :=
  mkFinding fp rid msg sev 0.

(** The findings are in source line order: line numbers never decrease
    along the list. *)
Definition in_line_order (findings : list AnalysisResult) : Prop :=
  StronglySorted Z.le (line_number <$> findings).

(** What a [throw] can carry, as far as the [catch] clauses of the analysis
    manager tell exceptions apart ([core/error_handler.h]):
    [FileSystemException] and [AnalysisException] are named by handlers;
    [AnalyzerException] stands for the base class and its other subclasses;
    [std_exception] for a [std::exception] outside that hierarchy;
    [foreign_exception] for anything else. *)
Inductive exception :=
| FileSystemException (what : string)
| AnalysisException (what : string)
| AnalyzerException (what component : string) (error_code : Z)
| std_exception (what : string)
| foreign_exception.

Definition what_of (e : exception) : string :=
  match e with
  | FileSystemException w | AnalysisException w
  | AnalyzerException w _ _ | std_exception w => w
  | foreign_exception => ""
  end.

(** Does [catch (const AnalyzerException&)] take it? *)
Definition is_AnalyzerException (e : exception) : bool :=
  match e with
  | FileSystemException _ | AnalysisException _ | AnalyzerException _ _ _ => true
  | _ => false
  end.

(** Does [catch (const std::exception&)] take it? *)
Definition is_std_exception (e : exception) : bool :=
  match e with
  | foreign_exception => false
  | _ => true
  end.

(** The per-file handlers of [analyzeDirectory]:
    [catch (const FileSystemException&)] and
    [catch (const AnalysisException&)]. *)
Definition is_recoverable (e : exception) : bool :=
  match e with
  | FileSystemException _ | AnalysisException _ => true
  | _ => false
  end.

(** [AnalysisException(message, language)] *)
Definition mkAnalysisException (msg language : string) : exception :=
  AnalysisException
    (if empty language then msg else (msg +:+ " - Language: " +:+ language)%string).

(** A computation that returns or throws. *)
Inductive outcome (A : Type) :=
| Return (a : A)
| Throw (e : exception).
Arguments Return {A} a.
Arguments Throw {A} e.

(** Sequencing: a [throw] in [m] skips [k]. *)
Definition bind {A B} (m : outcome A) (k : A -> outcome B) : outcome B :=
  match m with
  | Return a => k a
  | Throw e => Throw e
  end.

Notation "'let*' x := m 'in' k" := (bind m (fun x => k))
  (at level 10, x name, m at level 100, k at level 200).

(** [ErrorHandler::executeWithRecovery]: an [AnalyzerException] is handled
    and rethrown as it is, anything else is replaced by a base-class
    [AnalyzerException] with code 9999. *)
Definition executeWithRecovery {A} (body : outcome A) : outcome A :=
  match body with
  | Return a => Return a
  | Throw e =>
    if is_AnalyzerException e then Throw e
    else match e with
         | foreign_exception => Throw (AnalyzerException "Unknown exception" "Unknown" 9999)
         | _ => Throw (AnalyzerException (what_of e) "Unknown" 9999)
         end
  end.

(* ===================================================================== *)
(** * The language analyzers ([src/analysis/languages])                   *)
(* ===================================================================== *)

Module Analyzers.

(** ** Strings *)

Fixpoint is_prefix (p s : string) : bool :=
  match p, s with
  | EmptyString, _ => true
  | String a p', String b s' => Ascii.eqb a b && is_prefix p' s'
  | String _ _, EmptyString => false
  end.

(** [s.find(needle) != npos] *)
Fixpoint contains (needle s : string) : bool :=
  is_prefix needle s ||
  match s with
  | EmptyString => false
  | String _ s' => contains needle s'
  end.

Fixpoint contains_char (c : ascii) (s : string) : bool :=
  match s with
  | EmptyString => false
  | String a s' => Ascii.eqb a c || contains_char c s'
  end.

(** [s.find(c) == 0] *)
Definition starts_with_char (c : ascii) (s : string) : bool :=
  match s with
  | String a _ => Ascii.eqb a c
  | EmptyString => false
  end.

(** [s.back()], for a non-empty [s] *)
Fixpoint back (s : string) : ascii :=
  match s with
  | EmptyString => "000"%char
  | String a EmptyString => a
  | String _ s' => back s'
  end.

(** [isspace] in the "C" locale *)
Definition isspace (c : ascii) : bool :=
  let n := nat_of_ascii c in
  ((n =? 32) || ((9 <=? n) && (n <=? 13)))%nat.

Fixpoint all_of (p : ascii -> bool) (s : string) : bool :=
  match s with
  | EmptyString => true
  | String a s' => p a && all_of p s'
  end.

(** [path.size() >= ext.size() && path.substr(path.size() - ext.size()) == ext] *)
Definition has_suffix (ext path : string) : bool :=
  (String.length ext <=? String.length path)%nat &&
  String.eqb (String.substring (String.length path - String.length ext)
                               (String.length ext) path) ext.

(** The lines [std::getline] reads from a stream over [code]: the pieces
    between newlines, without a final empty piece. *)
Fixpoint getlines_from (cur : string) (s : string) : list string :=
  match s with
  | EmptyString => if empty cur then [] else [String.rev cur]
  | String c s' =>
    if Ascii.eqb c "010"%char
    then String.rev cur :: getlines_from EmptyString s'
    else getlines_from (String c cur) s'
  end.

Definition getlines (code : string) : list string := getlines_from EmptyString code.

(** ** The fragment of ECMAScript regular expressions the patterns use *)

Inductive regex :=
| Empty                      (* matches nothing *)
| Eps                        (* matches the empty string *)
| Chr (c : ascii)            (* a character, escaped or not *)
| AnyChar                    (* [.]: any character but a line terminator *)
| Cat (r1 r2 : regex)
| Alt (r1 r2 : regex)
| Star (r : regex).

(** A pattern without metacharacters. *)
Fixpoint lit (s : string) : regex :=
  match s with
  | EmptyString => Eps
  | String c s' => Cat (Chr c) (lit s')
  end.

Definition tolower (c : ascii) : ascii :=
  let n := nat_of_ascii c in
  if ((65 <=? n) && (n <=? 90))%nat then ascii_of_nat (n + 32) else c.

Fixpoint nullable (r : regex) : bool :=
  match r with
  | Empty => false
  | Eps => true
  | Chr _ => false
  | AnyChar => false
  | Cat r1 r2 => nullable r1 && nullable r2
  | Alt r1 r2 => nullable r1 || nullable r2
  | Star _ => true
  end.

(** The derivative of [r] by the character [c]; [icase] is
    [std::regex::icase]. *)
Fixpoint deriv (icase : bool) (c : ascii) (r : regex) : regex :=
  match r with
  | Empty => Empty
  | Eps => Empty
  | Chr a =>
    if (if icase then Ascii.eqb (tolower a) (tolower c) else Ascii.eqb a c)
    then Eps else Empty
  | AnyChar =>
    if Ascii.eqb c "010"%char || Ascii.eqb c "013"%char then Empty else Eps
  | Cat r1 r2 =>
    if nullable r1
    then Alt (Cat (deriv icase c r1) r2) (deriv icase c r2)
    else Cat (deriv icase c r1) r2
  | Alt r1 r2 => Alt (deriv icase c r1) (deriv icase c r2)
  | Star r1 => Cat (deriv icase c r1) (Star r1)
  end.

(** Does some prefix of [s] match [r]? *)
Fixpoint matches_prefix (icase : bool) (r : regex) (s : string) : bool :=
  nullable r ||
  match s with
  | EmptyString => false
  | String c s' => matches_prefix icase (deriv icase c r) s'
  end.

(** [std::regex_search(s, pattern)]: does some substring of [s] match? *)
Fixpoint regex_search_from (icase : bool) (r : regex) (s : string) : bool :=
  matches_prefix icase r s ||
  match s with
  | EmptyString => false
  | String _ s' => regex_search_from icase r s'
  end.

(** A compiled [std::regex]: the expression and its [icase] flag. *)
Record pattern := mkPattern { expr : regex; icase : bool }.

Definition regex_search (s : string) (p : pattern) : bool :=
  regex_search_from (icase p) (expr p) s.

(** ** The analyzer interface ([base_analyzer.h]) *)

(** The file system as the analyzers see it: the content of a file that
    [std::ifstream] can open, [None] for one it cannot. *)
Definition filesystem := string -> option string.

(** The virtual functions of [BaseAnalyzer] that the manager calls while
    scanning. *)
Record BaseAnalyzer := mkAnalyzer {
  getLanguageName : string;
  isSupportedFile : string -> outcome bool;
  analyzeCode : string -> string -> outcome (list AnalysisResult);
  analyze : filesystem -> string -> outcome (list AnalysisResult)
}.

(** The body shared by [CppAnalyzer::analyze], [PythonAnalyzer::analyze]
    and [GoAnalyzer::analyze]: a file that cannot be opened yields a
    [FILE_ERROR] finding; a [std::exception] raised while analysing yields
    an [ANALYSIS_ERROR] finding. *)
Definition analyze_file_with
    (analyzeCode : string -> string -> outcome (list AnalysisResult))
    (fs : filesystem) (path : string) : outcome (list AnalysisResult) :=
  match fs path with
  | None =>
    Return [finding path "FILE_ERROR" ("Cannot open file: " +:+ path) "ERROR"]
  | Some code =>
    match analyzeCode code path with
    | Return results => Return results
    | Throw e =>
      if is_std_exception e
      then Return [finding path "ANALYSIS_ERROR"
                     ("Analysis failed: " +:+ what_of e) "ERROR"]
      else Throw e
    end
  end.

(** ** [CppAnalyzer] *)

Module CppAnalyzer.

Definition getSupportedExtensions : list string :=
  [".cpp"; ".cc"; ".cxx"; ".c"; ".h"; ".hpp"; ".hh"; ".hxx"]%string.

Definition isSupportedFile (path : string) : bool :=
  existsb (fun ext => has_suffix ext path) getSupportedExtensions.

(** [initializePatterns] *)
Definition error_patterns_ : list pattern :=
  [ mkPattern (lit "undefined reference to") true;
    mkPattern (lit "expected ';' after") false;
    mkPattern (lit "use of undeclared identifier") false;
    mkPattern (lit "no matching function for call") false ].

Definition warning_patterns_ : list pattern :=
  [ mkPattern (lit "unused variable") true;
    mkPattern (lit "comparison between signed and unsigned") false;
    mkPattern (lit "deprecated declaration") false ].

Definition security_patterns_ : list pattern :=
  [ mkPattern (lit "strcpy(") false;
    mkPattern (lit "strcat(") false;
    mkPattern (lit "sprintf(") false;
    mkPattern (lit "vsprintf(") false;
    mkPattern (lit "gets(") false;
    mkPattern (lit "printf(") false;
    mkPattern (lit "fprintf(") false;
    mkPattern (lit "system(") false;
    mkPattern (lit "exec(") false;
    mkPattern (lit "popen(") false;
    mkPattern (Cat (lit "SELECT") (Cat (Star AnyChar) (lit "FROM"))) false;
    mkPattern (lit "INSERT INTO") false;
    mkPattern (Cat (lit "UPDATE") (Cat (Star AnyChar) (lit "SET"))) false;
    mkPattern (lit "DELETE FROM") false ].

(** One finding per pattern of [patterns] that [line] matches, in the order
    of the patterns. *)
Definition findings_for (patterns : list pattern) (line : string)
    (make : AnalysisResult) : list AnalysisResult :=
  flat_map (fun p => if regex_search line p then [make] else []) patterns.

(** [checkLine]: the findings it appends. *)
Definition checkLine (line : string) (line_number : Z) (file_name : string)
    : list AnalysisResult :=
  (if negb (empty line) &&
      negb (contains_char "{" line) && negb (contains_char "}" line) &&
      negb (starts_with_char "#" line) && negb (is_prefix "//" line) &&
      negb (Ascii.eqb (back line) ";") && negb (Ascii.eqb (back line) "{") &&
      negb (empty line) && negb (all_of isspace line)
   then
     if negb (is_prefix "if " line) && negb (is_prefix "for " line) &&
        negb (is_prefix "while " line) && negb (is_prefix "switch " line) &&
        negb (is_prefix "namespace " line) && negb (is_prefix "class " line) &&
        negb (is_prefix "struct " line) && negb (is_prefix "enum " line)
     then [mkFinding file_name "MISSING_SEMICOLON" "Possible missing semicolon"
             "WARNING" line_number]
     else []
   else [])
  ++ findings_for error_patterns_ line
       (mkFinding file_name "SYNTAX_ERROR" "Potential syntax issue detected"
          "ERROR" line_number)
  ++ findings_for warning_patterns_ line
       (mkFinding file_name "CODE_SMELL" "Code quality issue" "WARNING" line_number).

(** A [while (std::getline(stream, line))] loop that increments the [int]
    [line_number] and runs [check] on every line. *)
Fixpoint for_each_line (check : string -> Z -> list AnalysisResult)
    (line_number : Z) (lines : list string) : list AnalysisResult :=
  match lines with
  | [] => []
  | line :: rest =>
    let line_number := int_wrap (line_number + 1) in
    check line line_number ++ for_each_line check line_number rest
  end.

(** [checkIncludeGuard] *)
Definition checkIncludeGuard (code file_name : string) : list AnalysisResult :=
  if negb (contains "#ifndef" code) || negb (contains "#define" code)
  then [finding file_name "INCLUDE_GUARD_MISSING"
          "Header file missing include guard" "WARNING"]
  else [].

(** [checkModernCpp] *)
Definition checkModernCpp (code file_name : string) : list AnalysisResult :=
  (if contains "malloc(" code || contains "free(" code
   then [finding file_name "USE_MODERN_MEMORY"
           "Consider using new/delete or smart pointers instead of malloc/free"
           "INFO"]
   else [])
  ++
  (if contains "printf(" code
   then [finding file_name "USE_IOSTREAMS"
           "Consider using iostreams instead of printf" "INFO"]
   else []).

(** [checkAdvancedPatterns] *)
Definition checkAdvancedPatterns (code file_name : string) : list AnalysisResult :=
  (if contains ".h" file_name then checkIncludeGuard code file_name else [])
  ++ checkModernCpp code file_name.

(** [checkSecurityPatterns] *)
Definition checkSecurityPatterns (code file_name : string) : list AnalysisResult :=
  for_each_line
    (fun line line_number =>
       findings_for security_patterns_ line
         (mkFinding file_name "SECURITY_VULNERABILITY"
            "Potential security vulnerability detected" "CRITICAL" line_number))
    0 (getlines code).

(** [CppAnalyzer::analyzeCode] *)
Definition analyzeCode (code file_name : string) : list AnalysisResult :=
  for_each_line (fun line n => checkLine line n file_name) 0 (getlines code)
  ++ checkAdvancedPatterns code file_name
  ++ checkSecurityPatterns code file_name.

(** [CppAnalyzer::analyze] *)
Definition analyze (fs : filesystem) (path : string) : outcome (list AnalysisResult) :=
  analyze_file_with (fun code name => Return (analyzeCode code name)) fs path.

Definition analyzer : BaseAnalyzer :=
  mkAnalyzer "C++"
    (fun p => Return (isSupportedFile p))
    (fun code name => Return (analyzeCode code name))
    analyze.

End CppAnalyzer.

(** ** [JavaAnalyzer] *)

Module JavaAnalyzer.

Definition isSupportedFile (path : string) : bool :=
  (5 <=? String.length path)%nat &&
  String.eqb (String.substring (String.length path - 5) 5 path) ".java".

Definition analyze (fs : filesystem) (path : string) : outcome (list AnalysisResult) :=
  Return [finding path "JAVA_PLACEHOLDER" "Java analysis not yet implemented" "INFO"].

Definition analyzeCode (code file_name : string) : outcome (list AnalysisResult) :=
  Return [finding file_name "JAVA_PLACEHOLDER"
            "Java code analysis not yet implemented" "INFO"].

Definition analyzer : BaseAnalyzer :=
  mkAnalyzer "Java" (fun p => Return (isSupportedFile p)) analyzeCode analyze.

End JavaAnalyzer.

(** ** [JavaScriptAnalyzer] *)

Module JavaScriptAnalyzer.

(** [path.substr(path.size() - n)]: when [n] exceeds the size, the unsigned
    subtraction wraps to a position past the end and [substr] throws
    [std::out_of_range]. *)
Definition substr_from_end (n : nat) (path : string) : outcome string :=
  if (n <=? String.length path)%nat
  then Return (String.substring (String.length path - n) n path)
  else Throw (std_exception "basic_string::substr").

(** [a || b] where evaluating an operand may throw *)
Definition orelse (a b : outcome bool) : outcome bool :=
  let* x := a in if x then Return true else b.

Definition ends_with (ext : string) (path : string) : outcome bool :=
  let* s := substr_from_end (String.length ext) path in Return (String.eqb s ext).

Definition isSupportedFile (path : string) : outcome bool :=
  if (3 <=? String.length path)%nat
  then orelse (ends_with ".js" path)
         (orelse (ends_with ".jsx" path)
            (orelse (ends_with ".ts" path) (ends_with ".tsx" path)))
  else Return false.

Definition analyze (fs : filesystem) (path : string) : outcome (list AnalysisResult) :=
  Return [finding path "JS_PLACEHOLDER" "JavaScript analysis not yet implemented" "INFO"].

Definition analyzeCode (code file_name : string) : outcome (list AnalysisResult) :=
  Return [finding file_name "JS_PLACEHOLDER"
            "JavaScript code analysis not yet implemented" "INFO"].

Definition analyzer : BaseAnalyzer :=
  mkAnalyzer "JavaScript" isSupportedFile analyzeCode analyze.

End JavaScriptAnalyzer.

(** ** [PythonAnalyzer] and [GoAnalyzer]

    Their dispatch ([isSupportedFile]) and their [analyze] wrapper are
    modelled; the rule sets inside their [analyzeCode] are left as
    parameters. *)

Module PythonAnalyzer.

Definition getSupportedExtensions : list string := [".py"; ".pyw"; ".pyi"]%string.

Definition isSupportedFile (path : string) : bool :=
  existsb (fun ext => has_suffix ext path) getSupportedExtensions.

Definition analyzer (analyzeCode : string -> string -> outcome (list AnalysisResult))
    : BaseAnalyzer :=
  mkAnalyzer "Python" (fun p => Return (isSupportedFile p)) analyzeCode
    (analyze_file_with analyzeCode).

End PythonAnalyzer.

Module GoAnalyzer.

Definition getSupportedExtensions : list string := [".go"]%string.

Definition isSupportedFile (path : string) : bool :=
  existsb (fun ext => has_suffix ext path) getSupportedExtensions.

Definition analyzer (analyzeCode : string -> string -> outcome (list AnalysisResult))
    : BaseAnalyzer :=
  mkAnalyzer "Go" (fun p => Return (isSupportedFile p)) analyzeCode
    (analyze_file_with analyzeCode).

End GoAnalyzer.

End Analyzers.

(* ===================================================================== *)
(** * The analysis manager ([analysis_manager.cpp])                       *)
(* ===================================================================== *)

Module AnalysisManager.

Import Analyzers.

(** What [std::filesystem::recursive_directory_iterator] yields. *)
Record directory_entry := mkEntry {
  path : string;
  is_regular_file : bool
}.

(** A directory tree as the iterator presents it: the entries it yields, in
    its order, and whether advancing past the last of them throws a
    [std::filesystem::filesystem_error] (with the given [what]) instead of
    reaching the end. *)
Record directory := mkDirectory {
  entries : list directory_entry;
  iteration_error : option string
}.

Definition end_of_iteration (dir : directory) : outcome unit :=
  match iteration_error dir with
  | Some what => Throw (std_exception what)
  | None => Return tt
  end.

(** [initializeAnalyzers]: the registry is a [std::map], visited in the
    order of its keys.  The rule sets of the Python and Go analyzers are
    parameters. *)
Definition registered_analyzers
    (python_rules go_rules : string -> string -> outcome (list AnalysisResult))
    : list (string * BaseAnalyzer) :=
  [ ("cpp"%string, CppAnalyzer.analyzer);
    ("go"%string, GoAnalyzer.analyzer go_rules);
    ("java"%string, JavaAnalyzer.analyzer);
    ("javascript"%string, JavaScriptAnalyzer.analyzer);
    ("python"%string, PythonAnalyzer.analyzer python_rules) ].

(** The states of one worker of [analyzeDirectoryParallel]: about to
    evaluate the loop condition, about to fetch-and-increment the shared
    index, analysing the file it claimed, or returned. *)
Inductive worker_pc :=
| AtLoopTest
| Claiming
| Analyzing (index : nat)
| Finished.

(** The variables the workers share. *)
Record pool := mkPool {
  current_index : nat;
  has_errors : bool;
  all_results : gmap string (list AnalysisResult);
  workers : list worker_pc;
  ticks : nat
}.

Section Manager.

Variable fs : filesystem.

(** [analyzers_], in key order. *)
Variable analyzers_ : list (string * BaseAnalyzer).

(** [ai_engine_ && ai_engine_->isAvailable()], and
    [ai_engine_->enhanceAnalysis]: the class [CodezillA::AIEngine] the
    manager is compiled against is not part of the sources. *)
Variable ai_available : bool.
Variable enhanceAnalysis :
  list AnalysisResult -> string -> string -> outcome (list AnalysisResult).

(** The value of [analysis_cancelled_] at each of its successive reads
    (serial scan) or at each step of the worker pool (parallel scan). *)
Variable analysis_cancelled_ : nat -> bool.

(** [AnalysisManager::getAnalyzerForFile] *)
Fixpoint getAnalyzerForFile_from (registry : list (string * BaseAnalyzer))
    (file : string) : outcome (option BaseAnalyzer) :=
  match registry with
  | [] => Return None
  | (_, analyzer) :: rest =>
    let* supported := isSupportedFile analyzer file in
    if supported then Return (Some analyzer)
    else getAnalyzerForFile_from rest file
  end.

Definition getAnalyzerForFile (file : string) : outcome (option BaseAnalyzer) :=
  getAnalyzerForFile_from analyzers_ file.

(** [AnalysisManager::analyzeFile]; [cancelled] is the value it reads from
    [analysis_cancelled_]. *)
Definition analyzeFile (cancelled : bool) (file : string)
    : outcome (list AnalysisResult) :=
  if cancelled
  then Throw (mkAnalysisException "Analysis cancelled by user" "All")
  else
    executeWithRecovery
      (let* analyzer := getAnalyzerForFile file in
       match analyzer with
       | None =>
         Return [finding file "UNSUPPORTED_LANGUAGE" "File type not supported" "ERROR"]
       | Some analyzer =>
         let code_context := match fs file with Some c => c | None => ""%string end in
         let* results := analyze analyzer fs file in
         if ai_available
         then enhanceAnalysis results file code_context
         else Return results
       end).

(** The [for] loop of [analyzeDirectory] over the remaining entries:
    the result map when the loop is left, and how it is left.  [reads]
    counts the reads of the cancellation flag made so far. *)
Fixpoint scan (dir_end : outcome unit) (reads : nat)
    (remaining : list directory_entry)
    (results : gmap string (list AnalysisResult))
    : gmap string (list AnalysisResult) * outcome unit :=
  match remaining with
  | [] => (results, dir_end)
  | entry :: rest =>
    if analysis_cancelled_ reads
    then (results, Throw (mkAnalysisException "Analysis cancelled" "Directory"))
    else if is_regular_file entry then
      match analyzeFile (analysis_cancelled_ (S reads)) (path entry) with
      | Return file_results =>
        scan dir_end (S (S reads)) rest
          (if decide (file_results = []) then results
           else <[path entry := file_results]> results)
      | Throw e =>
        if is_recoverable e
        then scan dir_end (S (S reads)) rest results
        else (results, Throw e)
      end
    else scan dir_end (S reads) rest results
  end.

(** [AnalysisManager::analyzeDirectory] *)
Definition analyzeDirectory (dir : directory)
    : outcome (gmap string (list AnalysisResult)) :=
  let '(results, body) := scan (end_of_iteration dir) 0 (entries dir) ∅ in
  match executeWithRecovery body with
  | Return _ => Return results
  | Throw e => if is_AnalyzerException e then Return results else Throw e
  end.

(** The first loop of [analyzeDirectoryParallel]: [files_to_analyze]. *)
Fixpoint collect_files (dir_end : outcome unit)
    (remaining : list directory_entry) : outcome (list string) :=
  match remaining with
  | [] => let* _ := dir_end in Return []
  | entry :: rest =>
    if is_regular_file entry then
      let* analyzer := getAnalyzerForFile (path entry) in
      let* files := collect_files dir_end rest in
      Return (match analyzer with
              | Some _ => path entry :: files
              | None => files
              end)
    else collect_files dir_end rest
  end.

(** One step of the worker in state [pc]: its next state and the shared
    variables afterwards. *)
Definition worker_step (files_to_analyze : list string) (pc : worker_pc)
    (p : pool) : worker_pc * pool :=
  match pc with
  | AtLoopTest =>
    (if negb (analysis_cancelled_ (ticks p)) && negb (has_errors p)
     then Claiming else Finished,
     mkPool (current_index p) (has_errors p) (all_results p) (workers p) (S (ticks p)))
  | Claiming =>
    let index := current_index p in
    (if (length files_to_analyze <=? index)%nat then Finished else Analyzing index,
     mkPool (S index) (has_errors p) (all_results p) (workers p) (S (ticks p)))
  | Analyzing index =>
    match files_to_analyze !! index with
    | None => (Finished, p)
    | Some file =>
      match analyzeFile (analysis_cancelled_ (ticks p)) file with
      | Return file_results =>
        (AtLoopTest,
         mkPool (current_index p) (has_errors p)
           (if decide (file_results = []) then all_results p
            else <[file := file_results]> (all_results p))
           (workers p) (S (ticks p)))
      | Throw e =>
        if is_std_exception e
        then (AtLoopTest,
              mkPool (current_index p) true (all_results p) (workers p) (S (ticks p)))
        else (Finished,
              mkPool (current_index p) (has_errors p) (all_results p) (workers p)
                (S (ticks p)))
      end
    end
  | Finished => (Finished, p)
  end.

(** The pool after worker number [w] takes its next step. *)
Definition pool_step (files_to_analyze : list string) (p : pool) (w : nat) : pool :=
  match workers p !! w with
  | None => p
  | Some pc =>
    let '(pc', p') := worker_step files_to_analyze pc p in
    mkPool (current_index p') (has_errors p') (all_results p')
      (<[w := pc']> (workers p')) (ticks p')
  end.

(** The pool after the workers have taken steps in the order [schedule]. *)
Definition run_pool (files_to_analyze : list string) (schedule : list nat)
    (p : pool) : pool :=
  foldl (pool_step files_to_analyze) p schedule.

Definition all_finished (p : pool) : bool :=
  forallb (fun pc => match pc with Finished => true | _ => false end) (workers p).

(** [num_threads] *)
Definition num_threads (max_threads : Z) (files_to_analyze : list string) : Z :=
  Z.min max_threads (int_wrap (Z.of_nat (length files_to_analyze))).

Definition initial_pool (max_threads : Z) (files_to_analyze : list string) : pool :=
  mkPool 0 false ∅
    (replicate (Z.to_nat (num_threads max_threads files_to_analyze)) AtLoopTest) 0.

(** [AnalysisManager::analyzeDirectoryParallel] under the interleaving
    [schedule] of its workers: [None] while some worker has not returned
    (the [future.wait()] loop is still blocked). *)
Definition analyzeDirectoryParallel (dir : directory) (max_threads : Z)
    (schedule : list nat)
    : option (outcome (gmap string (list AnalysisResult))) :=
  match collect_files (end_of_iteration dir) (entries dir) with
  | Throw e => Some (if is_std_exception e then Return ∅ else Throw e)
  | Return files_to_analyze =>
    let p := run_pool files_to_analyze schedule (initial_pool max_threads files_to_analyze) in
    if all_finished p then Some (Return (all_results p)) else None
  end.

(** ** Vocabulary of the properties *)

(** What a scan enters in the result map for a file whose analysis ended
    in [o]: its findings when there are some, nothing otherwise. *)
Definition recorded (o : outcome (list AnalysisResult))
    : option (list AnalysisResult) :=
  match o with
  | Return (x :: l) => Some (x :: l)
  | _ => None
  end.

(** The paths of the regular files among [es], in order. *)
Definition regular_files (es : list directory_entry) : list string :=
  path <$> filter (fun e => is_regular_file e = true) es.

(** Every entry of the map is what the analysis of its file records. *)
Definition consistent (m : gmap string (list AnalysisResult)) : Prop :=
  forall p f, m !! p = Some f -> recorded (analyzeFile false p) = Some f.

(** The analysis of [e], if it is a regular file, does not end in an
    exception that the per-file handlers let through. *)
Definition no_fatal_error (e : directory_entry) : Prop :=
  is_regular_file e = true ->
  forall exn, analyzeFile false (path e) = Throw exn -> is_recoverable exn = true.

(** The analysis of [e], if it is a regular file, returns. *)
Definition analysis_returns (e : directory_entry) : Prop :=
  is_regular_file e = true ->
  exists f, analyzeFile false (path e) = Return f.

(** An upper bound on the steps worker [pc] still takes before it has
    returned, in a pool whose shared index is [index]. *)
Definition steps_left (files_to_analyze : list string) (index : nat)
    (pc : worker_pc) : nat :=
  match pc with
  | AtLoopTest => 3 * (length files_to_analyze - index) + 2
  | Claiming => 3 * (length files_to_analyze - index) + 1
  | Analyzing _ => 3 * (length files_to_analyze - index) + 3
  | Finished => 0
  end.

(** The invariant of a pool in which nothing throws and nobody cancels:
    the failure flag is down; a worker analyses a file it has claimed; a
    worker has returned only once the index has run past the list; the
    result map holds what has been recorded for the claimed files that are
    no longer being analysed, and nothing else. *)
Definition pool_invariant (files_to_analyze : list string) (p : pool) : Prop :=
  has_errors p = false /\
  (forall w i, workers p !! w = Some (Analyzing i) ->
     (i < current_index p)%nat /\ (i < length files_to_analyze)%nat) /\
  (forall w, workers p !! w = Some Finished ->
     (length files_to_analyze <= current_index p)%nat) /\
  (forall file f, all_results p !! file = Some f ->
     file ∈ files_to_analyze /\ recorded (analyzeFile false file) = Some f) /\
  (forall i file, (i < current_index p)%nat ->
     files_to_analyze !! i = Some file ->
     (forall w, workers p !! w <> Some (Analyzing i)) ->
     all_results p !! file = recorded (analyzeFile false file)).

(** Is there a registered analyzer for [file]? *)
Definition has_analyzer (file : string) : bool :=
  match getAnalyzerForFile file with
  | Return (Some _) => true
  | _ => false
  end.

End Manager.

(** The cancellation flag when [cancelAnalysis] is never called. *)
Definition never_cancelled : nat -> bool := fun _ => false.

(** The cancellation flag when [cancelAnalysis] is called after [c] reads
    of the flag have seen it clear, and it is not reset. *)
Definition cancelled_from (c : nat) : nat -> bool := fun reads => (c <=? reads)%nat.

(** The cancellation point of a serial scan: the number of entries, from
    [es] on, that the loop of [analyzeDirectory] goes through with the
    flag clear when [cancelAnalysis] is called after [c] reads of the flag
    and [reads] of them were made before [es].  Going through an entry
    takes one read (the test at the head of the loop body), going through
    a regular file a second one (in [analyzeFile]). *)
Fixpoint entries_before_from (c reads : nat) (es : list directory_entry) : nat :=
  match es with
  | [] => 0
  | entry :: rest =>
    let reads' := if is_regular_file entry then S (S reads) else S reads in
    if (reads' <=? c)%nat then S (entries_before_from c reads' rest) else 0
  end.

Definition entries_before (c : nat) (dir : directory) : nat :=
  entries_before_from c 0 (entries dir).

End AnalysisManager.

(* ===================================================================== *)
(** * The AI engine: construction, health checks, derived notions         *)
(* ===================================================================== *)

Module EngineService.

Import AIEngine Analyzers.

(** [HEALTH_CHECK_INTERVAL{300}] seconds, in clock ticks (nanoseconds). *)
Definition HEALTH_CHECK_INTERVAL : Z := 300 * 10 ^ 9.

(** The service state of [class AIEngine]. *)
Record ServiceState := mkService {
  service_available_ : bool;
  last_health_check_ : Z
}.

(** What running [python_executable --version 2>&1] through [popen]
    comes to: the pipe cannot be opened; the command writes the bytes
    [output] to the pipe and [pclose] returns [return_code]; or something
    on the way throws. *)
Inductive probe :=
| PipeFailed
| Exited (return_code : Z) (output : string)
| ProbeThrows.

(** The size of [std::array<char, 128> buffer]. *)
Definition BUFFER_SIZE : nat := 128.

(** What [fgets] stores while [room] characters of the buffer are still
    free for text: the characters of the stream up to and including the
    first newline, and what is left of the stream. *)
Fixpoint fgets_from (room : nat) (stream : string) : string * string :=
  match room, stream with
  | S room', String c rest =>
    if Ascii.eqb c "010" then (String c EmptyString, rest)
    else let '(text, rest') := fgets_from room' rest in (String c text, rest')
  | _, _ => (EmptyString, stream)
  end.

(** [fgets(buffer.data(), size, pipe)]: [None] (the null pointer) at the
    end of the stream; otherwise at most [size - 1] characters of text,
    the last place of the buffer being kept for the terminating NUL. *)
Definition fgets (size : nat) (stream : string) : option (string * string) :=
  if empty stream then None else Some (fgets_from (size - 1) stream).

(** [buffer.data()] read as a C string, as [result += buffer.data()]
    reads it: the characters before the first NUL. *)
Fixpoint c_str (buffer : string) : string :=
  match buffer with
  | EmptyString => EmptyString
  | String c rest => if Ascii.eqb c "000" then EmptyString else String c (c_str rest)
  end.

(** The loop [while (fgets(...) != nullptr) result += buffer.data();].
    Every round takes at least one character off the stream, so
    [String.length stream] rounds reach its end. *)
Fixpoint read_loop (rounds : nat) (stream result : string) : string :=
  match rounds with
  | O => result
  | S rounds' =>
    match fgets BUFFER_SIZE stream with
    | None => result
    | Some (text, rest) => read_loop rounds' rest (result +:+ c_str text)
    end
  end.

(** [result] when the loop is left: what the health check gets to see of
    the [output] of the command. *)
Definition read_output (output : string) : string :=
  read_loop (String.length output) output EmptyString.

(** [AIEngine::isServiceAvailable]: the answer and the service state
    afterwards.  [now] is the [system_clock] reading it takes. *)
Definition isServiceAvailable (now : Z) (p : probe) (s : ServiceState)
    : bool * ServiceState :=
  if now - last_health_check_ s <? HEALTH_CHECK_INTERVAL
  then (service_available_ s, s)
  else
    match p with
    | PipeFailed => (false, s)
    | Exited return_code output =>
      let result := read_output output in
      let available := (return_code =? 0) && contains "Python" result in
      (available, mkService available now)
    | ProbeThrows => (false, s)
    end.

(** The constructor [AIEngine::AIEngine].  [db_manager] is the shared
    pointer, [None] when null; [now_init] is the clock reading of the
    member initialiser of [last_health_check_], [now_check] the one taken
    by the initial health check. *)
Definition construct {DB} (db_manager : option DB) (config : AIEngineConfig)
    (now_init now_check : Z) (p : probe) : outcome (Engine * ServiceState) :=
  match db_manager with
  | None => Throw (std_exception "Database manager cannot be null")
  | Some _ =>
    if negb (validate config)
    then Throw (std_exception "Invalid AI Engine configuration")
    else
      let '(available, s) :=
        isServiceAvailable now_check p (mkService false now_init) in
      Return (new_engine config, mkService available (last_health_check_ s))
  end.

(** The factory [AIEngine::create]; [now_verify] and [p_verify] belong to
    its own call of [isServiceAvailable]. *)
Definition create {DB} (db_manager : option DB) (config : AIEngineConfig)
    (now_init now_check now_verify : Z) (p p_verify : probe)
    : option (Engine * ServiceState) :=
  match db_manager with
  | None => None
  | Some _ =>
    if negb (validate config) then None
    else
      match construct db_manager config now_init now_check p with
      | Return (engine, s) =>
        Some (engine, (isServiceAvailable now_verify p_verify s).2)
      | Throw _ => None
      end
  end.

(** Successive calls of [isServiceAvailable], each with its clock reading
    and what a probe would find: the answers, in order, and the state
    afterwards. *)
Fixpoint health_checks (calls : list (Z * probe)) (s : ServiceState)
    : list bool * ServiceState :=
  match calls with
  | [] => ([], s)
  | (now, p) :: rest =>
    let '(answer, s1) := isServiceAvailable now p s in
    let '(answers, s2) := health_checks rest s1 in
    (answer :: answers, s2)
  end.

(** Successive [getFromCache] lookups of [k] at the clock readings
    [times]: the cache afterwards. *)
Definition lookups (times : list Z) (k : string)
    (cache : gmap string CacheEntry) : gmap string CacheEntry :=
  foldl (fun c now => (getFromCache now k c).2) cache times.

(** The number of the first successful invocation of [operation] among
    invocations [calls], ..., [calls + fuel - 1], and [calls + fuel] when
    there is none. *)
Fixpoint first_success_from (operation : nat -> AIAnalysisResult)
    (calls fuel : nat) : nat :=
  match fuel with
  | O => calls
  | S fuel' =>
    if success (operation calls) then calls
    else first_success_from operation (S calls) fuel'
  end.

(** The counters of [Metrics] add up: every request counted is counted as
    a success or as a failure. *)
Definition metrics_ok (m : Metrics) : Prop :=
  total_requests m = size_t_wrap (successful_requests m + failed_requests m).

(** The operation does not change the capacity [n] of the cache. *)
Definition keeps_capacity (n : N) (op : operation) : Prop :=
  match op with
  | OpUpdateConfiguration cfg => cache_max_size cfg = n
  | _ => True
  end.

End EngineService.

(* ===================================================================== *)
(** * The C++ analyzer: its findings and its fixes ([cpp_analyzer.h])     *)
(* ===================================================================== *)

Module CppFindings.

Import Analyzers.

(** The kinds of finding that [CppAnalyzer::analyzeCode] constructs: rule,
    message and severity as passed to [emplace_back], and whether a line
    number is passed too. *)
Record rule := mkRule {
  rule_name : string;
  rule_message : string;
  rule_severity : string;
  per_line : bool
}.

Definition rules : list rule :=
  [ mkRule "MISSING_SEMICOLON" "Possible missing semicolon" "WARNING" true;
    mkRule "SYNTAX_ERROR" "Potential syntax issue detected" "ERROR" true;
    mkRule "CODE_SMELL" "Code quality issue" "WARNING" true;
    mkRule "INCLUDE_GUARD_MISSING" "Header file missing include guard" "WARNING" false;
    mkRule "USE_MODERN_MEMORY"
      "Consider using new/delete or smart pointers instead of malloc/free" "INFO" false;
    mkRule "USE_IOSTREAMS" "Consider using iostreams instead of printf" "INFO" false;
    mkRule "SECURITY_VULNERABILITY" "Potential security vulnerability detected"
      "CRITICAL" true ].

(** The finding of [checkSecurityPatterns] for line [n] of [file_name]. *)
Definition security_finding (file_name : string) (n : Z) : AnalysisResult :=
  mkFinding file_name "SECURITY_VULNERABILITY"
    "Potential security vulnerability detected" "CRITICAL" n.

(** The finding of the semicolon heuristic of [checkLine]. *)
Definition missing_semicolon_finding (file_name : string) (n : Z) : AnalysisResult :=
  mkFinding file_name "MISSING_SEMICOLON" "Possible missing semicolon" "WARNING" n.

End CppFindings.

(* ===================================================================== *)
(** * Automatic fixes ([base_analyzer.h], [cpp_analyzer.h],
      [AnalysisManager::applyAutoFixes])                                  *)
(* ===================================================================== *)

Module AutoFix.

Import Analyzers.

(** What [out << lines[i]; if (i != lines.size() - 1) out << "\n";]
    writes over all [i]: the lines separated by newlines, with no newline
    after the last. *)
Fixpoint join_lines (lines : list string) : string :=
  match lines with
  | [] => ""
  | line :: rest =>
    match rest with
    | [] => line
    | _ => (line +:+ String "010" (join_lines rest))%string
    end
  end.

(** The lines without the last one when that is empty. *)
Fixpoint without_final_empty_line (lines : list string) : list string :=
  match lines with
  | [] => []
  | line :: rest =>
    match rest with
    | [] => if empty line then [] else [line]
    | _ => line :: without_final_empty_line rest
    end
  end.

(** The fixing interface of [BaseAnalyzer]: [canAutoFix], the rule-based
    [applyFix] and the overload that takes an AI suggestion.  A fix
    returns its verdict and the file system it leaves. *)
Record Fixer := mkFixer {
  canAutoFix : AnalysisResult -> bool;
  applyFix : filesystem -> string -> AnalysisResult -> bool * filesystem;
  applyFix_ai : filesystem -> string -> AnalysisResult -> string -> bool * filesystem
}.

(** [BaseAnalyzer::applyFix(file_path, result, ai_suggested_fix)], which
    calls the virtual two-argument [applyFix]. *)
Definition base_applyFix_ai
    (applyFix : filesystem -> string -> AnalysisResult -> bool * filesystem)
    (fs : filesystem) (file_path : string) (result : AnalysisResult)
    (ai_suggested_fix : string) : bool * filesystem :=
  if empty ai_suggested_fix then applyFix fs file_path result else (false, fs).

(** The defaults of [BaseAnalyzer], which [JavaAnalyzer] and
    [JavaScriptAnalyzer] inherit. *)
Definition base_applyFix (fs : filesystem) (file_path : string)
    (result : AnalysisResult) : bool * filesystem := (false, fs).

Definition base_fixer : Fixer :=
  mkFixer (fun _ => false) base_applyFix (base_applyFix_ai base_applyFix).

Section Files.

(** Can [std::ofstream] open the file for writing? *)
Variable writable : string -> bool.

(** Opening [path] with [std::ofstream] and writing [content]: a stream
    that failed to open swallows the output. *)
Definition write_file (fs : filesystem) (path content : string) : filesystem :=
  if writable path
  then fun p => if String.eqb p path then Some content else fs p
  else fs.

(** [CppAnalyzer::canAutoFix] *)
Definition Cpp_canAutoFix (result : AnalysisResult) : bool :=
  String.eqb (rule_id result) "MISSING_SEMICOLON" ||
  String.eqb (rule_id result) "BRACE_STYLE" ||
  String.eqb (rule_id result) "INCLUDE_GUARD_MISSING" ||
  String.eqb (rule_id result) "SECURITY_VULNERABILITY".

(** The edit [CppAnalyzer::applyFix] makes to the lines it has read. *)
Definition Cpp_fix_lines (result : AnalysisResult) (lines : list string)
    : list string :=
  if String.eqb (rule_id result) "MISSING_SEMICOLON" && (0 <? line_number result)
  then
    let idx := Z.to_nat (line_number result - 1) in
    match lines !! idx with
    | Some line =>
      if negb (empty line) && negb (Ascii.eqb (back line) ";") &&
         negb (Ascii.eqb (back line) "{")
      then <[idx := (line +:+ ";")%string]> lines
      else lines
    | None => lines
    end
  else lines.

(** [CppAnalyzer::applyFix(file_path, result)] *)
Definition Cpp_applyFix (fs : filesystem) (file_path : string)
    (result : AnalysisResult) : bool * filesystem :=
  if negb (Cpp_canAutoFix result) then (false, fs)
  else
    match fs file_path with
    | None => (false, fs)
    | Some content =>
      let lines := Cpp_fix_lines result (getlines content) in
      (true, write_file fs file_path (join_lines lines))
    end.

(** [CppAnalyzer::applyFix(file_path, result, ai_suggested_fix)] *)
Definition Cpp_applyFix_ai (fs : filesystem) (file_path : string)
    (result : AnalysisResult) (ai_suggested_fix : string) : bool * filesystem :=
  if String.eqb (rule_id result) "SECURITY_VULNERABILITY" &&
     negb (empty ai_suggested_fix)
  then (false, fs)
  else Cpp_applyFix fs file_path result.

Definition Cpp_fixer : Fixer := mkFixer Cpp_canAutoFix Cpp_applyFix Cpp_applyFix_ai.

(** [analyzers_] with the fixing side of each analyzer, in key order. *)
Variable analyzers_ : list (string * (BaseAnalyzer * Fixer)).

(** [ai_engine_ && ai_engine_->isAvailable()] and
    [ai_engine_->suggestFixes]. *)
Variable ai_available : bool.
Variable suggestFixes : AnalysisResult -> string -> outcome string.

(** [AnalysisManager::getAnalyzerForFile], handing out the fixing side of
    the analyzer found. *)
Fixpoint getFixerForFile_from (registry : list (string * (BaseAnalyzer * Fixer)))
    (file : string) : outcome (option Fixer) :=
  match registry with
  | [] => Return None
  | (_, (analyzer, fixer)) :: rest =>
    let* supported := isSupportedFile analyzer file in
    if supported then Return (Some fixer)
    else getFixerForFile_from rest file
  end.

Definition getFixerForFile (file : string) : outcome (option Fixer) :=
  getFixerForFile_from analyzers_ file.

(** The loop of [applyAutoFixes] over the remaining findings: the file
    system when the loop is left, and how it is left: with the counters
    [fixes_applied] and [total_fixable], or by an exception. *)
Fixpoint fix_all (results : list AnalysisResult) (fs : filesystem)
    (fixes_applied total_fixable : Z) : filesystem * outcome (Z * Z) :=
  match results with
  | [] => (fs, Return (fixes_applied, total_fixable))
  | result :: rest =>
    match getFixerForFile (file_path result) with
    | Throw e => (fs, Throw e)
    | Return None => fix_all rest fs fixes_applied total_fixable
    | Return (Some analyzer) =>
      if canAutoFix analyzer result then
        let total_fixable := int_wrap (total_fixable + 1) in
        let code_context :=
          match fs (file_path result) with Some c => c | None => ""%string end in
        match (if ai_available && String.eqb (rule_id result) "SECURITY_VULNERABILITY"
               then suggestFixes result code_context
               else Return ""%string) with
        | Throw e => (fs, Throw e)
        | Return ai_suggested_fix =>
          let '(applied, fs') :=
            applyFix_ai analyzer fs (file_path result) result ai_suggested_fix in
          fix_all rest fs'
            (if applied then int_wrap (fixes_applied + 1) else fixes_applied)
            total_fixable
        end
      else fix_all rest fs fixes_applied total_fixable
    end
  end.

(** [AnalysisManager::applyAutoFixes]: the file system afterwards and the
    verdict. *)
Definition applyAutoFixes (results : list AnalysisResult) (fs : filesystem)
    : filesystem * outcome bool :=
  let '(fs', body) := fix_all results fs 0 0 in
  match executeWithRecovery body with
  | Return (fixes_applied, _) => (fs', Return (0 <? fixes_applied))
  | Throw e => (fs', if is_AnalyzerException e then Return false else Throw e)
  end.

End Files.

(** The registry of [initializeAnalyzers] with the fixing sides: the C++
    analyzer has its own, the Java and JavaScript analyzers inherit the
    defaults, those of the Python and Go analyzers are parameters like
    their rule sets. *)
Definition registered_fixers (writable : string -> bool)
    (python_rules go_rules : string -> string -> outcome (list AnalysisResult))
    (python_fixer go_fixer : Fixer)
    : list (string * (BaseAnalyzer * Fixer)) :=
  [ ("cpp"%string, (CppAnalyzer.analyzer, Cpp_fixer writable));
    ("go"%string, (GoAnalyzer.analyzer go_rules, go_fixer));
    ("java"%string, (JavaAnalyzer.analyzer, base_fixer));
    ("javascript"%string, (JavaScriptAnalyzer.analyzer, base_fixer));
    ("python"%string, (PythonAnalyzer.analyzer python_rules, python_fixer)) ].

End AutoFix.

(* ===================================================================== *)
(** * Concrete runs                                                       *)
(* ===================================================================== *)

(** The inputs of the worked examples that accompany the properties. *)

Module Scenarios.

Import AIEngine.

(** A collision-free stand-in for the SHA-256 digest. *)
Definition ideal_digest (combined : string) : string := combined.

(** A hash table that is visited in the order of [map_to_list]. *)
Definition bucket_order (cache : gmap string CacheEntry)
    : list (string * CacheEntry) := map_to_list cache.

(** What a healthy service answers. *)
Definition answer : AIAnalysisResult :=
  mkResult true "Unbounded copy into a fixed buffer." "" 0 3
    ["Replace strcpy with strncpy"%string] 0 false.

(** A service that answers at once; one that is down. *)
Definition service_up : nat -> AIAnalysisResult := fun _ => answer.
Definition service_down : nat -> AIAnalysisResult :=
  fun _ => failure "AI service did not produce output".

(** A service that fails [n] times and then answers. *)
Definition fails_then_succeeds (n : nat) : nat -> AIAnalysisResult :=
  fun call => if (call <? n)%nat then failure "AI service exited with code 1" else answer.

(** Requests made at clock reading [t], one second apart inside. *)
Definition env_at (t : Z) (service : nat -> AIAnalysisResult) : Env :=
  mkEnv t 1 service 250 (t + 10 ^ 9).

(** The configuration of the specification's example: everything at its
    default but [timeout_seconds = 0]. *)
Definition zero_timeout : AIEngineConfig :=
  mkConfig "python3" "src/analysis/ai/ai_service.py" "advanced" 0 3 true true 1000.

(** The default configuration with another cache capacity. *)
Definition with_capacity (n : N) : AIEngineConfig :=
  mkConfig "python3" "src/analysis/ai/ai_service.py" "advanced" 30 3 true true n.

(** The newline character, and a two-line C file. *)
Definition newline : string := String "010"%char EmptyString.

Definition two_line_file : string :=
  ("gets(line)" +:+ newline +:+ "return 0")%string.

End Scenarios.

Module ScanScenarios.

Import Analyzers AnalysisManager.

(** Stand-ins for the rule sets of the Python and Go analyzers. *)
Definition no_rules : string -> string -> outcome (list AnalysisResult) :=
  fun _ _ => Return [].

Definition registry : list (string * BaseAnalyzer) :=
  registered_analyzers no_rules no_rules.

(** A project directory: [a.cpp] cannot be opened, the others can. *)
Definition project_fs : filesystem := fun p =>
  if String.eqb p "proj/b.cpp" then Some "strcpy(dst, src);"%string
  else if String.eqb p "proj/src/c.java" then Some "class C {}"%string
  else if String.eqb p "proj/src/clean.cpp" then Some "int x;"%string
  else if String.eqb p "proj/notes.txt" then Some "to do"%string
  else None.

Definition project : directory :=
  mkDirectory
    [ mkEntry "proj/a.cpp" true;
      mkEntry "proj/b.cpp" true;
      mkEntry "proj/src" false;
      mkEntry "proj/src/c.java" true;
      mkEntry "proj/src/clean.cpp" true ]
    None.

(** One file that cannot be opened between two that can. *)
Definition three_files : directory :=
  mkDirectory
    [ mkEntry "proj/b.cpp" true;
      mkEntry "proj/a.cpp" true;
      mkEntry "proj/src/c.java" true ]
    None.

(** The current directory with a file called [x] in it. *)
Definition current_directory : directory :=
  mkDirectory [mkEntry "./x" true; mkEntry "./b.cpp" true] None.

(** A directory that holds one file no analyzer is registered for. *)
Definition notes_only : directory :=
  mkDirectory [mkEntry "proj/notes.txt" true] None.

(** An engine that leaves the findings as they are, and one that raises a
    [FileSystemException] when it is handed no file content. *)
Definition no_enhancement
    : list AnalysisResult -> string -> string -> outcome (list AnalysisResult) :=
  fun results _ _ => Return results.

Definition strict_enhancement
    : list AnalysisResult -> string -> string -> outcome (list AnalysisResult) :=
  fun results file code_context =>
    if empty code_context
    then Throw (FileSystemException ("Cannot read file - File: " +:+ file))
    else Return results.

(** [rounds] rounds in which workers [0 .. n-1] take one step each. *)
Definition round_robin (n rounds : nat) : list nat :=
  mjoin (replicate rounds (seq 0 n)).

End ScanScenarios.

Module ExtraScenarios.

Import AIEngine EngineService Analyzers AnalysisManager AutoFix CppFindings.
Import Scenarios ScanScenarios.

(** A probe that finds a Python interpreter. *)
Definition python_found : probe := Exited 0 "Python 3.11.4".

(** The output of a command that writes a NUL byte before its version. *)
Definition nul_then_version : string :=
  String "000"%char "Python 3.11.4".

(** Health checks one second and 299 seconds into the life of an engine. *)
Definition early_checks : list (Z * probe) :=
  [ (10 ^ 9, python_found); (299 * 10 ^ 9, PipeFailed) ].

(** Two different requests, five ticks apart. *)
Definition two_requests : list operation :=
  [ OpAnalyzeCode (env_at 0 service_up) "int a;" "cpp" "";
    OpAnalyzeCode (env_at 5 service_up) "int b;" "cpp" "" ].

(** A file whose second line calls [sprintf]. *)
Definition format_file : string :=
  ("char buf[8];" +:+ newline +:+ "sprintf(buf, fmt, x);")%string.

(** A file system in which every file can be written, holding a source
    file whose first line lacks its semicolon and a header without an
    include guard. *)
Definition everything_writable : string -> bool := fun _ => true.

Definition draft_fs : filesystem := fun p =>
  if String.eqb p "draft.cpp" then Some ("int x" +:+ newline +:+ "int y;" +:+ newline)%string
  else if String.eqb p "guard.h" then Some ("int z;" +:+ newline)%string
  else None.

(** The registered analyzers with stand-ins for the fixing side of the
    Python and Go analyzers. *)
Definition fixers : list (string * (BaseAnalyzer * Fixer)) :=
  registered_fixers everything_writable no_rules no_rules base_fixer base_fixer.

(** An AI engine that has a suggestion for everything, and one that has
    none. *)
Definition eager_suggestions : AnalysisResult -> string -> outcome string :=
  fun _ _ => Return "Use strncpy with the size of the buffer"%string.

Definition no_suggestions : AnalysisResult -> string -> outcome string :=
  fun _ _ => Return ""%string.

End ExtraScenarios.

(* ===================================================================== *)
(** * Properties                                                          *)
(* ===================================================================== *)

(** ** Machine integers and strings *)

Lemma int_wrap_small z : - 2 ^ 31 <= z <= INT_MAX -> int_wrap z = z.
Proof.
  unfold int_wrap, INT_MAX. intros Hz.
  rewrite Z.mod_small by lia. lia.
Qed.

Lemma empty_true s : empty s = true <-> s = ""%string.
Proof. destruct s; simpl; split; congruence. Qed.

Lemma empty_false s : empty s = false <-> s <> ""%string.
Proof. destruct s; simpl; split; congruence. Qed.

(** ** Configuration updates *)

Module ConfigurationSpec.

Import AIEngine Scenarios.

Lemma validate_false cfg :
  validate cfg = false <->
  python_executable cfg = ""%string \/ ai_service_path cfg = ""%string \/
  timeout_seconds cfg <= 0 \/ max_retries cfg < 0.
Proof.
  unfold validate.
  rewrite !andb_false_iff, !negb_false_iff, !empty_true.
  rewrite Z.ltb_ge, Z.leb_gt. tauto.
Qed.

Lemma validate_true cfg :
  validate cfg = true <->
  python_executable cfg <> ""%string /\ ai_service_path cfg <> ""%string /\
  0 < timeout_seconds cfg /\ 0 <= max_retries cfg.
Proof.
  unfold validate.
  rewrite !andb_true_iff, !negb_true_iff, !empty_false.
  rewrite Z.ltb_lt, Z.leb_le. tauto.
Qed.

(** C8.  [updateConfiguration] with an invalid configuration (an empty
    executable or service path, [timeout_seconds <= 0] or
    [max_retries < 0]; for instance [timeout_seconds = 0]) returns [false]
    and leaves the engine, hence its active configuration, as it was; with
    a valid one it returns [true] and the active configuration is the new
    one as a whole, cache and metrics untouched. *)
Theorem updateConfiguration_all_or_nothing (cfg : AIEngineConfig) (st : Engine) :
  ((python_executable cfg = ""%string \/ ai_service_path cfg = ""%string \/
    timeout_seconds cfg <= 0 \/ max_retries cfg < 0) /\
   updateConfiguration cfg st = (false, st))
  \/
  ((python_executable cfg <> ""%string /\ ai_service_path cfg <> ""%string /\
    0 < timeout_seconds cfg /\ 0 <= max_retries cfg) /\
   exists st', updateConfiguration cfg st = (true, st') /\
     getConfiguration st' = cfg /\
     analysis_cache_ st' = analysis_cache_ st /\
     metrics_ st' = metrics_ st).
Proof.
  unfold updateConfiguration.
  destruct (validate cfg) eqn:Hv; simpl.
  - right. split; [by apply validate_true|].
    eexists. split; [reflexivity|]. done.
  - left. split; [by apply validate_false|]. reflexivity.
Qed.

(** The example of the specification, on any engine. *)
Lemma updateConfiguration_zero_timeout (st : Engine) :
  validate zero_timeout = false /\
  updateConfiguration zero_timeout st = (false, st) /\
  getConfiguration (updateConfiguration zero_timeout st).2 = getConfiguration st.
Proof. done. Qed.

End ConfigurationSpec.

(** ** Retry and backoff *)

Module RetrySpec.

Import AIEngine.

(** The loop, one iteration unfolded. *)
Lemma retry_loop_unfold op max attempt delay calls res sleeps :
  retry_loop op max attempt delay calls res sleeps =
  if decide (attempt <= max) then
    if success (op calls) then (op calls, sleeps)
    else if decide (attempt + 1 <= max)
         then retry_loop op max (attempt + 1) (int_wrap (delay * 2)) (S calls)
                (op calls) (sleeps ++ [delay])
         else retry_loop op max (attempt + 1) delay (S calls) (op calls) sleeps
  else (res, sleeps).
Proof.
  rewrite retry_loop_equation_1.
  destruct (decide (attempt <= max)); reflexivity.
Qed.

Lemma retry_loop_exhausted op max attempt delay calls res sleeps :
  max < attempt ->
  retry_loop op max attempt delay calls res sleeps = (res, sleeps).
Proof.
  intros Hlt. rewrite retry_loop_unfold.
  destruct (decide (attempt <= max)); [lia | reflexivity].
Qed.

(** [n] failures followed by a success, with retries to spare. *)
Lemma retry_loop_succeeds (n : nat) : forall op max attempt delay calls res sleeps,
  attempt + Z.of_nat n <= max ->
  (forall i, (i < n)%nat -> success (op (calls + i)%nat) = false) ->
  success (op (calls + n)%nat) = true ->
  retry_loop op max attempt delay calls res sleeps =
  (op (calls + n)%nat, sleeps ++ backoff delay n).
Proof.
  induction n as [|n IH]; intros op max attempt delay calls res sleeps Hle Hfail Hok.
  - rewrite retry_loop_unfold. rewrite Nat.add_0_r in *.
    destruct (decide (attempt <= max)); [|lia].
    rewrite Hok. simpl. by rewrite app_nil_r.
  - rewrite retry_loop_unfold.
    destruct (decide (attempt <= max)); [|lia].
    specialize (Hfail 0%nat ltac:(lia)) as Hfail0. rewrite Nat.add_0_r in Hfail0.
    rewrite Hfail0.
    destruct (decide (attempt + 1 <= max)); [|lia].
    rewrite (IH op max (attempt + 1) (int_wrap (delay * 2)) (S calls)).
    + simpl. rewrite <- app_assoc. simpl.
      by replace (S (calls + n)) with (calls + S n)%nat by lia.
    + lia.
    + intros i Hi. replace (S calls + i)%nat with (calls + S i)%nat by lia.
      apply Hfail. lia.
    + by replace (S calls + n)%nat with (calls + S n)%nat by lia.
Qed.

(** Failures only: the loop gives up after [max - attempt] sleeps and
    returns what the last invocation returned. *)
Lemma retry_loop_gives_up (n : nat) : forall op max attempt delay calls res sleeps,
  attempt + Z.of_nat n = max ->
  (forall i, (i <= n)%nat -> success (op (calls + i)%nat) = false) ->
  retry_loop op max attempt delay calls res sleeps =
  (op (calls + n)%nat, sleeps ++ backoff delay n).
Proof.
  induction n as [|n IH]; intros op max attempt delay calls res sleeps Hle Hfail.
  - rewrite retry_loop_unfold. rewrite Nat.add_0_r in *.
    destruct (decide (attempt <= max)); [|lia].
    specialize (Hfail 0%nat ltac:(lia)) as Hfail0. rewrite Nat.add_0_r in Hfail0.
    rewrite Hfail0.
    destruct (decide (attempt + 1 <= max)); [lia|].
    rewrite retry_loop_exhausted by lia. simpl. by rewrite app_nil_r.
  - rewrite retry_loop_unfold.
    destruct (decide (attempt <= max)); [|lia].
    specialize (Hfail 0%nat ltac:(lia)) as Hfail0. rewrite Nat.add_0_r in Hfail0.
    rewrite Hfail0.
    destruct (decide (attempt + 1 <= max)); [|lia].
    rewrite (IH op max (attempt + 1) (int_wrap (delay * 2)) (S calls)).
    + simpl. rewrite <- app_assoc. simpl.
      by replace (S (calls + n)) with (calls + S n)%nat by lia.
    + lia.
    + intros i Hi. replace (S calls + i)%nat with (calls + S i)%nat by lia.
      apply Hfail. lia.
Qed.

Lemma length_backoff d n : length (backoff d n) = n.
Proof. revert d. induction n as [|n IH]; intros d; simpl; [done | by rewrite IH]. Qed.

(** While it fits an [int], the [k]-th delay is the first one doubled [k]
    times. *)
Lemma backoff_lookup (n : nat) : forall d k,
  (k < n)%nat -> 0 < d -> d * 2 ^ Z.of_nat k <= INT_MAX ->
  backoff d n !! k = Some (d * 2 ^ Z.of_nat k).
Proof.
  induction n as [|n IH]; intros d k Hk Hd Hmax; [lia|].
  destruct k as [|k]; simpl.
  - f_equal. lia.
  - assert (Hpow : 2 ^ Z.of_nat (S k) = 2 * 2 ^ Z.of_nat k).
    { rewrite Nat2Z.inj_succ, Z.pow_succ_r by lia. done. }
    rewrite Hpow in Hmax.
    assert (0 < 2 ^ Z.of_nat k) by (apply Z.pow_pos_nonneg; lia).
    assert (Hsmall : int_wrap (d * 2) = d * 2).
    { apply int_wrap_small. unfold INT_MAX in *. nia. }
    rewrite Hsmall, IH; [|lia|lia|].
    + f_equal. rewrite Hpow. lia.
    + rewrite <- Z.mul_assoc. lia.
Qed.

(** What the specification asks of [executeWithRetry], for up to 25
    retries: an operation that fails [max_retries] times and then succeeds
    has its last result returned after exactly [max_retries] sleeps of
    100 ms, 200 ms, 400 ms, ...; one that always fails has the result of
    its last invocation returned after the same sleeps. *)
Lemma executeWithRetry_backoff (op : nat -> AIAnalysisResult) (max_retries : Z) :
  0 <= max_retries <= 25 ->
  (forall i, (i < Z.to_nat max_retries)%nat -> success (op i) = false) ->
  let '(r, sleeps) := executeWithRetry op max_retries in
  r = op (Z.to_nat max_retries) /\
  length sleeps = Z.to_nat max_retries /\
  (forall k, (k < Z.to_nat max_retries)%nat ->
     sleeps !! k = Some (100 * 2 ^ Z.of_nat k)) /\
  (forall k d d', sleeps !! k = Some d -> sleeps !! S k = Some d' -> d' = 2 * d).
Proof.
  intros Hrange Hfail.
  assert (Hrun : executeWithRetry op max_retries =
                 (op (Z.to_nat max_retries), backoff 100 (Z.to_nat max_retries))).
  { unfold executeWithRetry.
    destruct (success (op (Z.to_nat max_retries))) eqn:Hlast.
    - rewrite (retry_loop_succeeds (Z.to_nat max_retries)); simpl; try done; lia.
    - rewrite (retry_loop_gives_up (Z.to_nat max_retries)); simpl; try done; [lia|].
      intros i Hi. destruct (decide (i = Z.to_nat max_retries)) as [->|]; [done|].
      apply Hfail. lia. }
  rewrite Hrun.
  assert (Hk : forall k, (k < Z.to_nat max_retries)%nat ->
             backoff 100 (Z.to_nat max_retries) !! k = Some (100 * 2 ^ Z.of_nat k)).
  { intros k Hk. apply backoff_lookup; [done|lia|].
    assert (2 ^ Z.of_nat k <= 2 ^ 24) by (apply Z.pow_le_mono_r; lia).
    unfold INT_MAX. lia. }
  split; [done|]. split; [apply length_backoff|]. split; [done|].
  intros k d d' Hd Hd'.
  assert (S k < Z.to_nat max_retries)%nat.
  { apply lookup_lt_Some in Hd'. by rewrite length_backoff in Hd'. }
  rewrite Hk in Hd by lia. rewrite Hk in Hd' by lia.
  injection Hd as <-. injection Hd' as <-.
  rewrite Nat2Z.inj_succ, Z.pow_succ_r by lia. lia.
Qed.


(** C2, at 26 retries.  An operation that fails 26 times and succeeds on
    the 27th invocation does get its result returned after 26 sleeps, but
    the [int] delay has overflowed by the last of them: the 25th sleep is
    1677721600 ms and the 26th, instead of at least twice that, is the
    wrapped value -939524096. *)
Theorem executeWithRetry_delay_overflows_at_26 :
  let '(r, sleeps) := executeWithRetry (Scenarios.fails_then_succeeds 26) 26 in
  success r = true /\
  length sleeps = 26%nat /\
  sleeps !! 0%nat = Some 100 /\
  sleeps !! 24%nat = Some 1677721600 /\
  sleeps !! 25%nat = Some (-939524096) /\
  ~ (2 * 1677721600 <= -939524096).
Proof.
  assert (Hrun : executeWithRetry (Scenarios.fails_then_succeeds 26) 26 =
                 (Scenarios.answer, backoff 100 26)) by (vm_compute; reflexivity).
  rewrite Hrun. repeat split; try (vm_compute; reflexivity). lia.
Qed.

(** The same operation with 25 retries is served as specified. *)
Lemma executeWithRetry_backoff_at_25 :
  let '(r, sleeps) := executeWithRetry (Scenarios.fails_then_succeeds 25) 25 in
  r = Scenarios.answer /\
  length sleeps = 25%nat /\
  (forall k, (k < 25)%nat -> sleeps !! k = Some (100 * 2 ^ Z.of_nat k)) /\
  (forall k d d', sleeps !! k = Some d -> sleeps !! S k = Some d' -> d' = 2 * d).
Proof.
  apply (executeWithRetry_backoff (Scenarios.fails_then_succeeds 25) 25); [lia|].
  intros i Hi. unfold Scenarios.fails_then_succeeds.
  destruct (i <? 25)%nat eqn:Hlt; [done|]. apply Nat.ltb_ge in Hlt. lia.
Defined.

End RetrySpec.

(** ** The result cache *)

Module CacheSpec.

Import AIEngine.

Section Cache.

Variable SHA256_hex : string -> string.
Variable iteration_order : gmap string CacheEntry -> list (string * CacheEntry).

Abbreviation evictCacheEntries := (evictCacheEntries iteration_order).
Abbreviation storeInCache := (storeInCache iteration_order).
Abbreviation store_all := (store_all iteration_order).
Abbreviation analyzeCode := (analyzeCode SHA256_hex iteration_order).
Abbreviation run_operation := (run_operation SHA256_hex iteration_order).
Abbreviation run_operations := (run_operations SHA256_hex iteration_order).

(** *** [std::min_element] *)

Lemma min_element_from_in best l :
  min_element_from best l ∈ best :: l.
Proof.
  revert best. induction l as [|x l IH]; intros best; simpl.
  - apply list_elem_of_here.
  - destruct (timestamp x.2 <? timestamp best.2).
    + apply list_elem_of_further, IH.
    + specialize (IH best). apply elem_of_cons in IH as [->|Hin].
      * apply list_elem_of_here.
      * by do 2 apply list_elem_of_further.
Qed.

Lemma min_element_from_le l : forall best y,
  y ∈ best :: l ->
  timestamp (min_element_from best l).2 <= timestamp y.2.
Proof.
  induction l as [|x l IH]; intros best y Hy; simpl.
  - apply list_elem_of_singleton in Hy. subst y. lia.
  - destruct (timestamp x.2 <? timestamp best.2) eqn:Hlt.
    + apply Z.ltb_lt in Hlt.
      apply elem_of_cons in Hy as [Hy|Hy].
      * subst y. specialize (IH x x ltac:(apply list_elem_of_here)). lia.
      * apply IH, Hy.
    + apply Z.ltb_ge in Hlt.
      apply elem_of_cons in Hy as [Hy|Hy].
      * subst y. apply IH, list_elem_of_here.
      * apply elem_of_cons in Hy as [Hy|Hy].
        -- subst y. specialize (IH best best ltac:(apply list_elem_of_here)). lia.
        -- apply IH. by apply list_elem_of_further.
Qed.

Lemma min_element_spec l x :
  min_element l = Some x ->
  x ∈ l /\ forall y, y ∈ l -> timestamp x.2 <= timestamp y.2.
Proof.
  destruct l as [|b l]; simpl; [done|]. intros [= <-].
  split; [apply min_element_from_in|]. intros y. apply min_element_from_le.
Qed.

(** *** Eviction *)

(** An eviction removes at most one key. *)
Lemma evictCacheEntries_delete cache :
  (evictCacheEntries cache = (cache, None)) \/
  (exists k, evictCacheEntries cache = (delete k cache, Some k)).
Proof.
  unfold AIEngine.evictCacheEntries.
  destruct (decide (cache = ∅)); [by left|].
  destruct (min_element (iteration_order cache)) as [lru|]; [right; eauto | by left].
Qed.

(** On a non-empty cache whose iteration visits exactly its entries, the
    evicted entry is one with the smallest timestamp. *)
Lemma evictCacheEntries_oldest cache :
  iteration_order cache ≡ₚ map_to_list cache ->
  cache <> ∅ ->
  exists k e, evictCacheEntries cache = (delete k cache, Some k) /\
    cache !! k = Some e /\
    forall k' e', cache !! k' = Some e' -> timestamp e <= timestamp e'.
Proof.
  intros Hperm Hne. unfold AIEngine.evictCacheEntries.
  destruct (decide (cache = ∅)); [done|].
  destruct (min_element (iteration_order cache)) as [[k e]|] eqn:Hmin.
  - apply min_element_spec in Hmin as [Hin Hle].
    exists k, e. split; [done|]. split.
    + rewrite Hperm in Hin. by apply elem_of_map_to_list in Hin.
    + intros k' e' Hk'. apply (Hle (k', e')).
      rewrite Hperm. by apply elem_of_map_to_list.
  - exfalso. destruct (iteration_order cache) eqn:Hl; [|done].
    symmetry in Hperm. apply Permutation_nil_r in Hperm.
    by apply map_to_list_empty_iff in Hperm.
Qed.

(** *** Stores and lookups *)

Lemma storeInCache_lookup cfg now k r cache :
  (storeInCache cfg now k r cache).1 !! k = Some (mkEntry k r now 1).
Proof.
  unfold AIEngine.storeInCache.
  destruct (if (cache_max_size cfg <=? N.of_nat (size cache))%N
            then evictCacheEntries cache else (cache, None)) as [c1 ev].
  simpl. apply lookup_insert_eq.
Qed.

Lemma cache_ok_delete k cache : cache_ok cache -> cache_ok (delete k cache).
Proof. apply map_Forall_delete. Qed.

Lemma cache_ok_evict cache : cache_ok cache -> cache_ok (evictCacheEntries cache).1.
Proof.
  intros Hok. destruct (evictCacheEntries_delete cache) as [->|[k ->]]; simpl.
  - done.
  - by apply cache_ok_delete.
Qed.

(** Storing a successful result keeps the cache free of failures. *)
Lemma cache_ok_store cfg now k r cache :
  success r = true -> cache_ok cache ->
  cache_ok (storeInCache cfg now k r cache).1.
Proof.
  intros Hr Hok. unfold AIEngine.storeInCache.
  destruct (cache_max_size cfg <=? N.of_nat (size cache))%N.
  - pose proof (cache_ok_evict cache Hok) as Hev.
    destruct (evictCacheEntries cache) as [c1 ev]. simpl in *.
    by apply map_Forall_insert_2.
  - simpl. by apply map_Forall_insert_2.
Qed.

Lemma cache_ok_getFromCache now k cache :
  cache_ok cache -> cache_ok (getFromCache now k cache).2.
Proof.
  intros Hok. unfold getFromCache.
  destruct (cache !! k) as [e|] eqn:Hk; [|done].
  destruct (negb (isExpired now e)); simpl.
  - apply map_Forall_insert_2; [|done]. simpl. by apply (Hok k e).
  - by apply cache_ok_delete.
Qed.

(** A hit hands out the stored result, marked as served from the cache. *)
Lemma getFromCache_hit now k cache e :
  cache !! k = Some e -> now - timestamp e <= CACHE_TTL ->
  (getFromCache now k cache).1 = Some (set_from_cache true (result e)).
Proof.
  intros Hk Hfresh. unfold getFromCache, isExpired. rewrite Hk.
  destruct (CACHE_TTL <? now - timestamp e) eqn:Hexp; [|done].
  apply Z.ltb_lt in Hexp. lia.
Qed.

Lemma getFromCache_Some now k cache r :
  (getFromCache now k cache).1 = Some r ->
  exists e, cache !! k = Some e /\ r = set_from_cache true (result e) /\
    (getFromCache now k cache).2 !! k =
      Some (mkEntry (key e) r (timestamp e) (size_t_wrap (access_count e + 1))).
Proof.
  unfold getFromCache. destruct (cache !! k) as [e|] eqn:Hk; [|done].
  destruct (negb (isExpired now e)); simpl; [|done].
  intros [= <-]. exists e. split; [done|]. split; [done|].
  apply lookup_insert_eq.
Qed.

(** *** [analyzeCode] and the cache *)

(** The engine's configuration is not changed by a request. *)
Lemma analyzeCode_config env code language file_path st :
  config_ (analyzeCode env code language file_path st).1.2 = config_ st.
Proof.
  unfold AIEngine.analyzeCode.
  destruct (empty code); [done|]. destruct (empty language); [done|].
  destruct (enable_caching (config_ st)).
  - destruct (getFromCache _ _ _) as [[r|] cache']; [done|].
    destruct (executeWithRetry _ _) as [r0 sleeps]. simpl.
    destruct (success r0); done.
  - destruct (executeWithRetry _ _) as [r0 sleeps]. simpl.
    destruct (success r0 && false); done.
Qed.

Lemma analyzeCode_cache_ok env code language file_path st :
  cache_ok (analysis_cache_ st) ->
  cache_ok (analysis_cache_ (analyzeCode env code language file_path st).1.2).
Proof.
  intros Hok. unfold AIEngine.analyzeCode.
  destruct (empty code); [done|]. destruct (empty language); [done|].
  destruct (enable_caching (config_ st)).
  - pose proof (cache_ok_getFromCache (now_lookup env)
      (generateCacheKey SHA256_hex (config_ st) (sanitizeInput code)
         (sanitizeInput language) (sanitizeInput file_path))
      (analysis_cache_ st) Hok) as Hget.
    destruct (getFromCache _ _ _) as [[r|] cache']; [done|].
    destruct (executeWithRetry _ _) as [r0 sleeps]. simpl in *.
    destruct (success r0) eqn:Hr0; simpl; [|done].
    by apply cache_ok_store.
  - destruct (executeWithRetry _ _) as [r0 sleeps]. simpl.
    by rewrite andb_false_r.
Qed.

(** *** Requests that reach the service *)

(** Without caching a request is the retried service call: its result
    (with the processing time filled in) and its backoff sleeps are those
    of [executeWithRetry] with the configured number of retries. *)
Lemma analyzeCode_uncached env code language file_path st :
  empty code = false -> empty language = false ->
  enable_caching (config_ st) = false ->
  let run := executeWithRetry (python_service env) (max_retries (config_ st)) in
  let '(r, st', sleeps) := analyzeCode env code language file_path st in
  r = set_processing_time (elapsed_total env) run.1 /\
  sleeps = run.2 /\
  analysis_cache_ st' = analysis_cache_ st.
Proof.
  intros Hcode Hlang Hcaching. unfold AIEngine.analyzeCode.
  rewrite Hcode, Hlang, Hcaching.
  destruct (executeWithRetry _ _) as [r0 sleeps]. simpl.
  rewrite andb_false_r. done.
Qed.

(** *** Repeated requests *)

(** C1, as amended.  With caching enabled, when a request with non-empty
    code and language has returned a successful result, repeating the same
    request while the entry under its key is within the TTL returns a
    result marked [from_cache], with the same analysis text and the same
    recommendations. *)
Theorem repeated_request_served_from_cache
    (env1 env2 : Env) (code language file_path : string) (st : Engine)
    (r1 r2 : AIAnalysisResult) (st1 st2 : Engine) (sleeps1 sleeps2 : list Z) :
  empty code = false ->
  empty language = false ->
  enable_caching (config_ st) = true ->
  analyzeCode env1 code language file_path st = (r1, st1, sleeps1) ->
  success r1 = true ->
  (forall e,
     analysis_cache_ st1 !!
       generateCacheKey SHA256_hex (config_ st) (sanitizeInput code)
         (sanitizeInput language) (sanitizeInput file_path) = Some e ->
     now_lookup env2 - timestamp e <= CACHE_TTL) ->
  analyzeCode env2 code language file_path st1 = (r2, st2, sleeps2) ->
  from_cache r2 = true /\
  analysis r2 = analysis r1 /\
  recommendations r2 = recommendations r1.
Proof.
  intros Hcode Hlang Hcaching Hfirst Hsuccess Hfresh Hsecond.
  pose proof (analyzeCode_config env1 code language file_path st) as Hcfg.
  rewrite Hfirst in Hcfg. simpl in Hcfg.
  set (k := generateCacheKey SHA256_hex (config_ st) (sanitizeInput code)
              (sanitizeInput language) (sanitizeInput file_path)) in *.
  (* the entry under the key after the first call holds the first result *)
  assert (Hentry : exists e, analysis_cache_ st1 !! k = Some e /\
            analysis (result e) = analysis r1 /\
            recommendations (result e) = recommendations r1).
  { unfold AIEngine.analyzeCode in Hfirst.
    rewrite Hcode, Hlang, Hcaching in Hfirst. fold k in Hfirst.
    destruct (getFromCache (now_lookup env1) k (analysis_cache_ st))
      as [[r|] cache'] eqn:Hget.
    - injection Hfirst as <- <- _.
      pose proof (getFromCache_Some (now_lookup env1) k (analysis_cache_ st) r) as Hs.
      rewrite Hget in Hs. destruct (Hs eq_refl) as (e & _ & _ & Hk).
      simpl in *. eexists. split; [exact Hk|]. done.
    - destruct (executeWithRetry (python_service env1) (max_retries (config_ st)))
        as [r0 sleeps].
      injection Hfirst as <- <- _. simpl in Hsuccess. rewrite Hsuccess. simpl.
      eexists. split; [apply storeInCache_lookup|]. done. }
  destruct Hentry as (e & Hk & Han & Hrec).
  unfold AIEngine.analyzeCode in Hsecond.
  rewrite Hcode, Hlang, Hcfg, Hcaching in Hsecond. fold k in Hsecond.
  pose proof (getFromCache_hit (now_lookup env2) k _ e Hk (Hfresh e Hk)) as Hhit.
  destruct (getFromCache (now_lookup env2) k (analysis_cache_ st1))
    as [cached cache'']. simpl in Hhit. subst cached.
  injection Hsecond as <- _ _. simpl. done.
Qed.

(** *** The cache holds successes only *)

Lemma run_operation_cache_ok st op :
  cache_ok (analysis_cache_ st) ->
  cache_ok (analysis_cache_ (run_operation st op)).
Proof.
  intros Hok. destruct op; simpl.
  - by apply analyzeCode_cache_ok.
  - unfold getRecommendations.
    pose proof (analyzeCode_cache_ok env code language "" st Hok) as H.
    by destruct (analyzeCode env code language "" st) as [[r st'] sl].
  - unfold warmup.
    pose proof (analyzeCode_cache_ok env "int main() { return 0; }" "cpp" "" st Hok) as H.
    by destruct (analyzeCode env "int main() { return 0; }" "cpp" "" st) as [[r st'] sl].
  - unfold updateConfiguration. by destruct (negb (validate cfg)).
  - apply map_Forall_empty.
  - by apply cache_ok_getFromCache.
  - by apply cache_ok_evict.
Qed.

Lemma run_operations_cache_ok ops : forall st,
  cache_ok (analysis_cache_ st) ->
  cache_ok (analysis_cache_ (run_operations ops st)).
Proof.
  unfold AIEngine.run_operations.
  induction ops as [|op ops IH]; intros st Hok; simpl; [done|].
  by apply IH, run_operation_cache_ok.
Qed.

(** C4.  Whatever operations are run on an engine, in whatever order and
    with whatever the service and the clocks answer, every entry of its
    cache holds a result with [success = true]. *)
Theorem cache_never_holds_failure (cfg : AIEngineConfig) (ops : list operation) :
  forall k e,
    analysis_cache_ (run_operations ops (new_engine cfg)) !! k = Some e ->
    success (result e) = true.
Proof.
  intros k e Hk.
  apply (run_operations_cache_ok ops (new_engine cfg)) with (i := k); [|done].
  apply map_Forall_empty.
Qed.

(** *** Eviction on a full cache *)

Lemma store_all_app cfg l1 l2 cache :
  store_all cfg (l1 ++ l2) cache =
  let '(c1, e1) := store_all cfg l1 cache in
  let '(c2, e2) := store_all cfg l2 c1 in
  (c2, e1 ++ e2).
Proof.
  revert cache. induction l1 as [|[[k r] t] l1 IH]; intros cache; simpl.
  - by destruct (store_all cfg l2 cache).
  - destruct (storeInCache cfg t k r cache) as [c1 ev].
    rewrite IH. destruct (store_all cfg l1 c1) as [c2 e1].
    destruct (store_all cfg l2 c2) as [c3 e2]. by rewrite app_assoc.
Qed.

Lemma elem_of_request_keys (requests : list (string * AIAnalysisResult * Z)) k :
  k ∈ requests.*1.*1 <-> exists r t, (k, r, t) ∈ requests.
Proof.
  split.
  - intros Hel. apply list_elem_of_fmap in Hel as ([k' r] & Hk & Hel).
    apply list_elem_of_fmap in Hel as ([[k'' r'] t] & Hkr & Hel).
    simpl in *. injection Hkr as -> ->. subst k. eauto.
  - intros (r & t & Hel).
    apply list_elem_of_fmap. exists (k, r). split; [done|].
    apply list_elem_of_fmap. exists (k, r, t). done.
Qed.

(** Below capacity nothing is evicted: every request is resident, with
    its own timestamp. *)
Lemma store_all_no_eviction cfg requests : forall cache,
  NoDup requests.*1.*1 ->
  (forall k, k ∈ requests.*1.*1 -> cache !! k = None) ->
  (N.of_nat (size cache + length requests) <= cache_max_size cfg)%N ->
  exists filled,
    store_all cfg requests cache = (filled, []) /\
    size filled = (size cache + length requests)%nat /\
    (forall k r t, (k, r, t) ∈ requests -> filled !! k = Some (mkEntry k r t 1)) /\
    (forall k, k ∉ requests.*1.*1 -> filled !! k = cache !! k).
Proof.
  induction requests as [|[[k r] t] requests IH]; intros cache Hnd Hfresh Hcap.
  - exists cache. simpl. split; [done|]. split; [lia|]. split; [|done].
    intros k r t Hin. by apply elem_of_nil in Hin.
  - simpl in *. apply NoDup_cons in Hnd as [Hk Hnd].
    unfold AIEngine.storeInCache.
    destruct (cache_max_size cfg <=? N.of_nat (size cache))%N eqn:Hfull.
    { apply N.leb_le in Hfull. lia. }
    assert (Hnone : cache !! k = None) by (apply Hfresh, list_elem_of_here).
    destruct (IH (<[k := mkEntry k r t 1]> cache)) as (filled & Hrun & Hsize & Hin & Hout).
    + done.
    + intros k' Hk'. rewrite lookup_insert_ne; [|by intros ->].
      by apply Hfresh, list_elem_of_further.
    + rewrite map_size_insert_None by done. lia.
    + exists filled. rewrite Hrun. simpl. split; [done|]. split.
      { rewrite Hsize, map_size_insert_None by done. lia. }
      split.
      * intros k' r' t' Hel. apply elem_of_cons in Hel as [[= -> -> ->]|Hel].
        -- rewrite Hout by done. apply lookup_insert_eq.
        -- by apply Hin.
      * intros k' Hk'. apply not_elem_of_cons in Hk' as [Hne Hk'].
        rewrite Hout by done. by apply lookup_insert_ne.
Qed.

(** On a full, non-empty cache a store evicts an entry with the smallest
    timestamp, then inserts. *)
Lemma storeInCache_evicts_oldest cfg now k r cache :
  iteration_order cache ≡ₚ map_to_list cache ->
  cache <> ∅ ->
  (cache_max_size cfg <= N.of_nat (size cache))%N ->
  exists victim e,
    storeInCache cfg now k r cache =
      (<[k := mkEntry k r now 1]> (delete victim cache), Some victim) /\
    cache !! victim = Some e /\
    forall k' e', cache !! k' = Some e' -> timestamp e <= timestamp e'.
Proof.
  intros Hperm Hne Hfull. unfold AIEngine.storeInCache.
  apply N.leb_le in Hfull. rewrite Hfull.
  destruct (evictCacheEntries_oldest cache Hperm Hne) as (victim & e & -> & Hv & Hmin).
  by exists victim, e.
Qed.

Lemma oldest_of_first requests victim k0 r0 t0 rest :
  NoDup requests.*1.*1 ->
  oldest_of requests victim ->
  requests = (k0, r0, t0) :: rest ->
  (forall k r t, (k, r, t) ∈ rest -> t0 < t) ->
  victim = k0.
Proof.
  intros Hnd (r & t & Hin & Hmin) -> Hstrict.
  apply elem_of_cons in Hin as [[= -> -> ->]|Hin]; [done|].
  specialize (Hstrict _ _ _ Hin).
  specialize (Hmin k0 r0 t0 ltac:(apply list_elem_of_here)). lia.
Qed.

(** C3, as amended.  With a capacity [cache_max_size >= 1], storing
    [cache_max_size + 1] results under distinct keys into an empty cache
    logs exactly one eviction, on the last store, and the evicted key is
    that of a request with the smallest timestamp (the first request, when
    it is strictly the oldest).  Whatever results and access counters the
    resident entries carry by then, the entry evicted is one with the
    smallest timestamp: the choice looks at timestamps only. *)
Theorem eviction_removes_oldest (cfg : AIEngineConfig)
    (first : list (string * AIAnalysisResult * Z))
    (k_new : string) (r_new : AIAnalysisResult) (t_new : Z) :
  (forall cache, iteration_order cache ≡ₚ map_to_list cache) ->
  (1 <= length first)%nat ->
  cache_max_size cfg = N.of_nat (length first) ->
  NoDup (first ++ [(k_new, r_new, t_new)]).*1.*1 ->
  exists filled victim final,
    store_all cfg first ∅ = (filled, []) /\
    store_all cfg (first ++ [(k_new, r_new, t_new)]) ∅ = (final, [victim]) /\
    oldest_of first victim /\
    dom final = list_to_set first.*1.*1 ∖ {[victim]} ∪ {[k_new]} /\
    size final = length first /\
    (forall k0 r0 t0 rest, first = (k0, r0, t0) :: rest ->
       (forall k r t, (k, r, t) ∈ rest -> t0 < t) -> victim = k0) /\
    (forall resident, same_timestamps resident filled ->
       exists victim',
         (storeInCache cfg t_new k_new r_new resident).2 = Some victim' /\
         oldest_of first victim').
Proof.
  intros Hperm Hlen Hcap Hnd.
  rewrite !fmap_app in Hnd. simpl in Hnd.
  apply NoDup_app in Hnd as (Hnd & Hnew & _).
  destruct (store_all_no_eviction cfg first ∅) as (filled & Hrun & Hsize & Hin & Hout).
  { done. }
  { intros k _. apply lookup_empty. }
  { rewrite map_size_empty, Hcap. simpl. lia. }
  rewrite map_size_empty in Hsize. simpl in Hsize.
  (* every resident entry comes from a request *)
  assert (Hfrom : forall c, same_timestamps c filled ->
            forall k e, c !! k = Some e -> exists r, (k, r, timestamp e) ∈ first).
  { intros c Hsame k e Hk.
    destruct (decide (k ∈ first.*1.*1)) as [Hel|Hnel].
    - apply elem_of_request_keys in Hel as (r & t & Hel).
      exists r. specialize (Hsame k). rewrite Hk, (Hin _ _ _ Hel) in Hsame.
      simpl in Hsame. by injection Hsame as ->.
    - specialize (Hsame k). rewrite Hk, (Hout _ Hnel), lookup_empty in Hsame. done. }
  assert (Hto : forall c, same_timestamps c filled ->
            forall k r t, (k, r, t) ∈ first -> exists e, c !! k = Some e /\ timestamp e = t).
  { intros c Hsame k r t Hel. specialize (Hsame k). rewrite (Hin _ _ _ Hel) in Hsame.
    destruct (c !! k) as [e|]; [|done]. simpl in Hsame. injection Hsame as Ht. eauto. }
  (* the final store, on any cache with the timestamps of [filled] *)
  assert (Hlast : forall c, same_timestamps c filled ->
            exists victim e,
              storeInCache cfg t_new k_new r_new c =
                (<[k_new := mkEntry k_new r_new t_new 1]> (delete victim c), Some victim) /\
              c !! victim = Some e /\ oldest_of first victim).
  { intros c Hsame.
    assert (Hdom : dom c = dom filled).
    { apply set_eq. intros k. rewrite !elem_of_dom. specialize (Hsame k).
      destruct (c !! k), (filled !! k); simpl in *; done. }
    assert (Hsz : size c = length first).
    { rewrite <- Hsize. rewrite <- !size_dom. by rewrite Hdom. }
    destruct (storeInCache_evicts_oldest cfg t_new k_new r_new c)
      as (victim & e & Hst & Hv & Hmin).
    - apply Hperm.
    - intros ->. rewrite map_size_empty in Hsz. lia.
    - rewrite Hsz, Hcap. lia.
    - exists victim, e. split; [done|]. split; [done|].
      destruct (Hfrom c Hsame victim e Hv) as [r Hr].
      exists r, (timestamp e). split; [done|].
      intros k' r' t' Hel. destruct (Hto c Hsame k' r' t' Hel) as (e' & He' & <-).
      by apply (Hmin k'). }
  destruct (Hlast filled ltac:(done)) as (victim & e & Hst & Hv & Hold).
  exists filled, victim, (<[k_new := mkEntry k_new r_new t_new 1]> (delete victim filled)).
  split; [done|]. split.
  { rewrite store_all_app, Hrun. simpl. by rewrite Hst. }
  split; [done|].
  assert (Hdomf : dom filled = list_to_set first.*1.*1).
  { apply set_eq. intros k. rewrite elem_of_dom, elem_of_list_to_set. split.
    - intros [e' He']. destruct (decide (k ∈ first.*1.*1)); [done|].
      rewrite Hout, lookup_empty in He' by done. done.
    - intros Hel. apply elem_of_request_keys in Hel as (r & t & Hel).
      rewrite (Hin _ _ _ Hel). eauto. }
  split.
  { rewrite dom_insert_L, dom_delete_L, Hdomf. apply union_comm_L. }
  split.
  { assert (Hknew : filled !! k_new = None).
    { rewrite Hout, lookup_empty; [done|]. intros Hel. apply (Hnew k_new Hel).
      apply list_elem_of_here. }
    rewrite map_size_insert_None.
    - rewrite map_size_delete, Hv, Hsize. lia.
    - rewrite lookup_delete_ne; [done|]. intros ->. congruence. }
  split.
  { intros k0 r0 t0 rest Hfirst Hstrict.
    by apply (oldest_of_first first victim k0 r0 t0 rest). }
  intros resident Hsame.
  destruct (Hlast resident Hsame) as (victim' & e' & Hst' & _ & Hold').
  exists victim'. rewrite Hst'. done.
Qed.

End Cache.


(** *** Worked examples *)

Import Scenarios.

(** A request answered by the service, then repeated one minute later: the
    second result is served from the cache. *)
Lemma repeated_request_example :
  let st0 := new_engine default_config in
  let run1 := analyzeCode ideal_digest bucket_order (env_at 0 service_up)
                "strcpy(a, b);" "cpp" "a.cpp" st0 in
  let run2 := analyzeCode ideal_digest bucket_order (env_at (60 * 10 ^ 9) service_down)
                "strcpy(a, b);" "cpp" "a.cpp" run1.1.2 in
  success run1.1.1 = true /\
  from_cache run1.1.1 = false /\
  from_cache run2.1.1 = true /\
  analysis run2.1.1 = analysis run1.1.1 /\
  recommendations run2.1.1 = recommendations run1.1.1.
Proof.
  intros st0 run1 run2.
  split; [vm_compute; reflexivity|]. split; [vm_compute; reflexivity|].
  apply (repeated_request_served_from_cache ideal_digest bucket_order
           (env_at 0 service_up) (env_at (60 * 10 ^ 9) service_down)
           "strcpy(a, b);" "cpp" "a.cpp" st0
           run1.1.1 run2.1.1 run1.1.2 run2.1.2 run1.2 run2.2).
  - reflexivity.
  - reflexivity.
  - reflexivity.
  - vm_compute. reflexivity.
  - vm_compute. reflexivity.
  - intros e He. vm_compute in He. injection He as <-. vm_compute. discriminate.
  - vm_compute. reflexivity.
Defined.

(** C1 as stated fails when the first call did not succeed: nothing is
    cached, and the repeated call goes to the service again. *)
Lemma repeated_request_after_failure_not_cached :
  let st0 := new_engine default_config in
  let run1 := analyzeCode ideal_digest bucket_order (env_at 0 service_down)
                "strcpy(a, b);" "cpp" "a.cpp" st0 in
  let run2 := analyzeCode ideal_digest bucket_order (env_at (60 * 10 ^ 9) service_down)
                "strcpy(a, b);" "cpp" "a.cpp" run1.1.2 in
  empty "strcpy(a, b);" = false /\
  empty "cpp" = false /\
  enable_caching (config_ st0) = true /\
  success run1.1.1 = false /\
  analysis_cache_ run1.1.2 = ∅ /\
  from_cache run2.1.1 = false.
Proof. vm_compute. repeat split; reflexivity. Qed.

(** An engine that served one successful and one failed request: the
    cache holds the successful result only. *)
Lemma cache_after_mixed_requests :
  let ops := [OpAnalyzeCode (env_at 0 service_up) "strcpy(a, b);" "cpp" "a.cpp";
              OpAnalyzeCode (env_at 5 service_down) "gets(line);" "cpp" "b.cpp";
              OpWarmup (env_at 9 service_down)] in
  let st := run_operations ideal_digest bucket_order ops (new_engine default_config) in
  size (analysis_cache_ st) = 1%nat /\
  exists e, analysis_cache_ st !! "strcpy(a, b);|cpp|a.cpp|advanced"%string = Some e /\
            success (result e) = true.
Proof.
  intros ops st. split; [vm_compute; reflexivity|].
  eexists. split; [vm_compute; reflexivity|].
  apply (cache_never_holds_failure ideal_digest bucket_order default_config ops
           "strcpy(a, b);|cpp|a.cpp|advanced"%string).
  vm_compute. reflexivity.
Defined.

(** Capacity 2, three stores one second apart: the first one is evicted. *)
Lemma eviction_example :
  let first := [("a"%string, answer, 1 * 10 ^ 9); ("b"%string, answer, 2 * 10 ^ 9)] in
  (1 <= length first)%nat /\
  cache_max_size (with_capacity 2) = N.of_nat (length first) /\
  (store_all bucket_order (with_capacity 2)
     (first ++ [("c"%string, answer, 3 * 10 ^ 9)]) ∅).2 = ["a"%string].
Proof.
  intros first. split; [simpl; lia|]. split; [reflexivity|].
  destruct (eviction_removes_oldest bucket_order (with_capacity 2) first
              "c"%string answer (3 * 10 ^ 9))
    as (filled & victim & final & _ & Hrun & _ & _ & _ & Hfirst & _).
  - intros cache. reflexivity.
  - simpl. lia.
  - reflexivity.
  - apply (bool_decide_unpack _). vm_compute. reflexivity.
  - rewrite Hrun. simpl. f_equal.
    apply (Hfirst "a"%string answer (1 * 10 ^ 9) [("b"%string, answer, 2 * 10 ^ 9)]).
    + reflexivity.
    + intros k r t Hin. apply list_elem_of_singleton in Hin.
      injection Hin as -> -> ->. lia.
Defined.

(** C3 as stated fails for a capacity of zero: the one store into the
    empty cache evicts nothing, and the entry stays. *)
Lemma no_eviction_at_capacity_zero :
  let run := store_all bucket_order (with_capacity 0) [("a"%string, answer, 1 * 10 ^ 9)] ∅ in
  validate (with_capacity 0) = true /\
  run.2 = [] /\
  size run.1 = 1%nat.
Proof. vm_compute. repeat split; reflexivity. Qed.

End CacheSpec.

(** ** Line order of the findings *)

Module LineOrderSpec.

Import Analyzers Analyzers.CppAnalyzer.

Lemma findings_for_line patterns line make f :
  f ∈ findings_for patterns line make -> f = make.
Proof.
  unfold findings_for. induction patterns as [|p patterns IH]; simpl.
  - intros H. by apply elem_of_nil in H.
  - intros H. apply elem_of_app in H as [H|H]; [|by apply IH].
    destruct (regex_search line p); [|by apply elem_of_nil in H].
    by apply list_elem_of_singleton in H.
Qed.

(** Every finding of [checkLine] carries the line number it was given. *)
Lemma checkLine_line_number line n file_name f :
  f ∈ checkLine line n file_name -> line_number f = n.
Proof.
  unfold checkLine. intros H.
  apply elem_of_app in H as [H|H]; [|apply elem_of_app in H as [H|H]].
  - repeat match type of H with
           | _ ∈ (if ?b then _ else _) => destruct b
           end;
      first [ by apply elem_of_nil in H
            | by apply list_elem_of_singleton in H as -> ].
  - by apply findings_for_line in H as ->.
  - by apply findings_for_line in H as ->.
Qed.

Lemma all_equal_sorted (l : list Z) n :
  Forall (fun x => x = n) l -> StronglySorted Z.le l.
Proof.
  induction 1 as [|x l -> Hl IH]; constructor; [done|].
  eapply Forall_impl; [exact Hl|]. simpl. intros y ->. lia.
Qed.

(** A line loop whose checks stamp their findings with the current line
    number emits them in line order, as long as the counter stays an
    [int]. *)
Lemma for_each_line_order (check : string -> Z -> list AnalysisResult) :
  (forall line n f, f ∈ check line n -> line_number f = n) ->
  forall lines n,
    0 <= n -> n + Z.of_nat (length lines) <= INT_MAX ->
    Forall (fun f => n < line_number f) (for_each_line check n lines) /\
    in_line_order (for_each_line check n lines).
Proof.
  intros Hcheck. unfold in_line_order.
  induction lines as [|line lines IH]; intros n Hn Hmax; simpl.
  - split; constructor.
  - simpl length in Hmax. rewrite Nat2Z.inj_succ in Hmax.
    rewrite int_wrap_small by (unfold INT_MAX in *; lia).
    destruct (IH (n + 1)) as [Hgt Hsorted]; [lia|lia|].
    assert (Hhere : Forall (fun f => line_number f = n + 1) (check line (n + 1))).
    { apply Forall_forall. intros f Hf. by apply Hcheck in Hf. }
    split.
    + apply Forall_app. split.
      * eapply Forall_impl; [exact Hhere|]. simpl. intros f ->. lia.
      * eapply Forall_impl; [exact Hgt|]. simpl. intros f Hf. lia.
    + rewrite fmap_app. apply StronglySorted_app. split; [|split].
      * intros x1 x2 Hx1 Hx2.
        apply list_elem_of_fmap in Hx1 as (f1 & -> & Hf1).
        apply list_elem_of_fmap in Hx2 as (f2 & -> & Hf2).
        rewrite Forall_forall in Hhere, Hgt.
        rewrite (Hhere f1 Hf1). specialize (Hgt f2 Hf2). simpl in Hgt. lia.
      * apply (all_equal_sorted _ (n + 1)). by apply Forall_fmap.
      * done.
Qed.

Lemma checkAdvancedPatterns_line_number code file_name :
  Forall (fun f => line_number f = 0) (checkAdvancedPatterns code file_name).
Proof.
  unfold checkAdvancedPatterns, checkIncludeGuard, checkModernCpp.
  repeat match goal with
         | |- context [if ?b then _ else _] => destruct b
         end;
    simpl; repeat constructor.
Qed.

(** C9, as amended.  For a file of at most [INT_MAX] lines,
    [CppAnalyzer::analyzeCode] returns three blocks one after the other:
    the findings of the per-line checks, in line order; the file-level
    findings, which carry line number 0; and the findings of the security
    scan, again in line order and numbered from 1. *)
Theorem cpp_findings_in_line_order_per_pass (code file_name : string) :
  Z.of_nat (length (getlines code)) <= INT_MAX ->
  exists per_line file_level security,
    analyzeCode code file_name = per_line ++ file_level ++ security /\
    per_line = for_each_line (fun line n => checkLine line n file_name) 0 (getlines code) /\
    file_level = checkAdvancedPatterns code file_name /\
    security = checkSecurityPatterns code file_name /\
    in_line_order per_line /\
    Forall (fun f => line_number f = 0) file_level /\
    in_line_order security /\
    Forall (fun f => 1 <= line_number f) (per_line ++ security).
Proof.
  intros Hlines.
  destruct (for_each_line_order (fun line n => checkLine line n file_name))
    with (lines := getlines code) (n := 0) as [Hgt1 Hs1].
  { intros line n f. apply checkLine_line_number. }
  { lia. } { lia. }
  destruct (for_each_line_order
              (fun line n =>
                 findings_for security_patterns_ line
                   (mkFinding file_name "SECURITY_VULNERABILITY"
                      "Potential security vulnerability detected" "CRITICAL" n)))
    with (lines := getlines code) (n := 0) as [Hgt2 Hs2].
  { intros line n f Hf. by apply findings_for_line in Hf as ->. }
  { lia. } { lia. }
  eexists _, _, _. split; [reflexivity|].
  split; [reflexivity|]. split; [reflexivity|]. split; [reflexivity|].
  split; [done|]. split; [apply checkAdvancedPatterns_line_number|].
  split; [done|].
  apply Forall_app. split.
  - eapply Forall_impl; [exact Hgt1|]. simpl. intros f Hf. lia.
  - eapply Forall_impl; [exact Hgt2|]. simpl. intros f Hf. lia.
Qed.

(** The two-line file: each pass is in line order. *)
Lemma two_line_file_passes_in_order :
  Z.of_nat (length (getlines Scenarios.two_line_file)) <= INT_MAX /\
  in_line_order (for_each_line (fun line n => checkLine line n "t.cpp") 0
                   (getlines Scenarios.two_line_file)) /\
  in_line_order (checkSecurityPatterns Scenarios.two_line_file "t.cpp").
Proof.
  assert (Hlen : Z.of_nat (length (getlines Scenarios.two_line_file)) <= INT_MAX)
    by (vm_compute; discriminate).
  split; [exact Hlen|].
  destruct (cpp_findings_in_line_order_per_pass Scenarios.two_line_file "t.cpp" Hlen)
    as (per_line & file_level & security & _ & -> & _ & -> & H1 & _ & H2 & _).
  split; [exact H1 | exact H2].
Defined.

(** C9 as stated fails: the security scan runs after the per-line checks
    and starts again at line 1.  On the two-line file the line numbers of
    the findings are 1, 2, 1. *)
Lemma cpp_findings_not_in_line_order :
  line_number <$> analyzeCode Scenarios.two_line_file "t.cpp" = [1; 2; 1] /\
  rule_id <$> analyzeCode Scenarios.two_line_file "t.cpp" =
    ["MISSING_SEMICOLON"; "MISSING_SEMICOLON"; "SECURITY_VULNERABILITY"]%string /\
  ~ in_line_order (analyzeCode Scenarios.two_line_file "t.cpp").
Proof.
  assert (Hlines : line_number <$> analyzeCode Scenarios.two_line_file "t.cpp" = [1; 2; 1])
    by (vm_compute; reflexivity).
  split; [exact Hlines|]. split; [vm_compute; reflexivity|].
  unfold in_line_order. rewrite Hlines. intros Hsorted.
  apply StronglySorted_cons in Hsorted as [_ Hsorted].
  apply StronglySorted_cons in Hsorted as [Hle _].
  apply Forall_cons in Hle as [Hle _]. lia.
Qed.

End LineOrderSpec.

(** ** Directory scans *)

Module ScanSpec.

Import Analyzers AnalysisManager.

#[local] Arguments AnalysisManager.analyzeFile : simpl never.

Section Scan.

Variable fs : filesystem.
Variable analyzers_ : list (string * BaseAnalyzer).
Variable ai_available : bool.
Variable enhanceAnalysis :
  list AnalysisResult -> string -> string -> outcome (list AnalysisResult).

Abbreviation analyzeFile := (analyzeFile fs analyzers_ ai_available enhanceAnalysis).
Abbreviation scan := (scan fs analyzers_ ai_available enhanceAnalysis).
Abbreviation analyzeDirectory :=
  (analyzeDirectory fs analyzers_ ai_available enhanceAnalysis).
Abbreviation consistent := (consistent fs analyzers_ ai_available enhanceAnalysis).
Abbreviation no_fatal_error :=
  (no_fatal_error fs analyzers_ ai_available enhanceAnalysis).
Abbreviation analysis_returns :=
  (analysis_returns fs analyzers_ ai_available enhanceAnalysis).

(** *** Single files *)

Lemma executeWithRecovery_throws {A} (body : outcome A) e :
  executeWithRecovery body = Throw e -> is_AnalyzerException e = true.
Proof.
  destruct body as [a|e0]; simpl; [done|].
  destruct (is_AnalyzerException e0) eqn:He0.
  - by intros [= <-].
  - destruct e0; simpl in *; try done; by intros [= <-].
Qed.

Lemma analyzeFile_throws c file e :
  analyzeFile c file = Throw e -> is_AnalyzerException e = true.
Proof.
  unfold AnalysisManager.analyzeFile. destruct c.
  - intros [= <-]. done.
  - apply executeWithRecovery_throws.
Qed.

(** A file is analysed only when the flag was read clear. *)
Lemma analyzeFile_cancelled file :
  exists e, analyzeFile true file = Throw e /\ is_recoverable e = true.
Proof. eexists. split; [reflexivity|done]. Qed.

Lemma analyzeFile_returns c file f :
  analyzeFile c file = Return f -> analyzeFile false file = Return f.
Proof. destruct c; [done|done]. Qed.

Lemma recorded_Some o f : recorded o = Some f <-> o = Return f /\ f <> [].
Proof.
  destruct o as [[|x l]|e]; simpl; split; try done.
  - by intros [[= <-] ?].
  - by intros [= <-].
  - by intros [[= <-] _].
  - by intros [? _].
Qed.

Lemma recorded_Return f :
  recorded (Return f) = if decide (f = []) then None else Some f.
Proof. by destruct f. Qed.

(** *** The serial loop *)

(** The map the loop would leave if [file]'s analysis ended in [o]. *)
Lemma consistent_insert m file f :
  consistent m -> analyzeFile false file = Return f -> f <> [] ->
  consistent (<[file := f]> m).
Proof.
  intros Hm Hf Hne p g. destruct (decide (file = p)) as [<-|Hp].
  - rewrite lookup_insert_eq. intros [= <-]. by apply recorded_Some.
  - rewrite lookup_insert_ne by done. apply Hm.
Qed.

Lemma consistent_insert_subseteq m file f :
  consistent m -> analyzeFile false file = Return f -> f <> [] ->
  m ⊆ <[file := f]> m.
Proof.
  intros Hm Hf Hne. destruct (m !! file) as [g|] eqn:Hg.
  - pose proof (Hm _ _ Hg) as Hrec. apply recorded_Some in Hrec as [Hrec _].
    rewrite Hf in Hrec. injection Hrec as <-.
    by rewrite insert_id.
  - by apply insert_subseteq.
Qed.

Lemma regular_files_cons e es :
  regular_files (e :: es) =
  if is_regular_file e then path e :: regular_files es else regular_files es.
Proof.
  unfold regular_files. rewrite filter_cons.
  destruct (is_regular_file e); simpl; [|done].
  destruct (decide (true = true)); done.
Qed.

Lemma scan_cons flag dir_end reads e es m0 :
  scan flag dir_end reads (e :: es) m0 =
  if flag reads
  then (m0, Throw (mkAnalysisException "Analysis cancelled" "Directory"))
  else if is_regular_file e then
    match analyzeFile (flag (S reads)) (path e) with
    | Return file_results =>
      scan flag dir_end (S (S reads)) es
        (if decide (file_results = []) then m0
         else <[path e := file_results]> m0)
    | Throw exn =>
      if is_recoverable exn
      then scan flag dir_end (S (S reads)) es m0
      else (m0, Throw exn)
    end
  else scan flag dir_end (S reads) es m0.
Proof. reflexivity. Qed.

Lemma scan_never_cons dir_end reads e es m0 :
  scan never_cancelled dir_end reads (e :: es) m0 =
  if is_regular_file e then
    match analyzeFile false (path e) with
    | Return file_results =>
      scan never_cancelled dir_end (S (S reads)) es
        (if decide (file_results = []) then m0
         else <[path e := file_results]> m0)
    | Throw exn =>
      if is_recoverable exn
      then scan never_cancelled dir_end (S (S reads)) es m0
      else (m0, Throw exn)
    end
  else scan never_cancelled dir_end (S reads) es m0.
Proof. reflexivity. Qed.

(** The loop only ever enters what the analysis of a file records. *)
Lemma scan_consistent flag es : forall dir_end reads m0,
  consistent m0 -> consistent (scan flag dir_end reads es m0).1.
Proof.
  induction es as [|e es IH]; intros dir_end reads m0 Hm0; simpl; [done|].
  destruct (flag reads); [done|].
  destruct (is_regular_file e); [|by apply IH].
  destruct (analyzeFile (flag (S reads)) (path e)) as [f|exn] eqn:Hf.
  - apply IH. destruct (decide (f = [])); [done|].
    apply consistent_insert; [done| |done]. by eapply analyzeFile_returns.
  - destruct (is_recoverable exn); [by apply IH | done].
Qed.

(** The loop never removes or changes an entry. *)
Lemma scan_mono flag es : forall dir_end reads m0,
  consistent m0 -> m0 ⊆ (scan flag dir_end reads es m0).1.
Proof.
  induction es as [|e es IH]; intros dir_end reads m0 Hm0; simpl; [done|].
  destruct (flag reads); [done|].
  destruct (is_regular_file e); [|by apply IH].
  destruct (analyzeFile (flag (S reads)) (path e)) as [f|exn] eqn:Hf.
  - apply analyzeFile_returns in Hf.
    destruct (decide (f = [])); [by apply IH|].
    etrans; [by apply (consistent_insert_subseteq m0 (path e) f)|].
    apply IH. by apply consistent_insert.
  - destruct (is_recoverable exn); [by apply IH | done].
Qed.

(** Without cancellation the number of reads of the flag is immaterial. *)
Lemma scan_never_reads es : forall dir_end reads reads' m0,
  scan never_cancelled dir_end reads es m0 =
  scan never_cancelled dir_end reads' es m0.
Proof.
  induction es as [|e es IH]; intros dir_end reads reads' m0; [done|].
  rewrite !scan_never_cons.
  destruct (is_regular_file e); [|apply IH].
  destruct (analyzeFile false (path e)) as [f|exn]; [apply IH|].
  destruct (is_recoverable exn); [apply IH | done].
Qed.

(** Without cancellation and without fatal errors the loop runs to the
    end of the directory and records every regular file. *)
Lemma scan_never_lookup es : forall dir_end reads m0,
  Forall no_fatal_error es ->
  consistent m0 ->
  (scan never_cancelled dir_end reads es m0).2 = dir_end /\
  forall p, (scan never_cancelled dir_end reads es m0).1 !! p =
    if decide (p ∈ regular_files es) then recorded (analyzeFile false p)
    else m0 !! p.
Proof.
  induction es as [|e es IH]; intros dir_end reads m0 Hok Hm0.
  - split; [done|]. intros p. destruct (decide (p ∈ regular_files [])) as [Hin|]; [|done].
    by apply elem_of_nil in Hin.
  - apply Forall_cons in Hok as [He Hok].
    rewrite !scan_never_cons.
    rewrite regular_files_cons.
    destruct (is_regular_file e) eqn:Hreg; [|by apply IH].
    destruct (analyzeFile false (path e)) as [f|exn] eqn:Hf.
    + set (m1 := if decide (f = []) then m0 else <[path e := f]> m0).
      assert (Hm1 : consistent m1).
      { unfold m1. destruct (decide (f = [])); [done|]. by apply consistent_insert. }
      destruct (IH dir_end (S (S reads)) m1 Hok Hm1) as [Hend Hlook].
      split; [done|]. intros p. rewrite Hlook.
      destruct (decide (p ∈ regular_files es)) as [Hin|Hnin].
      * rewrite decide_True; [done|]. by apply list_elem_of_further.
      * destruct (decide (p = path e)) as [->|Hne].
        -- rewrite decide_True by apply list_elem_of_here.
           rewrite Hf, recorded_Return. unfold m1.
           destruct (decide (f = [])) as [->|Hfne].
           ++ destruct (m0 !! path e) as [g|] eqn:Hg; [|done].
              apply Hm0 in Hg. by rewrite Hf in Hg.
           ++ apply lookup_insert_eq.
        -- rewrite decide_False.
           ++ unfold m1. destruct (decide (f = [])); [done|].
              by rewrite lookup_insert_ne.
           ++ intros Hin. apply elem_of_cons in Hin as [?|?]; done.
    + rewrite (He Hreg exn Hf).
      destruct (IH dir_end (S (S reads)) m0 Hok Hm0) as [Hend Hlook].
      split; [done|]. intros p. rewrite Hlook.
      destruct (decide (p ∈ regular_files es)) as [Hin|Hnin].
      * rewrite decide_True; [done|]. by apply list_elem_of_further.
      * destruct (decide (p = path e)) as [->|Hne].
        -- rewrite decide_True by apply list_elem_of_here.
           rewrite Hf. simpl.
           destruct (m0 !! path e) as [g|] eqn:Hg; [|done].
           apply Hm0 in Hg. by rewrite Hf in Hg.
        -- rewrite decide_False; [done|].
           intros Hin. apply elem_of_cons in Hin as [?|?]; done.
Qed.

(** *** [analyzeDirectory] *)

(** [analyzeDirectory] returns the map its loop built, however the loop
    was left: no exception leaves it. *)
Lemma analyzeDirectory_returns flag dir :
  analyzeDirectory flag dir =
  Return (scan flag (end_of_iteration dir) 0 (entries dir) ∅).1.
Proof.
  unfold AnalysisManager.analyzeDirectory.
  destruct (scan flag (end_of_iteration dir) 0 (entries dir) ∅) as [m body].
  simpl. destruct (executeWithRecovery body) as [u|e] eqn:Hbody; [done|].
  by rewrite (executeWithRecovery_throws _ _ Hbody).
Qed.

Lemma consistent_empty : consistent ∅.
Proof. intros p f Hp. by rewrite lookup_empty in Hp. Qed.

(** *** Cancellation *)

(** Once the flag is up the loop adds nothing. *)
Lemma scan_already_cancelled c es dir_end reads m0 :
  cancelled_from c reads = true ->
  (scan (cancelled_from c) dir_end reads es m0).1 = m0.
Proof.
  intros Hc. destruct es as [|e es]; [done|].
  rewrite scan_cons, Hc. done.
Qed.

Lemma cancelled_from_mono c reads :
  cancelled_from c reads = true -> cancelled_from c (S reads) = true.
Proof. unfold cancelled_from. rewrite !Nat.leb_le. lia. Qed.

(** A scan that is cancelled leaves the map that an uncancelled scan
    leaves after the entries that precede the cancellation point. *)
Lemma scan_cancelled_at c es : forall dir_end reads m0,
  (scan (cancelled_from c) dir_end reads es m0).1 =
  (scan never_cancelled (Return tt) 0 (take (entries_before_from c reads es) es) m0).1.
Proof.
  induction es as [|e es IH]; intros dir_end reads m0; [done|].
  rewrite scan_cons. cbn [entries_before_from].
  destruct (cancelled_from c reads) eqn:Hc.
  { apply Nat.leb_le in Hc.
    assert (Hlate : ((if is_regular_file e then S (S reads) else S reads) <=? c)%nat = false)
      by (apply Nat.leb_gt; destruct (is_regular_file e); lia).
    by rewrite Hlate. }
  apply Nat.leb_gt in Hc.
  destruct (is_regular_file e) eqn:Hreg.
  - destruct (cancelled_from c (S reads)) eqn:Hc1.
    + destruct (analyzeFile_cancelled (path e)) as (exn & -> & ->).
      rewrite scan_already_cancelled by (by apply cancelled_from_mono).
      apply Nat.leb_le in Hc1.
      assert (Hlate : (S (S reads) <=? c)%nat = false) by (apply Nat.leb_gt; lia).
      by rewrite Hlate.
    + apply Nat.leb_gt in Hc1.
      assert (Hearly : (S (S reads) <=? c)%nat = true) by (apply Nat.leb_le; lia).
      rewrite Hearly, firstn_cons, scan_never_cons, Hreg.
      destruct (analyzeFile false (path e)) as [f|exn] eqn:Hf.
      * rewrite IH. by rewrite (scan_never_reads _ _ 2%nat 0%nat).
      * destruct (is_recoverable exn); [|done].
        rewrite IH. by rewrite (scan_never_reads _ _ 2%nat 0%nat).
  - assert (Hearly : (S reads <=? c)%nat = true) by (apply Nat.leb_le; lia).
    rewrite Hearly, firstn_cons, scan_never_cons, Hreg.
    rewrite IH. by rewrite (scan_never_reads _ _ 1%nat 0%nat).
Qed.

Lemma entries_before_from_le c es : forall reads,
  (entries_before_from c reads es <= length es)%nat.
Proof.
  induction es as [|e es IH]; intros reads; cbn [entries_before_from length]; [done|].
  destruct (_ <=? c)%nat; [|lia].
  specialize (IH (if is_regular_file e then S (S reads) else S reads)). lia.
Qed.

(** An uncancelled scan of an initial part of the directory leaves a part
    of what the uncancelled scan of the whole directory leaves. *)
Lemma scan_prefix_mono es : forall k d1 d2 r1 r2 m0,
  consistent m0 ->
  (scan never_cancelled d1 r1 (take k es) m0).1 ⊆
  (scan never_cancelled d2 r2 es m0).1.
Proof.
  induction es as [|e es IH]; intros k d1 d2 r1 r2 m0 Hm0.
  - by rewrite take_nil.
  - destruct k as [|k]; [by apply scan_mono|].
    rewrite firstn_cons, !scan_never_cons.
    destruct (is_regular_file e); [|by apply IH].
    destruct (analyzeFile false (path e)) as [f|exn] eqn:Hf.
    + apply IH. destruct (decide (f = [])); [done|]. by apply consistent_insert.
    + destruct (is_recoverable exn); [by apply IH|done].
Qed.

(** C7.  When [cancelAnalysis] is called during a scan, after any number
    [c] of reads of the flag, [analyzeDirectory] returns normally, and the
    map it returns is the one accumulated up to the cancellation point: it
    is the map of an uncancelled scan of the [entries_before c dir] entries
    that the loop went through before it saw the flag, it holds what was
    recorded for each regular file among them when none of them ended the
    scan with a fatal error, and it is contained in the map of the full,
    uncancelled scan. *)
Theorem cancelled_scan_returns_partial_results (c : nat) (dir : directory) :
  let k := entries_before c dir in
  let scanned := mkDirectory (take k (entries dir)) None in
  exists m m_full,
    analyzeDirectory (cancelled_from c) dir = Return m /\
    analyzeDirectory never_cancelled dir = Return m_full /\
    (k <= length (entries dir))%nat /\
    analyzeDirectory never_cancelled scanned = Return m /\
    (Forall no_fatal_error (entries scanned) ->
     forall p, m !! p =
       if decide (p ∈ regular_files (entries scanned))
       then recorded (analyzeFile false p) else None) /\
    m ⊆ m_full.
Proof.
  cbv zeta. unfold entries_before.
  pose proof (scan_cancelled_at c (entries dir) (end_of_iteration dir) 0 ∅) as Heq.
  set (k := entries_before_from c 0 (entries dir)) in *.
  eexists _, _. rewrite !analyzeDirectory_returns. cbn [entries end_of_iteration iteration_error].
  split; [reflexivity|]. split; [reflexivity|].
  split; [apply entries_before_from_le|].
  split; [by rewrite Heq|]. split.
  - intros Hok p. rewrite Heq.
    destruct (scan_never_lookup (take k (entries dir)) (Return tt) 0 ∅ Hok
                consistent_empty) as [_ Hlook].
    rewrite Hlook. by rewrite lookup_empty.
  - rewrite Heq. apply scan_prefix_mono, consistent_empty.
Qed.

(** *** Isolation of per-file failures *)

(** Without fatal errors the scan returns normally and has gone through
    every file: the map holds exactly what was recorded for each regular
    file. *)
Lemma scan_without_fatal_errors (dir : directory) :
  Forall no_fatal_error (entries dir) ->
  exists m,
    analyzeDirectory never_cancelled dir = Return m /\
    forall p, m !! p =
      if decide (p ∈ regular_files (entries dir))
      then recorded (analyzeFile false p) else None.
Proof.
  intros Hok. rewrite analyzeDirectory_returns. eexists. split; [reflexivity|].
  destruct (scan_never_lookup (entries dir) (end_of_iteration dir) 0 ∅ Hok
              consistent_empty) as [_ Hlook].
  intros p. rewrite Hlook. by rewrite lookup_empty.
Qed.

(** A file whose analysis raises a recoverable error is passed over: the
    loop goes on as if the file were not in the directory. *)
Lemma scan_skips_recoverable pre : forall bad post exn dir_end reads m0,
  is_regular_file bad = true ->
  analyzeFile false (path bad) = Throw exn ->
  is_recoverable exn = true ->
  scan never_cancelled dir_end reads (pre ++ bad :: post) m0 =
  scan never_cancelled dir_end reads (pre ++ post) m0.
Proof.
  induction pre as [|e pre IH]; intros bad post exn dir_end reads m0 Hreg Hbad Hrec.
  - cbn [app]. rewrite scan_never_cons, Hreg, Hbad, Hrec. apply scan_never_reads.
  - cbn [app]. rewrite !scan_never_cons.
    destruct (is_regular_file e); [|by eapply IH].
    destruct (analyzeFile false (path e)) as [f|exn']; [by eapply IH|].
    destruct (is_recoverable exn'); [by eapply IH|done].
Qed.

(** C5.  A regular file whose analysis raises a [FileSystemException] or
    an [AnalysisException] does not stop the scan and gets no entry: the
    call returns normally, with the very map that the scan of the
    directory without that file returns.  In particular, when the
    analysis of every other file returns (one failing file among valid
    ones), each of these files is in the map with its findings. *)
Theorem directory_scan_isolates_failures
    (pre post : list directory_entry) (bad : directory_entry)
    (err : option string) (exn : exception) :
  is_regular_file bad = true ->
  analyzeFile false (path bad) = Throw exn ->
  is_recoverable exn = true ->
  exists m,
    analyzeDirectory never_cancelled (mkDirectory (pre ++ bad :: post) err) = Return m /\
    analyzeDirectory never_cancelled (mkDirectory (pre ++ post) err) = Return m /\
    m !! path bad = None /\
    (Forall analysis_returns (pre ++ post) ->
     forall p f, p ∈ regular_files (pre ++ post) ->
       analyzeFile false p = Return f -> default [] (m !! p) = f).
Proof.
  intros Hreg Hbad Hrec. rewrite !analyzeDirectory_returns. simpl.
  rewrite (scan_skips_recoverable pre bad post exn _ _ _ Hreg Hbad Hrec).
  eexists. split; [reflexivity|]. split; [reflexivity|]. split.
  - pose proof (scan_consistent never_cancelled (pre ++ post)
                  (end_of_iteration (mkDirectory (pre ++ bad :: post) err)) 0 ∅
                  consistent_empty) as Hcons.
    destruct (_ !! path bad) as [f|] eqn:Hf; [|done].
    apply Hcons in Hf. by rewrite Hbad in Hf.
  - intros Hret p f Hin Hp.
    destruct (scan_never_lookup (pre ++ post)
                (end_of_iteration (mkDirectory (pre ++ bad :: post) err)) 0 ∅)
      as [_ Hlook].
    + eapply Forall_impl; [exact Hret|]. intros e He Hreg' exn' Hexn'.
      destruct (He Hreg') as [f' Hf']. congruence.
    + apply consistent_empty.
    + rewrite Hlook, decide_True, Hp by done. by destruct f.
Qed.

(** *** The worker pool *)

Abbreviation worker_step := (worker_step fs analyzers_ ai_available enhanceAnalysis).
Abbreviation pool_step := (pool_step fs analyzers_ ai_available enhanceAnalysis).
Abbreviation run_pool := (run_pool fs analyzers_ ai_available enhanceAnalysis).
Abbreviation collect_files := (collect_files analyzers_).
Abbreviation getAnalyzerForFile := (getAnalyzerForFile analyzers_).
Abbreviation has_analyzer := (has_analyzer analyzers_).
Abbreviation analyzeDirectoryParallel :=
  (analyzeDirectoryParallel fs analyzers_ ai_available enhanceAnalysis).
Abbreviation pool_invariant :=
  (pool_invariant fs analyzers_ ai_available enhanceAnalysis).

(** A step of a worker changes the shared variables, never the list of
    workers. *)
Lemma worker_step_workers flag files pc p :
  workers (worker_step flag files pc p).2 = workers p.
Proof.
  destruct pc; simpl; try done.
  destruct (files !! index); [|done].
  destruct (analyzeFile _ _); [done|]. by destruct (is_std_exception _).
Qed.

Lemma pool_step_length flag files p w :
  length (workers (pool_step flag files p w)) = length (workers p).
Proof.
  unfold AnalysisManager.pool_step. destruct (workers p !! w) as [pc|]; [|done].
  pose proof (worker_step_workers flag files pc p) as Hws.
  destruct (worker_step flag files pc p) as [pc' p']. simpl in *.
  by rewrite length_insert, Hws.
Qed.

(** Whatever the interleaving and the flag, the workers only ever enter
    what the analysis of a file records. *)
Lemma pool_step_consistent flag files p w :
  consistent (all_results p) ->
  consistent (all_results (pool_step flag files p w)).
Proof.
  intros Hm. unfold AnalysisManager.pool_step.
  destruct (workers p !! w) as [pc|]; [|done].
  destruct pc; simpl; try done.
  destruct (files !! index) as [file|]; [|done].
  destruct (analyzeFile (flag (ticks p)) file) as [f|exn] eqn:Hf; simpl.
  - destruct (decide (f = [])); [done|].
    apply consistent_insert; [done| |done]. by eapply analyzeFile_returns.
  - by destruct (is_std_exception exn).
Qed.

Lemma run_pool_consistent flag files schedule : forall p,
  consistent (all_results p) ->
  consistent (all_results (run_pool flag files schedule p)).
Proof.
  unfold AnalysisManager.run_pool.
  induction schedule as [|w schedule IH]; intros p Hm; simpl; [done|].
  by apply IH, pool_step_consistent.
Qed.

Lemma run_pool_length flag files schedule : forall p,
  length (workers (run_pool flag files schedule p)) = length (workers p).
Proof.
  unfold AnalysisManager.run_pool.
  induction schedule as [|w schedule IH]; intros p; simpl; [done|].
  by rewrite IH, pool_step_length.
Qed.

(** C10.  A result map returned by [analyzeDirectory] or by
    [analyzeDirectoryParallel] never holds an empty list of findings: a
    file whose analysis returns no finding gets no entry, exactly like a
    file whose analysis failed. *)
Theorem result_maps_hold_no_empty_findings (flag : nat -> bool)
    (dir : directory) (max_threads : Z) (schedule : list nat)
    (m : gmap string (list AnalysisResult)) :
  analyzeDirectory flag dir = Return m \/
  analyzeDirectoryParallel flag dir max_threads schedule = Some (Return m) ->
  (forall p f, m !! p = Some f -> f <> []) /\
  (forall p, analyzeFile false p = Return [] -> m !! p = None) /\
  (forall p exn, analyzeFile false p = Throw exn -> m !! p = None).
Proof.
  intros Hm.
  assert (Hcons : consistent m).
  { destruct Hm as [Hser|Hpar].
    - rewrite analyzeDirectory_returns in Hser. injection Hser as <-.
      apply scan_consistent, consistent_empty.
    - unfold AnalysisManager.analyzeDirectoryParallel in Hpar.
      destruct (AnalysisManager.collect_files analyzers_ (end_of_iteration dir) (entries dir))
        as [files|exn].
      + destruct (all_finished _); [|done]. injection Hpar as <-.
        apply run_pool_consistent. simpl. apply consistent_empty.
      + destruct (is_std_exception exn); [|done]. injection Hpar as <-.
        apply consistent_empty. }
  split; [|split].
  - intros p f Hp. apply Hcons in Hp. by apply recorded_Some in Hp as [_ ?].
  - intros p Hp. destruct (m !! p) as [f|] eqn:Hf; [|done].
    apply Hcons in Hf. by rewrite Hp in Hf.
  - intros p exn Hp. destruct (m !! p) as [f|] eqn:Hf; [|done].
    apply Hcons in Hf. by rewrite Hp in Hf.
Qed.

(** *** The pool when nothing throws and nobody cancels *)

Lemma workers_insert_lookup (ws : list worker_pc) w pc pc' w' :
  ws !! w = Some pc ->
  <[w := pc']> ws !! w' = if decide (w = w') then Some pc' else ws !! w'.
Proof.
  intros Hw. destruct (decide (w = w')) as [<-|Hne].
  - apply list_lookup_insert_eq. by eapply lookup_lt_Some.
  - by apply list_lookup_insert_ne.
Qed.

(** Nobody analyses [i] after worker [w] moved on, and [w] was not
    analysing [i] before: nobody analysed [i] before either. *)
Lemma nobody_analyzing_before (ws : list worker_pc) w pc pc' i :
  ws !! w = Some pc -> pc <> Analyzing i ->
  (forall w', <[w := pc']> ws !! w' <> Some (Analyzing i)) ->
  forall w', ws !! w' <> Some (Analyzing i).
Proof.
  intros Hw Hpc Hafter w' Hw'. destruct (decide (w = w')) as [<-|Hne].
  - congruence.
  - apply (Hafter w'). by rewrite list_lookup_insert_ne.
Qed.

Lemma pool_step_invariant files p w :
  (forall file, file ∈ files -> exists f, analyzeFile false file = Return f) ->
  pool_invariant files p ->
  pool_invariant files (pool_step never_cancelled files p w).
Proof.
  intros Hret (Herr & Han & Hfin & Hsound & Hcompl).
  unfold AnalysisManager.pool_step.
  destruct (workers p !! w) as [pc|] eqn:Hw; [|done].
  destruct pc as [| |i|].
  - (* the loop condition holds *)
    simpl. rewrite Herr. simpl.
    split; [done|]. split; [|split; [|split]]; simpl.
    + intros w' i. rewrite (workers_insert_lookup _ _ _ _ _ Hw).
      destruct (decide (w = w')); [done|]. apply Han.
    + intros w'. rewrite (workers_insert_lookup _ _ _ _ _ Hw).
      destruct (decide (w = w')); [done|]. apply Hfin.
    + done.
    + intros i file Hi Hfile Hnobody. apply (Hcompl i file Hi Hfile).
      by apply (nobody_analyzing_before _ w AtLoopTest Claiming).
  - (* fetch and increment *)
    simpl. split; [done|]. split; [|split; [|split]]; simpl.
    + intros w' i. rewrite (workers_insert_lookup _ _ _ _ _ Hw).
      destruct (decide (w = w')) as [_|_].
      * destruct (length files <=? current_index p)%nat eqn:Hlen; [done|].
        intros [= <-]. apply Nat.leb_gt in Hlen. lia.
      * intros Hw'. destruct (Han w' i Hw'). lia.
    + intros w'. rewrite (workers_insert_lookup _ _ _ _ _ Hw).
      destruct (decide (w = w')) as [_|_].
      * destruct (length files <=? current_index p)%nat eqn:Hlen; [|done].
        intros _. apply Nat.leb_le in Hlen. lia.
      * intros Hw'. specialize (Hfin w' Hw'). lia.
    + done.
    + intros i file Hi Hfile Hnobody.
      destruct (decide (i = current_index p)) as [->|Hne].
      * exfalso. apply (Hnobody w).
        rewrite (workers_insert_lookup _ _ _ _ _ Hw), decide_True by done.
        apply lookup_lt_Some in Hfile.
        destruct (length files <=? current_index p)%nat eqn:Hlen; [|done].
        apply Nat.leb_le in Hlen. lia.
      * apply (Hcompl i file); [lia|done|].
        by eapply (nobody_analyzing_before _ w Claiming).
  - (* the claimed file is analysed and recorded *)
    destruct (Han w i Hw) as [Hi Hlen].
    destruct (lookup_lt_is_Some_2 files i Hlen) as [file Hfile].
    assert (Hin : file ∈ files) by (apply list_elem_of_lookup; eauto).
    destruct (Hret file Hin) as [f Hf].
    simpl. rewrite Hfile. change (never_cancelled (ticks p)) with false.
    rewrite Hf. simpl.
    assert (Hrec : recorded (analyzeFile false file) =
                   (if decide (f = []) then all_results p
                    else <[file := f]> (all_results p)) !! file).
    { rewrite Hf, recorded_Return. destruct (decide (f = [])) as [->|Hne].
      - destruct (all_results p !! file) as [g|] eqn:Hg; [|done].
        apply Hsound in Hg as [_ Hg]. by rewrite Hf in Hg.
      - by rewrite lookup_insert_eq. }
    split; [done|]. split; [|split; [|split]]; simpl.
    + intros w' j. rewrite (workers_insert_lookup _ _ _ _ _ Hw).
      destruct (decide (w = w')); [done|]. apply Han.
    + intros w'. rewrite (workers_insert_lookup _ _ _ _ _ Hw).
      destruct (decide (w = w')); [done|]. apply Hfin.
    + intros file' g. destruct (decide (f = [])) as [_|Hne]; [apply Hsound|].
      destruct (decide (file = file')) as [<-|Hfile'].
      * rewrite lookup_insert_eq. intros [= <-]. split; [done|].
        rewrite Hf. by apply recorded_Some.
      * rewrite lookup_insert_ne by done. apply Hsound.
    + intros j file' Hj Hfile' Hnobody.
      destruct (decide (file = file')) as [<-|Hne]; [by rewrite Hrec|].
      assert (Hji : j <> i) by (intros ->; congruence).
      assert (Hold : all_results p !! file' = recorded (analyzeFile false file')).
      { apply (Hcompl j file' Hj Hfile').
        eapply (nobody_analyzing_before _ w (Analyzing i)); [done| |exact Hnobody].
        congruence. }
      destruct (decide (f = [])); [done|]. by rewrite lookup_insert_ne.
  - (* a worker that has returned stays so *)
    simpl. rewrite list_insert_id by done. by destruct p.
Qed.

Lemma run_pool_invariant files schedule : forall p,
  (forall file, file ∈ files -> exists f, analyzeFile false file = Return f) ->
  pool_invariant files p ->
  pool_invariant files (run_pool never_cancelled files schedule p).
Proof.
  unfold AnalysisManager.run_pool.
  induction schedule as [|w schedule IH]; intros p Hret Hinv; simpl; [done|].
  apply IH; [done|]. by apply pool_step_invariant.
Qed.

Lemma initial_pool_invariant max_threads files :
  pool_invariant files (initial_pool max_threads files).
Proof.
  unfold AnalysisManager.pool_invariant, initial_pool. simpl.
  split; [done|]. split; [|split; [|split]].
  - intros w i Hw. apply lookup_replicate in Hw as [? _]. done.
  - intros w Hw. apply lookup_replicate in Hw as [? _]. done.
  - intros file f Hf. by rewrite lookup_empty in Hf.
  - intros i file Hi. lia.
Qed.

(** When every worker has returned, every file of the list has been
    recorded. *)
Lemma finished_pool_results files p :
  pool_invariant files p ->
  workers p <> [] ->
  all_finished p = true ->
  forall file, all_results p !! file =
    if decide (file ∈ files) then recorded (analyzeFile false file) else None.
Proof.
  intros (Herr & Han & Hfin & Hsound & Hcompl) Hne Hall file.
  unfold all_finished in Hall. rewrite forallb_forall in Hall.
  assert (Hdone : forall w pc, workers p !! w = Some pc -> pc = Finished).
  { intros w pc Hw.
    assert (Hin : In pc (workers p)).
    { apply list_elem_of_In, list_elem_of_lookup. eauto. }
    specialize (Hall pc Hin). by destruct pc. }
  assert (Hidx : (length files <= current_index p)%nat).
  { destruct (workers p) as [|pc ws] eqn:Hws; [done|].
    apply (Hfin 0%nat). simpl. f_equal. by apply (Hdone 0%nat). }
  destruct (decide (file ∈ files)) as [Hin|Hnin].
  - apply list_elem_of_lookup in Hin as [i Hi].
    apply (Hcompl i file); [|done|].
    + apply lookup_lt_Some in Hi. lia.
    + intros w Hw. by apply Hdone in Hw.
  - destruct (all_results p !! file) as [f|] eqn:Hf; [|done].
    by apply Hsound in Hf as [? _].
Qed.

(** *** Every worker returns *)

(** A step of worker [w] brings it closer to its return; a step of
    another worker does not take it further away. *)
Lemma pool_step_progress flag files p w pc :
  workers p !! w = Some pc ->
  exists pc',
    workers (pool_step flag files p w) !! w = Some pc' /\
    (current_index p <= current_index (pool_step flag files p w))%nat /\
    (pc = Finished -> pc' = Finished) /\
    (pc <> Finished ->
     (steps_left files (current_index (pool_step flag files p w)) pc'
      < steps_left files (current_index p) pc)%nat).
Proof.
  intros Hw. unfold AnalysisManager.pool_step. rewrite Hw.
  assert (Hlt : (w < length (workers p))%nat) by (by eapply lookup_lt_Some).
  destruct pc as [| |i|]; simpl.
  - eexists. split; [by apply list_lookup_insert_eq|]. split; [lia|].
    split; [done|]. intros _.
    destruct (negb (flag (ticks p)) && negb (has_errors p)); simpl; lia.
  - eexists. split; [by apply list_lookup_insert_eq|]. split; [lia|].
    split; [done|]. intros _.
    destruct (length files <=? current_index p)%nat eqn:Hlen; simpl; [lia|].
    apply Nat.leb_gt in Hlen. lia.
  - destruct (files !! i) as [file|].
    + destruct (analyzeFile (flag (ticks p)) file) as [f|exn].
      * simpl. eexists. split; [by apply list_lookup_insert_eq|]. split; [lia|].
        split; [done|]. intros _. simpl. lia.
      * destruct (is_std_exception exn); simpl;
          (eexists; split; [by apply list_lookup_insert_eq|]; split; [lia|];
           split; [done|]; intros _; simpl; lia).
    + simpl. eexists. split; [by apply list_lookup_insert_eq|]. split; [lia|].
      split; [done|]. intros _. simpl. lia.
  - eexists. split; [by apply list_lookup_insert_eq|]. split; [lia|]. done.
Qed.

Lemma pool_step_other flag files p w w' :
  w <> w' ->
  workers (pool_step flag files p w) !! w' = workers p !! w' /\
  (current_index p <= current_index (pool_step flag files p w))%nat.
Proof.
  intros Hne. unfold AnalysisManager.pool_step.
  destruct (workers p !! w) as [pc|] eqn:Hw; [|done].
  pose proof (worker_step_workers flag files pc p) as Hws.
  assert (Hidx : (current_index p <= current_index (worker_step flag files pc p).2)%nat).
  { destruct pc; simpl; try lia.
    destruct (files !! index); [|simpl; lia].
    destruct (analyzeFile _ _); [simpl; lia|].
    destruct (is_std_exception _); simpl; lia. }
  destruct (worker_step flag files pc p) as [pc' p']. simpl in *.
  split; [|done]. rewrite list_lookup_insert_ne by done. by rewrite Hws.
Qed.

Lemma steps_left_mono files i j pc :
  (i <= j)%nat -> (steps_left files j pc <= steps_left files i pc)%nat.
Proof. intros Hij. destruct pc; simpl; lia. Qed.

(** A worker that is given as many steps as it has left has returned. *)
Lemma run_pool_finishes flag files schedule : forall p w pc,
  workers p !! w = Some pc ->
  (steps_left files (current_index p) pc <= count_occ Nat.eq_dec schedule w)%nat ->
  workers (run_pool flag files schedule p) !! w = Some Finished.
Proof.
  unfold AnalysisManager.run_pool.
  induction schedule as [|w0 schedule IH]; intros p w pc Hw Hsteps.
  - simpl in *. destruct pc; simpl in Hsteps; try lia. done.
  - simpl. destruct (decide (w0 = w)) as [->|Hne].
    + destruct (pool_step_progress flag files p w pc Hw) as (pc' & Hw' & Hidx & Hfin & Hdec).
      apply (IH _ w pc' Hw').
      rewrite count_occ_cons_eq in Hsteps by done.
      assert (Hcase : pc = Finished \/ pc <> Finished)
        by (destruct pc; auto; right; discriminate).
      destruct Hcase as [->|Hpc].
      * rewrite (Hfin eq_refl). simpl. lia.
      * specialize (Hdec Hpc). lia.
    + destruct (pool_step_other flag files p w0 w Hne) as [Hw' Hidx].
      apply (IH _ w pc); [by rewrite Hw'|].
      rewrite count_occ_cons_neq in Hsteps by done.
      pose proof (steps_left_mono files _ _ pc Hidx). lia.
Qed.

(** Under a schedule that gives each of the first [n] workers
    [3 * length files + 2] steps, a pool of at most [n] fresh workers ends
    with all of them returned. *)
Lemma run_pool_all_finished flag files schedule max_threads n :
  (length (workers (initial_pool max_threads files)) <= n)%nat ->
  (forall w, (w < n)%nat ->
     (3 * length files + 2 <= count_occ Nat.eq_dec schedule w)%nat) ->
  all_finished (run_pool flag files schedule (initial_pool max_threads files)) = true.
Proof.
  intros Hn Hfair. unfold all_finished. apply forallb_forall. intros pc Hin.
  apply list_elem_of_In, list_elem_of_lookup in Hin as [w Hw].
  assert (Hlt : (w < length (workers (initial_pool max_threads files)))%nat).
  { rewrite <- (run_pool_length flag files schedule). by eapply lookup_lt_Some. }
  destruct (lookup_lt_is_Some_2 _ _ Hlt) as [pc0 Hpc0].
  assert (Hinit : pc0 = AtLoopTest).
  { unfold initial_pool in Hpc0. simpl in Hpc0.
    by apply lookup_replicate in Hpc0 as [? _]. }
  subst pc0.
  rewrite (run_pool_finishes flag files schedule _ w AtLoopTest Hpc0) in Hw.
  - by injection Hw as <-.
  - simpl. specialize (Hfair w ltac:(lia)). lia.
Qed.

(** *** Serial and parallel scans compared *)

Lemma executeWithRecovery_Return {A} (body : outcome A) a :
  executeWithRecovery body = Return a -> body = Return a.
Proof.
  destruct body as [a'|e]; simpl; [done|].
  destruct (is_AnalyzerException e); [done|]. by destruct e.
Qed.

(** A file whose analysis returns had its analyzer looked up without an
    exception. *)
Lemma analyzeFile_Return_getAnalyzer file f :
  analyzeFile false file = Return f ->
  exists a, getAnalyzerForFile file = Return a.
Proof.
  unfold AnalysisManager.analyzeFile. intros H.
  apply executeWithRecovery_Return in H.
  destruct (AnalysisManager.getAnalyzerForFile analyzers_ file) as [a|e]; [eauto|done].
Qed.

Lemma collect_files_returns es :
  Forall analysis_returns es ->
  collect_files (Return tt) es =
  Return (filter (fun p => has_analyzer p = true) (regular_files es)).
Proof.
  induction es as [|e es IH]; intros Hok; [done|].
  apply Forall_cons in Hok as [He Hok]. specialize (IH Hok).
  simpl. rewrite regular_files_cons.
  destruct (is_regular_file e) eqn:Hreg; [|done].
  destruct (He Hreg) as [f Hf].
  destruct (analyzeFile_Return_getAnalyzer _ _ Hf) as [a Ha].
  assert (Hhas : has_analyzer (path e) = match a with Some _ => true | None => false end).
  { unfold AnalysisManager.has_analyzer. by rewrite Ha. }
  rewrite filter_cons, Ha, IH. simpl.
  destruct a; [rewrite decide_True | rewrite decide_False]; congruence.
Qed.

Lemma regular_files_length es : (length (regular_files es) <= length es)%nat.
Proof.
  unfold regular_files. rewrite length_fmap. apply length_filter.
Qed.

Lemma analysis_returns_no_fatal_error e : analysis_returns e -> no_fatal_error e.
Proof.
  intros He Hreg exn Hexn. destruct (He Hreg) as [f Hf]. congruence.
Qed.

(** In a worker, every exception that leaves [analyzeFile] raises the
    shared failure flag, the two kinds the serial scan skips included. *)
Lemma worker_exception_sets_has_errors flag files p i file exn :
  files !! i = Some file ->
  analyzeFile (flag (ticks p)) file = Throw exn ->
  has_errors (worker_step flag files (Analyzing i) p).2 = true.
Proof.
  intros Hfile Hexn. simpl. rewrite Hfile, Hexn.
  apply analyzeFile_throws in Hexn.
  assert (Hstd : is_std_exception exn = true) by (by destruct exn).
  by rewrite Hstd.
Qed.

(** C6, as amended.  Take a directory of at most [INT_MAX] entries whose
    enumeration succeeds and in which the analysis of every regular file
    returns, at least one worker thread, and no cancellation.  Then the
    serial scan returns a map, and under every interleaving of the workers
    that lets [analyzeDirectoryParallel] return, the parallel map is the
    serial map restricted to the files that have a registered analyzer
    (the parallel scan does not enumerate the others).  Every interleaving
    that gives each worker [3 * entries + 2] steps lets it return.  And
    whatever exception a file raises in a worker, the failure flag goes
    up. *)
Theorem parallel_scan_is_serial_scan_of_supported_files
    (dir : directory) (max_threads : Z) :
  Forall analysis_returns (entries dir) ->
  iteration_error dir = None ->
  1 <= max_threads ->
  Z.of_nat (length (entries dir)) <= INT_MAX ->
  exists m_serial,
    analyzeDirectory never_cancelled dir = Return m_serial /\
    (forall schedule m_parallel,
       analyzeDirectoryParallel never_cancelled dir max_threads schedule
         = Some (Return m_parallel) ->
       forall p, m_parallel !! p = if has_analyzer p then m_serial !! p else None) /\
    (forall schedule,
       (forall w, (w < Z.to_nat max_threads)%nat ->
          (3 * length (entries dir) + 2 <= count_occ Nat.eq_dec schedule w)%nat) ->
       exists m_parallel,
         analyzeDirectoryParallel never_cancelled dir max_threads schedule
           = Some (Return m_parallel)) /\
    (forall flag files p i file exn,
       files !! i = Some file ->
       analyzeFile (flag (ticks p)) file = Throw exn ->
       has_errors (worker_step flag files (Analyzing i) p).2 = true).
Proof.
  intros Hret Hiter Hthreads Hsize.
  rewrite analyzeDirectory_returns. eexists. split; [reflexivity|].
  assert (Hend : end_of_iteration dir = Return tt).
  { unfold end_of_iteration. by rewrite Hiter. }
  destruct (scan_never_lookup (entries dir) (end_of_iteration dir) 0 ∅) as [_ Hser].
  { eapply Forall_impl; [exact Hret|]. apply analysis_returns_no_fatal_error. }
  { apply consistent_empty. }
  set (files := filter (fun p => has_analyzer p = true) (regular_files (entries dir))).
  assert (Hcollect : collect_files (end_of_iteration dir) (entries dir) = Return files).
  { rewrite Hend. by apply collect_files_returns. }
  assert (Hlen : (length files <= length (entries dir))%nat).
  { unfold files. etrans; [apply length_filter|apply regular_files_length]. }
  assert (Hfiles_ret : forall file, file ∈ files ->
            exists f, analyzeFile false file = Return f).
  { intros file Hin. unfold files in Hin.
    apply list_elem_of_filter in Hin as [_ Hin].
    unfold regular_files in Hin.
    apply list_elem_of_fmap in Hin as (e & -> & He).
    apply list_elem_of_filter in He as [Hreg He].
    rewrite Forall_forall in Hret. by apply (Hret e). }
  assert (Hwrap : int_wrap (Z.of_nat (length files)) = Z.of_nat (length files)).
  { apply int_wrap_small. unfold INT_MAX in *. lia. }
  split; [|split; [|apply worker_exception_sets_has_errors]].
  - (* every completed run agrees with the serial scan *)
    intros schedule m_parallel Hpar p.
    unfold AnalysisManager.analyzeDirectoryParallel in Hpar.
    rewrite Hcollect in Hpar.
    destruct (all_finished _) eqn:Hall; [|done]. injection Hpar as <-.
    assert (Hchar : all_results
              (run_pool never_cancelled files schedule (initial_pool max_threads files))
              !! p =
            if decide (p ∈ files) then recorded (analyzeFile false p) else None).
    { destruct files as [|file0 files'] eqn:Hfiles.
      - (* no worker is started *)
        rewrite decide_False by apply not_elem_of_nil.
        destruct (_ !! p) as [f|] eqn:Hf; [|done].
        pose proof (run_pool_invariant [] schedule (initial_pool max_threads [])
                      Hfiles_ret (initial_pool_invariant max_threads []))
          as (_ & _ & _ & Hsound & _).
        apply Hsound in Hf as [Hin _]. by apply elem_of_nil in Hin.
      - apply finished_pool_results; [|  |done].
        + apply run_pool_invariant; [done|]. apply initial_pool_invariant.
        + intros Hnil. apply (f_equal length) in Hnil.
          rewrite run_pool_length in Hnil. unfold initial_pool, num_threads in Hnil.
          cbn [workers] in Hnil. rewrite length_replicate, Hwrap in Hnil.
          simpl length in *. lia. }
    rewrite Hchar, Hser, lookup_empty. unfold files.
    destruct (has_analyzer p) eqn:Hp.
    + destruct (decide (p ∈ regular_files (entries dir))) as [Hin|Hnin].
      * rewrite decide_True; [done|]. by apply list_elem_of_filter.
      * rewrite decide_False; [done|]. intros Hin.
        by apply list_elem_of_filter in Hin as [_ ?].
    + rewrite decide_False; [done|]. intros Hin.
      apply list_elem_of_filter in Hin as [? _]. congruence.
  - (* enough steps for everybody: the call returns *)
    intros schedule Hfair.
    unfold AnalysisManager.analyzeDirectoryParallel. rewrite Hcollect.
    rewrite (run_pool_all_finished never_cancelled files schedule max_threads
               (Z.to_nat max_threads)).
    + eauto.
    + unfold initial_pool, num_threads. simpl. rewrite length_replicate. lia.
    + intros w Hw. specialize (Hfair w Hw). lia.
Qed.

End Scan.


(** *** Worked examples *)

Import ScanScenarios.

(** With an engine that raises a [FileSystemException] on the unreadable
    [a.cpp], the scan passes over that file and records the two others. *)
Lemma three_files_scan_skips_unreadable_file :
  is_regular_file (mkEntry "proj/a.cpp" true) = true /\
  AnalysisManager.analyzeFile project_fs registry true strict_enhancement false "proj/a.cpp"
    = Throw (FileSystemException "Cannot read file - File: proj/a.cpp") /\
  exists m,
    analyzeDirectory project_fs registry true strict_enhancement never_cancelled three_files
      = Return m /\
    m !! "proj/a.cpp"%string = None /\
    rule_id <$> default [] (m !! "proj/b.cpp"%string) = ["SECURITY_VULNERABILITY"%string] /\
    rule_id <$> default [] (m !! "proj/src/c.java"%string) = ["JAVA_PLACEHOLDER"%string].
Proof.
  assert (Hbad : AnalysisManager.analyzeFile project_fs registry true strict_enhancement
                   false "proj/a.cpp"
                 = Throw (FileSystemException "Cannot read file - File: proj/a.cpp"))
    by (vm_compute; reflexivity).
  split; [reflexivity|]. split; [exact Hbad|].
  destruct (directory_scan_isolates_failures project_fs registry true strict_enhancement
              [mkEntry "proj/b.cpp" true] [mkEntry "proj/src/c.java" true]
              (mkEntry "proj/a.cpp" true) None _ eq_refl Hbad eq_refl)
    as (m & Hm & _ & Hnone & Hvalid).
  exists m. split; [exact Hm|]. split; [exact Hnone|].
  assert (Hret : Forall (AnalysisManager.analysis_returns project_fs registry true
                           strict_enhancement)
                   ([mkEntry "proj/b.cpp" true] ++ [mkEntry "proj/src/c.java" true])).
  { repeat constructor; intros _; eexists; vm_compute; reflexivity. }
  split.
  - rewrite (Hvalid Hret "proj/b.cpp"%string
               [mkFinding "proj/b.cpp" "SECURITY_VULNERABILITY"
                  "Potential security vulnerability detected" "CRITICAL" 1]).
    + reflexivity.
    + apply list_elem_of_here.
    + vm_compute. reflexivity.
  - rewrite (Hvalid Hret "proj/src/c.java"%string
               [finding "proj/src/c.java" "JAVA_PLACEHOLDER"
                  "Java analysis not yet implemented" "INFO"]).
    + reflexivity.
    + apply list_elem_of_further, list_elem_of_here.
    + vm_compute. reflexivity.
Defined.

(** A path of three characters that is neither a C/C++ nor a Go file makes
    [JavaScriptAnalyzer::isSupportedFile] throw; that is not one of the
    two kinds the loop passes over, and the scan ends there. *)
Lemma three_character_path_ends_scan :
  JavaScriptAnalyzer.isSupportedFile "./x" = Throw (std_exception "basic_string::substr") /\
  AnalysisManager.analyzeFile project_fs registry false no_enhancement false "./x"
    = Throw (AnalyzerException "basic_string::substr" "Unknown" 9999) /\
  analyzeDirectory project_fs registry false no_enhancement never_cancelled current_directory
    = Return ∅.
Proof. repeat split; vm_compute; reflexivity. Qed.

(** Without an engine the unreadable file does not raise: it is recorded
    with a [FILE_ERROR] finding, next to the findings of the others. *)
Lemma project_scan_reports_unreadable_file :
  exists m,
    analyzeDirectory project_fs registry false no_enhancement never_cancelled project
      = Return m /\
    rule_id <$> default [] (m !! "proj/a.cpp"%string) = ["FILE_ERROR"%string] /\
    rule_id <$> default [] (m !! "proj/b.cpp"%string) = ["SECURITY_VULNERABILITY"%string] /\
    rule_id <$> default [] (m !! "proj/src/c.java"%string) = ["JAVA_PLACEHOLDER"%string] /\
    m !! "proj/src/clean.cpp"%string = None.
Proof.
  rewrite analyzeDirectory_returns. eexists. split; [reflexivity|].
  repeat split; vm_compute; reflexivity.
Qed.

(** A scan of the project cancelled after four reads of the flag: the
    loop went through [a.cpp] and [b.cpp], which were analysed, and saw
    the flag at the directory [src]; nothing after it was analysed. *)
Lemma project_scan_cancelled :
  entries_before 4 project = 2%nat /\
  exists m,
    analyzeDirectory project_fs registry false no_enhancement (cancelled_from 4) project
      = Return m /\
    analyzeDirectory project_fs registry false no_enhancement never_cancelled
      (mkDirectory [mkEntry "proj/a.cpp" true; mkEntry "proj/b.cpp" true] None)
      = Return m /\
    rule_id <$> default [] (m !! "proj/a.cpp"%string) = ["FILE_ERROR"%string] /\
    rule_id <$> default [] (m !! "proj/b.cpp"%string) = ["SECURITY_VULNERABILITY"%string] /\
    m !! "proj/src/c.java"%string = None /\
    m !! "proj/src/clean.cpp"%string = None.
Proof.
  split; [reflexivity|].
  pose proof (cancelled_scan_returns_partial_results project_fs registry false
                no_enhancement 4 project) as H.
  cbv zeta in H.
  change (entries_before 4 project) with 2%nat in H.
  change (take 2 (entries project))
    with [mkEntry "proj/a.cpp" true; mkEntry "proj/b.cpp" true] in H.
  destruct H as (m & m_full & Hm & _ & _ & Hscanned & Hlook & _).
  exists m. split; [exact Hm|]. split; [exact Hscanned|].
  assert (Hok : Forall (AnalysisManager.no_fatal_error project_fs registry false
                          no_enhancement)
                  [mkEntry "proj/a.cpp" true; mkEntry "proj/b.cpp" true]).
  { repeat constructor; intros _ exn Hexn; vm_compute in Hexn; discriminate. }
  specialize (Hlook Hok).
  repeat split; rewrite Hlook; vm_compute; reflexivity.
Defined.

(** A clean file leaves no trace in the map of the project. *)
Lemma project_clean_file_omitted :
  exists m,
    analyzeDirectory project_fs registry false no_enhancement never_cancelled project
      = Return m /\
    AnalysisManager.analyzeFile project_fs registry false no_enhancement false
      "proj/src/clean.cpp" = Return [] /\
    m !! "proj/src/clean.cpp"%string = None /\
    (forall p f, m !! p = Some f -> f <> []).
Proof.
  eexists. split; [apply analyzeDirectory_returns|].
  assert (Hclean : AnalysisManager.analyzeFile project_fs registry false no_enhancement
                     false "proj/src/clean.cpp" = Return []) by (vm_compute; reflexivity).
  split; [exact Hclean|].
  destruct (result_maps_hold_no_empty_findings project_fs registry false no_enhancement
              never_cancelled project 1 [] _
              (or_introl (analyzeDirectory_returns project_fs registry false
                            no_enhancement never_cancelled project)))
    as (Hne & Hempty & _).
  split; [by apply Hempty | exact Hne].
Defined.

(** Two workers, fourteen rounds: the parallel scan of the project returns
    the serial map. *)
Lemma project_parallel_scan :
  Forall (AnalysisManager.analysis_returns project_fs registry false no_enhancement)
    (entries project) /\
  iteration_error project = None /\
  1 <= 2 /\
  Z.of_nat (length (entries project)) <= INT_MAX /\
  exists m_serial m_parallel,
    analyzeDirectory project_fs registry false no_enhancement never_cancelled project
      = Return m_serial /\
    analyzeDirectoryParallel project_fs registry false no_enhancement never_cancelled
      project 2 (round_robin 2 17) = Some (Return m_parallel) /\
    forall p, m_parallel !! p =
      if AnalysisManager.has_analyzer registry p then m_serial !! p else None.
Proof.
  assert (Hret : Forall (AnalysisManager.analysis_returns project_fs registry false
                           no_enhancement) (entries project)).
  { repeat constructor; intros _; eexists; vm_compute; reflexivity. }
  assert (Hsize : Z.of_nat (length (entries project)) <= INT_MAX)
    by (vm_compute; discriminate).
  split; [exact Hret|]. split; [reflexivity|]. split; [lia|]. split; [exact Hsize|].
  destruct (parallel_scan_is_serial_scan_of_supported_files project_fs registry false
              no_enhancement project 2 Hret eq_refl ltac:(lia) Hsize)
    as (m_serial & Hser & Hsafe & Hlive & _).
  destruct (Hlive (round_robin 2 17)) as [m_parallel Hpar].
  { intros w Hw. assert (Hw' : w = 0%nat \/ w = 1%nat) by lia.
    destruct Hw' as [->| ->]; vm_compute; lia. }
  exists m_serial, m_parallel. split; [exact Hser|]. split; [exact Hpar|].
  exact (Hsafe _ _ Hpar).
Defined.

(** C6 as stated fails.  A file without a registered analyzer is reported
    by the serial scan and not even enumerated by the parallel one; a
    [FileSystemException], which the serial scan passes over, stops the
    parallel one; with no worker thread the parallel scan analyses
    nothing; and when the enumeration of the directory fails at its end the
    serial scan keeps what it has while the parallel one has not started. *)
Lemma parallel_scan_differs_from_serial_scan :
  (exists f,
     analyzeDirectory project_fs registry false no_enhancement never_cancelled notes_only
       = Return {["proj/notes.txt"%string := [f]]} /\
     rule_id f = "UNSUPPORTED_LANGUAGE"%string) /\
  analyzeDirectoryParallel project_fs registry false no_enhancement never_cancelled
    notes_only 4 [] = Some (Return ∅) /\
  (exists m,
     analyzeDirectory project_fs registry true strict_enhancement never_cancelled project
       = Return m /\
     is_Some (m !! "proj/b.cpp"%string)) /\
  analyzeDirectoryParallel project_fs registry true strict_enhancement never_cancelled
    project 1 [0; 0; 0; 0]%nat = Some (Return ∅) /\
  (exists m,
     analyzeDirectory project_fs registry false no_enhancement never_cancelled project
       = Return m /\ size m = 3%nat) /\
  analyzeDirectoryParallel project_fs registry false no_enhancement never_cancelled
    project 0 [] = Some (Return ∅) /\
  (exists m,
     analyzeDirectory project_fs registry false no_enhancement never_cancelled
       (mkDirectory (entries project) (Some "Permission denied"%string))
       = Return m /\ size m = 3%nat) /\
  analyzeDirectoryParallel project_fs registry false no_enhancement never_cancelled
    (mkDirectory (entries project) (Some "Permission denied"%string)) 4 [] = Some (Return ∅).
Proof.
  repeat apply conj.
  - eexists. split; [vm_compute; reflexivity|reflexivity].
  - vm_compute. reflexivity.
  - eexists. split; [apply analyzeDirectory_returns|].
    eexists. vm_compute. reflexivity.
  - vm_compute. reflexivity.
  - eexists. split; [apply analyzeDirectory_returns|]. vm_compute. reflexivity.
  - vm_compute. reflexivity.
  - eexists. split; [apply analyzeDirectory_returns|]. vm_compute. reflexivity.
  - vm_compute. reflexivity.
Qed.

End ScanSpec.

(** ** The AI engine: sanitisation, metrics, cache lifetime, health checks *)

Module EngineSpec.

Import AIEngine EngineService Scenarios ExtraScenarios.

(** *** [sanitizeInput] *)

Lemma remove_nul_no_nul s :
  Analyzers.contains_char "000" (remove_nul s) = false.
Proof.
  induction s as [|c s IH]; simpl; [done|].
  destruct (Ascii.eqb c "000") eqn:E; [done|]. simpl. by rewrite E.
Qed.

Lemma remove_nul_clean s :
  Analyzers.contains_char "000" s = false -> remove_nul s = s.
Proof.
  induction s as [|c s IH]; simpl; [done|].
  intros [Hc Hs]%orb_false_elim. rewrite Hc. by rewrite IH.
Qed.

Lemma substring_no_char c n : forall s,
  Analyzers.contains_char c s = false ->
  Analyzers.contains_char c (String.substring 0 n s) = false.
Proof.
  induction n as [|n IH]; intros [|a s]; simpl; try done.
  intros [Ha Hs]%orb_false_elim. rewrite Ha. simpl. by apply IH.
Qed.

Lemma length_substring_le n : forall s,
  (String.length (String.substring 0 n s) <= n)%nat.
Proof.
  induction n as [|n IH]; intros [|a s]; simpl; try lia.
  specialize (IH s). lia.
Qed.

(** Removing the NUL bytes and cutting at [n] characters. *)
Lemma remove_nul_truncated n input :
  let sanitized := remove_nul input in
  let out := if (n <? String.length sanitized)%nat
             then String.substring 0 n sanitized else sanitized in
  Analyzers.contains_char "000" out = false /\ (String.length out <= n)%nat.
Proof.
  cbv zeta.
  destruct (n <? String.length (remove_nul input))%nat eqn:Hlen.
  - split; [apply substring_no_char, remove_nul_no_nul | apply length_substring_le].
  - apply Nat.ltb_ge in Hlen. split; [apply remove_nul_no_nul | done].
Qed.

(** X1.  Whatever the input, the string [sanitizeInput] returns holds no
    NUL byte and is at most [MAX_INPUT_SIZE] (1 MiB) long. *)
Theorem sanitizeInput_no_nul_and_bounded (input : string) :
  Analyzers.contains_char "000" (sanitizeInput input) = false /\
  (String.length (sanitizeInput input) <= MAX_INPUT_SIZE)%nat.
Proof.
  unfold sanitizeInput. generalize MAX_INPUT_SIZE. intros n.
  apply remove_nul_truncated.
Qed.

(** X2.  [sanitizeInput] is idempotent: sanitising a sanitised string
    changes nothing. *)
Theorem sanitizeInput_idempotent (input : string) :
  sanitizeInput (sanitizeInput input) = sanitizeInput input.
Proof.
  unfold sanitizeInput. generalize MAX_INPUT_SIZE. intros n.
  destruct (remove_nul_truncated n input) as [Hnul Hlen]. cbv zeta in Hnul, Hlen.
  set (out := if (n <? String.length (remove_nul input))%nat
              then String.substring 0 n (remove_nul input)
              else remove_nul input) in *.
  rewrite (remove_nul_clean out Hnul).
  destruct (n <? String.length out)%nat eqn:Hlt; [|done].
  apply Nat.ltb_lt in Hlt. lia.
Qed.

(** *** Retries *)

Lemma first_success_from_spec op fuel : forall calls,
  let k := first_success_from op calls fuel in
  (calls <= k <= calls + fuel)%nat /\
  (forall i, (calls <= i < k)%nat -> success (op i) = false) /\
  (success (op k) = true \/ k = (calls + fuel)%nat).
Proof.
  induction fuel as [|fuel IH]; intros calls; simpl.
  - split; [lia|]. split; [intros i Hi; lia | right; lia].
  - destruct (success (op calls)) eqn:Hc.
    + split; [lia|]. split; [intros i Hi; lia | by left].
    + destruct (IH (S calls)) as (Hk & Hfail & Hlast).
      split; [lia|]. split.
      * intros i Hi. destruct (decide (i = calls)) as [->|]; [done|].
        apply Hfail. lia.
      * destruct Hlast as [? | ->]; [by left | right; lia].
Qed.

(** X3.  As long as fewer than 25 invocations fail before the loop is
    left, so that the [int] delay is never doubled past [INT_MAX],
    [executeWithRetry] returns the result of the first successful
    invocation among the first [max_retries + 1], or of invocation number
    [max_retries] when none succeeds, and has slept once before each
    invocation but the first, 100 ms doubled each time; with a negative
    [max_retries] the operation is never invoked and the default,
    unsuccessful result comes back. *)
Theorem executeWithRetry_returns_first_success
    (op : nat -> AIAnalysisResult) (max_retries : Z) :
  - 2 ^ 31 <= max_retries <= INT_MAX ->
  let k := first_success_from op 0 (Z.to_nat max_retries) in
  (k <= 24)%nat ->
  executeWithRetry op max_retries =
    (if decide (0 <= max_retries)
     then (op k, backoff 100 k)
     else (default_result, [])) /\
  (forall i, (i < k)%nat -> backoff 100 k !! i = Some (100 * 2 ^ Z.of_nat i)) /\
  (forall i, (i < k)%nat -> success (op i) = false) /\
  (success (op k) = true \/ k = Z.to_nat max_retries).
Proof.
  intros Hint k Hk.
  destruct (first_success_from_spec op (Z.to_nat max_retries) 0)
    as (Hrange & Hfail & Hlast). cbv zeta in Hrange, Hfail, Hlast.
  fold k in Hrange, Hfail, Hlast. rewrite Nat.add_0_l in Hrange, Hlast.
  split; [|split; [|split]].
  - unfold executeWithRetry. destruct (decide (0 <= max_retries)) as [Hpos|Hneg].
    + destruct (success (op k)) eqn:Hok.
      * rewrite (RetrySpec.retry_loop_succeeds k); simpl; try done; [lia|].
        intros i Hi. apply Hfail. lia.
      * destruct Hlast as [?|Hlast]; [done|].
        rewrite (RetrySpec.retry_loop_gives_up k); simpl; try done; [lia|].
        intros i Hi. destruct (decide (i = k)) as [->|]; [done|].
        apply Hfail. lia.
    + apply RetrySpec.retry_loop_exhausted. lia.
  - intros i Hi. apply RetrySpec.backoff_lookup; [done|lia|].
    assert (2 ^ Z.of_nat i <= 2 ^ 23) by (apply Z.pow_le_mono_r; lia).
    unfold INT_MAX. lia.
  - intros i Hi. apply Hfail. lia.
  - exact Hlast.
Qed.

(** *** Health checks *)

Lemma isServiceAvailable_within now p s :
  now - last_health_check_ s < HEALTH_CHECK_INTERVAL ->
  isServiceAvailable now p s = (service_available_ s, s).
Proof.
  intros Hlt. unfold isServiceAvailable.
  apply Z.ltb_lt in Hlt. by rewrite Hlt.
Qed.

(** X4.  An engine reports the service as unavailable for the first five
    minutes of its life, whatever a probe of the Python executable would
    find: the constructor's own health check falls inside the interval
    that starts with the initialisation of [last_health_check_], so it
    returns the initial [false] without probing, and so does every later
    call made before the interval has passed. *)
Theorem fresh_engine_reports_service_unavailable {DB}
    (db_manager : option DB) (config : AIEngineConfig)
    (now_init now_check : Z) (p : probe)
    (engine : Engine) (s : ServiceState) (calls : list (Z * probe)) :
  construct db_manager config now_init now_check p = Return (engine, s) ->
  now_check - now_init < HEALTH_CHECK_INTERVAL ->
  Forall (fun c => c.1 - now_init < HEALTH_CHECK_INTERVAL) calls ->
  s = mkService false now_init /\
  (health_checks calls s).1 = replicate (length calls) false /\
  (health_checks calls s).2 = s.
Proof.
  intros Hc Hcheck Hcalls. unfold construct in Hc.
  destruct db_manager; [|done]. destruct (negb (validate config)); [done|].
  unfold isServiceAvailable in Hc. simpl in Hc.
  apply Z.ltb_lt in Hcheck. rewrite Hcheck in Hc. simpl in Hc.
  injection Hc as _ <-. split; [done|].
  induction Hcalls as [|[t q] rest Hnow _ [IH1 IH2]]; simpl; [done|].
  rewrite isServiceAvailable_within by done.
  destruct (health_checks rest (mkService false now_init)) as [answers s2].
  simpl in *. by subst.
Qed.

(** *** The text read from the pipe *)

(** [fgets] splits the stream, and takes at least one character off it. *)
Lemma fgets_from_append room : forall stream,
  ((fgets_from room stream).1 +:+ (fgets_from room stream).2)%string = stream.
Proof.
  induction room as [|room IH]; intros [|c stream]; try reflexivity.
  cbn [fgets_from]. destruct (Ascii.eqb c "010"); [reflexivity|].
  specialize (IH stream). destruct (fgets_from room stream) as [text rest].
  cbn [fst snd] in *.
  change (String c text +:+ rest)%string with (String c (text +:+ rest)).
  by rewrite IH.
Qed.

Lemma fgets_from_rest room : forall stream,
  (String.length (fgets_from room stream).2 <= String.length stream)%nat.
Proof.
  induction room as [|room IH]; intros [|c stream]; try (cbn; lia).
  cbn [fgets_from]. destruct (Ascii.eqb c "010"); [cbn; lia|].
  specialize (IH stream). destruct (fgets_from room stream) as [text rest].
  cbn [fst snd String.length] in *. lia.
Qed.

Lemma fgets_from_progress room c stream :
  (String.length (fgets_from (S room) (String c stream)).2 <= String.length stream)%nat.
Proof.
  cbn [fgets_from]. destruct (Ascii.eqb c "010"); [done|].
  pose proof (fgets_from_rest room stream) as Hle.
  by destruct (fgets_from room stream) as [text rest].
Qed.

(** The loop has reached the end of the stream after [String.length
    stream] rounds: allowing it more changes nothing. *)
Lemma read_loop_rounds rounds1 : forall rounds2 stream result,
  (String.length stream <= rounds1)%nat ->
  (String.length stream <= rounds2)%nat ->
  read_loop rounds1 stream result = read_loop rounds2 stream result.
Proof.
  induction rounds1 as [|rounds1 IH]; intros rounds2 stream result H1 H2.
  - destruct stream; [|cbn in H1; lia]. by destruct rounds2.
  - destruct stream as [|c stream]; [by destruct rounds2|].
    destruct rounds2 as [|rounds2]; [cbn in H2; lia|].
    cbn [read_loop fgets empty]. change (BUFFER_SIZE - 1)%nat with (S 126).
    pose proof (fgets_from_progress 126 c stream) as Hrest.
    destruct (fgets_from (S 126) (String c stream)) as [text rest].
    cbn [snd String.length] in *. apply IH; lia.
Qed.

Lemma read_output_rounds rounds output :
  (String.length output <= rounds)%nat ->
  read_loop rounds output "" = read_output output.
Proof. intros Hle. by apply read_loop_rounds. Qed.

Lemma contains_char_append_false c (a b : string) :
  Analyzers.contains_char c (a +:+ b) = false ->
  Analyzers.contains_char c a = false /\ Analyzers.contains_char c b = false.
Proof.
  induction a as [|x a IH]; [done|].
  change (String x a +:+ b)%string with (String x (a +:+ b)).
  cbn [Analyzers.contains_char]. intros [Hx Hrest]%orb_false_elim.
  destruct (IH Hrest) as [Ha Hb]. by rewrite Hx, Ha.
Qed.

Lemma c_str_clean buffer :
  Analyzers.contains_char "000" buffer = false -> c_str buffer = buffer.
Proof.
  induction buffer as [|c buffer IH]; [done|].
  cbn [Analyzers.contains_char c_str]. intros [Hc Hrest]%orb_false_elim.
  by rewrite Hc, IH.
Qed.

Lemma string_app_assoc (a b c : string) :
  ((a +:+ b) +:+ c = a +:+ (b +:+ c))%string.
Proof.
  induction a as [|x a IH]; [reflexivity|].
  change (String x a +:+ b)%string with (String x (a +:+ b)).
  change (String x (a +:+ b) +:+ c)%string with (String x ((a +:+ b) +:+ c)).
  change (String x a +:+ (b +:+ c))%string with (String x (a +:+ (b +:+ c))).
  by rewrite IH.
Qed.

Lemma string_app_nil_r (a : string) : (a +:+ "")%string = a.
Proof.
  induction a as [|x a IH]; [reflexivity|].
  change (String x a +:+ "")%string with (String x (a +:+ "")). by rewrite IH.
Qed.

(** An output without NUL bytes is accumulated whole. *)
Lemma read_loop_clean rounds : forall stream result,
  (String.length stream <= rounds)%nat ->
  Analyzers.contains_char "000" stream = false ->
  read_loop rounds stream result = (result +:+ stream)%string.
Proof.
  induction rounds as [|rounds IH]; intros stream result Hlen Hclean.
  - destruct stream; [|cbn in Hlen; lia]. cbn. by rewrite string_app_nil_r.
  - destruct stream as [|c stream]; [cbn; by rewrite string_app_nil_r|].
    cbn [read_loop fgets empty]. change (BUFFER_SIZE - 1)%nat with (S 126).
    pose proof (fgets_from_append (S 126) (String c stream)) as Happ.
    pose proof (fgets_from_progress 126 c stream) as Hrest.
    destruct (fgets_from (S 126) (String c stream)) as [text rest].
    cbn [fst snd] in Happ, Hrest.
    rewrite <- Happ in Hclean.
    apply contains_char_append_false in Hclean as [Htext Hclean].
    rewrite (c_str_clean text Htext).
    rewrite IH; [|cbn [String.length] in Hlen; lia|done].
    by rewrite string_app_assoc, Happ.
Qed.

Lemma read_output_clean output :
  Analyzers.contains_char "000" output = false -> read_output output = output.
Proof.
  intros Hclean. unfold read_output. by rewrite read_loop_clean.
Qed.

(** X5.  Once the interval has passed, [isServiceAvailable] probes: the
    service counts as available exactly when the command exits with code
    0 and the text read from the pipe contains "Python"; that text is the
    whole output of the command when the output holds no NUL byte.  The
    verdict is then returned, without probing, by every call made less
    than five minutes later.  A pipe that cannot be opened yields [false]
    and is not remembered. *)
Theorem health_check_verdict_is_cached (now now' : Z) (s : ServiceState)
    (return_code : Z) (output : string) (p' : probe) :
  HEALTH_CHECK_INTERVAL <= now - last_health_check_ s ->
  now' - now < HEALTH_CHECK_INTERVAL ->
  let verdict := (return_code =? 0) && Analyzers.contains "Python" (read_output output) in
  let '(answer, s1) := isServiceAvailable now (Exited return_code output) s in
  answer = verdict /\
  s1 = mkService verdict now /\
  isServiceAvailable now' p' s1 = (verdict, s1) /\
  isServiceAvailable now PipeFailed s = (false, s) /\
  (Analyzers.contains_char "000" output = false ->
   verdict = (return_code =? 0) && Analyzers.contains "Python" output).
Proof.
  intros Hdue Hsoon. unfold isServiceAvailable.
  apply Z.ltb_ge in Hdue. rewrite Hdue. cbn [last_health_check_ service_available_].
  apply Z.ltb_lt in Hsoon. rewrite Hsoon.
  repeat split. intros Hclean. by rewrite read_output_clean.
Qed.

(** *** Worked examples *)

(** Two failures, then an answer, with three retries allowed: the answer
    comes back after sleeps of 100 ms and 200 ms. *)
Lemma two_failures_then_answer :
  - 2 ^ 31 <= 3 <= INT_MAX /\
  (first_success_from (fails_then_succeeds 2) 0 (Z.to_nat 3) <= 24)%nat /\
  executeWithRetry (fails_then_succeeds 2) 3 = (answer, [100; 200]).
Proof.
  assert (Hint : - 2 ^ 31 <= 3 <= INT_MAX) by (vm_compute; split; discriminate).
  assert (Hk : (first_success_from (fails_then_succeeds 2) 0 (Z.to_nat 3) <= 24)%nat)
    by (vm_compute; lia).
  split; [exact Hint|]. split; [exact Hk|].
  exact (proj1 (executeWithRetry_returns_first_success (fails_then_succeeds 2) 3 Hint Hk)).
Defined.

(** One second and 299 seconds after construction the engine answers
    [false], although a probe would find Python. *)
Lemma fresh_engine_ignores_python :
  construct (Some tt) default_config 0 1 python_found
    = Return (new_engine default_config, mkService false 0) /\
  1 - 0 < HEALTH_CHECK_INTERVAL /\
  (health_checks early_checks (mkService false 0)).1 = [false; false].
Proof.
  assert (Hc : construct (Some tt) default_config 0 1 python_found
               = Return (new_engine default_config, mkService false 0))
    by reflexivity.
  assert (Hlt : 1 - 0 < HEALTH_CHECK_INTERVAL) by (vm_compute; reflexivity).
  split; [exact Hc|]. split; [exact Hlt|].
  destruct (fresh_engine_reports_service_unavailable (Some tt) default_config 0 1
              python_found _ _ early_checks Hc Hlt) as (_ & H & _).
  - repeat constructor; vm_compute; reflexivity.
  - exact H.
Defined.

(** A probe 400 seconds after the last check finds Python; 100 seconds
    later the answer is still [true], without a probe. *)
Lemma health_check_cached_for_100_seconds :
  HEALTH_CHECK_INTERVAL <= 400 * 10 ^ 9 - 0 /\
  500 * 10 ^ 9 - 400 * 10 ^ 9 < HEALTH_CHECK_INTERVAL /\
  let '(answer, s1) := isServiceAvailable (400 * 10 ^ 9) python_found (mkService false 0) in
  answer = true /\
  s1 = mkService true (400 * 10 ^ 9) /\
  isServiceAvailable (500 * 10 ^ 9) PipeFailed s1 = (true, s1) /\
  isServiceAvailable (400 * 10 ^ 9) PipeFailed (mkService false 0)
    = (false, mkService false 0).
Proof.
  assert (H1 : HEALTH_CHECK_INTERVAL <= 400 * 10 ^ 9 - 0) by (vm_compute; discriminate).
  assert (H2 : 500 * 10 ^ 9 - 400 * 10 ^ 9 < HEALTH_CHECK_INTERVAL)
    by (vm_compute; reflexivity).
  split; [exact H1|]. split; [exact H2|].
  pose proof (health_check_verdict_is_cached (400 * 10 ^ 9) (500 * 10 ^ 9)
                (mkService false 0) 0 "Python 3.11.4" PipeFailed H1 H2) as H.
  cbv zeta in H. unfold python_found.
  destruct (isServiceAvailable (400 * 10 ^ 9) (Exited 0 "Python 3.11.4")
              (mkService false 0)) as [answer s1].
  destruct H as (Hanswer & Hs1 & Hcached & Hpipe & _).
  split; [exact Hanswer|]. split; [exact Hs1|]. split; [exact Hcached | exact Hpipe].
Defined.

(** What follows a NUL byte in a chunk of the output is not read: a
    command that writes a NUL byte before its version is found
    unavailable. *)
Lemma nul_byte_hides_version :
  read_output nul_then_version = ""%string /\
  Analyzers.contains "Python" nul_then_version = true /\
  isServiceAvailable (400 * 10 ^ 9) (Exited 0 nul_then_version) (mkService true 0)
    = (false, mkService false (400 * 10 ^ 9)).
Proof. repeat split; vm_compute; reflexivity. Qed.

End EngineSpec.

(** ** The AI engine: metrics, cache lifetime and capacity *)

Module EngineRunSpec.

Import AIEngine EngineService.

Section Runs.

Variable SHA256_hex : string -> string.
Variable iteration_order : gmap string CacheEntry -> list (string * CacheEntry).

Abbreviation evictCacheEntries := (evictCacheEntries iteration_order).
Abbreviation storeInCache := (storeInCache iteration_order).
Abbreviation analyzeCode := (analyzeCode SHA256_hex iteration_order).
Abbreviation run_operation := (run_operation SHA256_hex iteration_order).
Abbreviation run_operations := (run_operations SHA256_hex iteration_order).

(** *** Metrics *)

(** X6.  On an engine whose cache holds successful results only, every
    call of [analyzeCode], whichever way it goes (rejected input, cache
    hit, service call), is counted exactly once in [total_requests], and
    once in [successful_requests] or in [failed_requests] according to the
    [success] flag of the result it returns. *)
Theorem analyzeCode_counts_each_request_once
    (env : Env) (code language file_path : string) (st : Engine) :
  cache_ok (analysis_cache_ st) ->
  let '(r, st', _) := analyzeCode env code language file_path st in
  total_requests (metrics_ st') = size_t_wrap (total_requests (metrics_ st) + 1) /\
  successful_requests (metrics_ st') =
    (if success r then size_t_wrap (successful_requests (metrics_ st) + 1)
     else successful_requests (metrics_ st)) /\
  failed_requests (metrics_ st') =
    (if success r then failed_requests (metrics_ st)
     else size_t_wrap (failed_requests (metrics_ st) + 1)).
Proof.
  intros Hok. unfold AIEngine.analyzeCode.
  destruct (empty code); [done|]. destruct (empty language); [done|].
  destruct (enable_caching (config_ st)).
  - destruct (getFromCache _ _ _) as [[r|] cache'] eqn:Hget.
    + pose proof (CacheSpec.getFromCache_Some _ _ _ r (f_equal fst Hget))
        as (e & He & -> & _).
      simpl. by rewrite (Hok _ e He).
    + destruct (executeWithRetry _ _) as [r0 sleeps]. simpl.
      destruct (success r0); done.
  - destruct (executeWithRetry _ _) as [r0 sleeps]. simpl.
    rewrite andb_false_r. destruct (success r0); done.
Qed.

Lemma updateMetrics_ok duration ok m :
  metrics_ok m -> metrics_ok (updateMetrics duration ok m).
Proof.
  unfold metrics_ok, updateMetrics, size_t_wrap. intros ->.
  destruct ok; simpl.
  - rewrite Zplus_mod_idemp_l.
    rewrite (Zplus_mod_idemp_l (successful_requests m + 1)).
    f_equal. lia.
  - rewrite Zplus_mod_idemp_l.
    rewrite (Zplus_mod_idemp_r (failed_requests m + 1)).
    f_equal. lia.
Qed.

Lemma analyzeCode_metrics_ok env code language file_path st :
  metrics_ok (metrics_ st) ->
  metrics_ok (metrics_ (analyzeCode env code language file_path st).1.2).
Proof.
  intros Hok. unfold AIEngine.analyzeCode.
  destruct (empty code); [by apply updateMetrics_ok|].
  destruct (empty language); [by apply updateMetrics_ok|].
  destruct (enable_caching (config_ st)).
  - destruct (getFromCache _ _ _) as [[r|] cache'].
    + simpl. by apply (updateMetrics_ok (elapsed_hit env) true) in Hok.
    + destruct (executeWithRetry _ _) as [r0 sleeps]. simpl.
      destruct (success r0); simpl;
        by apply (updateMetrics_ok (elapsed_total env) _ (count_cache_miss (metrics_ st))).
  - destruct (executeWithRetry _ _) as [r0 sleeps]. simpl.
    rewrite andb_false_r. by apply updateMetrics_ok.
Qed.

Lemma run_operation_metrics_ok st op :
  metrics_ok (metrics_ st) -> metrics_ok (metrics_ (run_operation st op)).
Proof.
  intros Hok. destruct op; simpl; try done.
  - by apply analyzeCode_metrics_ok.
  - unfold getRecommendations.
    pose proof (analyzeCode_metrics_ok env code language "" st Hok) as H.
    by destruct (analyzeCode env code language "" st) as [[r st'] sl].
  - unfold warmup.
    pose proof (analyzeCode_metrics_ok env "int main() { return 0; }" "cpp" "" st Hok) as H.
    by destruct (analyzeCode env "int main() { return 0; }" "cpp" "" st) as [[r st'] sl].
  - unfold updateConfiguration. by destruct (negb (validate cfg)).
Qed.

(** X7.  Whatever operations are run on an engine, its request counters
    add up: [total_requests] is the sum of [successful_requests] and
    [failed_requests] (as [size_t] values). *)
Theorem request_counters_add_up (cfg : AIEngineConfig) (ops : list operation) :
  let m := metrics_ (run_operations ops (new_engine cfg)) in
  total_requests m = size_t_wrap (successful_requests m + failed_requests m).
Proof.
  simpl. change (metrics_ok (metrics_ (run_operations ops (new_engine cfg)))).
  assert (H : metrics_ok (metrics_ (new_engine cfg))) by done.
  revert H. generalize (new_engine cfg).
  unfold AIEngine.run_operations.
  induction ops as [|op ops IH]; intros st Hok; simpl; [done|].
  by apply IH, run_operation_metrics_ok.
Qed.

(** *** Lifetime of a cache entry *)

(** X8.  A result stored at clock reading [now] is what a lookup of its
    key at [now'] returns, marked [from_cache] and with its access counter
    at 2, as long as [now' - now] does not exceed the TTL of one hour
    (also when the clock has been set back); later than that the lookup
    misses and erases the entry. *)
Theorem stored_result_served_until_ttl (cfg : AIEngineConfig)
    (now now' : Z) (k : string) (r : AIAnalysisResult)
    (cache : gmap string CacheEntry) :
  let cache1 := (storeInCache cfg now k r cache).1 in
  getFromCache now' k cache1 =
  if CACHE_TTL <? now' - now
  then (None, delete k cache1)
  else (Some (set_from_cache true r),
        <[k := mkEntry k (set_from_cache true r) now 2]> cache1).
Proof.
  simpl. unfold getFromCache.
  rewrite CacheSpec.storeInCache_lookup. unfold isExpired. simpl.
  by destruct (CACHE_TTL <? now' - now).
Qed.

Lemma lookups_timestamp times k now : forall cache,
  (forall e, cache !! k = Some e -> timestamp e = now) ->
  forall e, lookups times k cache !! k = Some e -> timestamp e = now.
Proof.
  unfold lookups.
  induction times as [|t times IH]; intros cache Hc; simpl; [done|].
  apply IH. intros e. unfold getFromCache.
  destruct (cache !! k) as [e0|] eqn:Hk; simpl; [|by rewrite Hk].
  destruct (negb (isExpired t e0)); simpl.
  - rewrite lookup_insert_eq. intros [= <-]. simpl. by apply Hc.
  - by rewrite lookup_delete_eq.
Qed.

(** X9.  A cache hit does not renew an entry: however often and whenever
    a stored result has been looked up in between, a lookup made more than
    the TTL after the store misses. *)
Theorem cache_hits_do_not_extend_lifetime (cfg : AIEngineConfig)
    (now now' : Z) (k : string) (r : AIAnalysisResult)
    (cache : gmap string CacheEntry) (times : list Z) :
  CACHE_TTL < now' - now ->
  let cache1 := lookups times k (storeInCache cfg now k r cache).1 in
  (getFromCache now' k cache1).1 = None /\
  (getFromCache now' k cache1).2 !! k = None.
Proof.
  intros Hlate. simpl.
  assert (Hts : forall e,
            lookups times k (storeInCache cfg now k r cache).1 !! k = Some e ->
            timestamp e = now).
  { apply lookups_timestamp. intros e0.
    rewrite CacheSpec.storeInCache_lookup. by intros [= <-]. }
  unfold getFromCache.
  destruct (lookups times k _ !! k) as [e|] eqn:Hk; [|done].
  unfold isExpired. rewrite (Hts e eq_refl).
  apply Z.ltb_lt in Hlate. rewrite Hlate. simpl.
  split; [done | apply lookup_delete_eq].
Qed.

(** *** Capacity *)

Lemma getFromCache_size now k cache :
  (size (getFromCache now k cache).2 <= size cache)%nat.
Proof.
  unfold getFromCache. destruct (cache !! k) as [e|] eqn:Hk; [|done].
  destruct (negb (isExpired now e)); simpl.
  - by rewrite map_size_insert_Some.
  - rewrite map_size_delete_Some by done. lia.
Qed.

Lemma evictCacheEntries_size cache :
  iteration_order cache ≡ₚ map_to_list cache ->
  cache <> ∅ ->
  size (evictCacheEntries cache).1 = pred (size cache).
Proof.
  intros Hperm Hne.
  destruct (CacheSpec.evictCacheEntries_oldest iteration_order cache Hperm Hne)
    as (k & e & -> & Hk & _).
  simpl. by rewrite map_size_delete_Some.
Qed.

Lemma evictCacheEntries_size_le cache :
  (size (evictCacheEntries cache).1 <= size cache)%nat.
Proof.
  destruct (CacheSpec.evictCacheEntries_delete iteration_order cache)
    as [->|[k ->]]; simpl; [done|].
  rewrite map_size_delete. destruct (cache !! k); simpl; lia.
Qed.

Lemma storeInCache_size cfg now k r cache :
  (forall c, iteration_order c ≡ₚ map_to_list c) ->
  (1 <= cache_max_size cfg)%N ->
  (N.of_nat (size cache) <= cache_max_size cfg)%N ->
  (N.of_nat (size (storeInCache cfg now k r cache).1) <= cache_max_size cfg)%N.
Proof.
  intros Hperm Hcap Hsize. unfold AIEngine.storeInCache.
  destruct (cache_max_size cfg <=? N.of_nat (size cache))%N eqn:Hfull.
  - apply N.leb_le in Hfull.
    assert (Hne : cache <> ∅).
    { intros ->. rewrite map_size_empty in Hfull. lia. }
    pose proof (evictCacheEntries_size cache (Hperm cache) Hne) as Hev.
    destruct (evictCacheEntries cache) as [c1 ev]. simpl in *.
    rewrite map_size_insert. destruct (c1 !! k); simpl; lia.
  - apply N.leb_gt in Hfull. simpl.
    rewrite map_size_insert. destruct (cache !! k); simpl; lia.
Qed.

Lemma analyzeCode_size env code language file_path st :
  (forall c, iteration_order c ≡ₚ map_to_list c) ->
  (1 <= cache_max_size (config_ st))%N ->
  (N.of_nat (size (analysis_cache_ st)) <= cache_max_size (config_ st))%N ->
  (N.of_nat (size (analysis_cache_ (analyzeCode env code language file_path st).1.2))
   <= cache_max_size (config_ st))%N.
Proof.
  intros Hperm Hcap Hsize. unfold AIEngine.analyzeCode.
  destruct (empty code); [done|]. destruct (empty language); [done|].
  destruct (enable_caching (config_ st)).
  - pose proof (getFromCache_size (now_lookup env)
      (generateCacheKey SHA256_hex (config_ st) (sanitizeInput code)
         (sanitizeInput language) (sanitizeInput file_path))
      (analysis_cache_ st)) as Hget.
    destruct (getFromCache _ _ _) as [[r|] cache']; simpl in *; [lia|].
    destruct (executeWithRetry _ _) as [r0 sleeps]. simpl.
    destruct (success r0); simpl; [|lia].
    apply storeInCache_size; [done|done|lia].
  - destruct (executeWithRetry _ _) as [r0 sleeps]. simpl.
    by rewrite andb_false_r.
Qed.

Lemma run_operation_size n st op :
  (forall c, iteration_order c ≡ₚ map_to_list c) ->
  (1 <= n)%N ->
  keeps_capacity n op ->
  cache_max_size (config_ st) = n /\
  (N.of_nat (size (analysis_cache_ st)) <= n)%N ->
  cache_max_size (config_ (run_operation st op)) = n /\
  (N.of_nat (size (analysis_cache_ (run_operation st op))) <= n)%N.
Proof.
  intros Hperm Hn Hop [Hcfg Hsize]. subst n. destruct op; simpl.
  - rewrite CacheSpec.analyzeCode_config. split; [done|].
    by apply analyzeCode_size.
  - unfold getRecommendations.
    pose proof (CacheSpec.analyzeCode_config SHA256_hex iteration_order
                  env code language "" st) as Hc.
    pose proof (analyzeCode_size env code language "" st Hperm Hn Hsize) as Hs.
    destruct (analyzeCode env code language "" st) as [[r st'] sl].
    simpl in *. by rewrite Hc.
  - unfold warmup.
    pose proof (CacheSpec.analyzeCode_config SHA256_hex iteration_order
                  env "int main() { return 0; }" "cpp" "" st) as Hc.
    pose proof (analyzeCode_size env "int main() { return 0; }" "cpp" "" st
                  Hperm Hn Hsize) as Hs.
    destruct (analyzeCode env "int main() { return 0; }" "cpp" "" st)
      as [[r st'] sl].
    simpl in *. by rewrite Hc.
  - unfold updateConfiguration. simpl in Hop.
    destruct (negb (validate cfg)); simpl; [done|]. by rewrite Hop.
  - split; [done|]. rewrite map_size_empty. lia.
  - split; [done|].
    pose proof (getFromCache_size now k (analysis_cache_ st)). lia.
  - split; [done|].
    pose proof (evictCacheEntries_size_le (analysis_cache_ st)). lia.
Qed.

(** X10.  With a capacity of at least one entry, on a hash table whose
    iteration visits exactly its entries, the cache never holds more than
    [cache_max_size] entries, whatever operations are run on the engine,
    as long as no configuration update changes the capacity. *)
Theorem cache_never_exceeds_capacity (cfg : AIEngineConfig) (ops : list operation) :
  (forall c, iteration_order c ≡ₚ map_to_list c) ->
  (1 <= cache_max_size cfg)%N ->
  Forall (keeps_capacity (cache_max_size cfg)) ops ->
  (N.of_nat (size (analysis_cache_ (run_operations ops (new_engine cfg))))
   <= cache_max_size cfg)%N.
Proof.
  intros Hperm Hcap Hops.
  assert (H0 : cache_max_size (config_ (new_engine cfg)) = cache_max_size cfg /\
               (N.of_nat (size (analysis_cache_ (new_engine cfg)))
                <= cache_max_size cfg)%N).
  { simpl. rewrite map_size_empty. split; [done|lia]. }
  revert H0. generalize (new_engine cfg).
  unfold AIEngine.run_operations.
  induction Hops as [|op ops Hop _ IH]; intros st Hst; simpl; [by destruct Hst|].
  by apply IH, run_operation_size.
Qed.

(** *** The cache key *)

Lemma append_assoc (a b c : string) : ((a +:+ b) +:+ c = a +:+ (b +:+ c))%string.
Proof.
  induction a as [|x a IH]; [reflexivity|].
  change (String x ((a +:+ b) +:+ c) = String x (a +:+ b +:+ c))%string.
  by rewrite IH.
Qed.

(** X11.  The cache key is the digest of the fields joined by "|": two
    requests whose code and language differ only in where a "|" falls
    between them get the same key, whatever the digest function. *)
Theorem generateCacheKey_ignores_separator_position (cfg : AIEngineConfig)
    (a b c file_path : string) :
  generateCacheKey SHA256_hex cfg (a +:+ "|" +:+ b) c file_path =
  generateCacheKey SHA256_hex cfg a (b +:+ "|" +:+ c) file_path.
Proof.
  unfold generateCacheKey. f_equal.
  by rewrite !append_assoc.
Qed.

(** *** The active configuration *)

Lemma run_operation_validate st op :
  validate (config_ st) = true ->
  validate (config_ (run_operation st op)) = true.
Proof.
  intros Hv. destruct op; simpl; try done.
  - by rewrite CacheSpec.analyzeCode_config.
  - unfold getRecommendations.
    pose proof (CacheSpec.analyzeCode_config SHA256_hex iteration_order
                  env code language "" st) as Hc.
    destruct (analyzeCode env code language "" st) as [[r st'] sl].
    simpl in *. by rewrite Hc.
  - unfold warmup.
    pose proof (CacheSpec.analyzeCode_config SHA256_hex iteration_order
                  env "int main() { return 0; }" "cpp" "" st) as Hc.
    destruct (analyzeCode env "int main() { return 0; }" "cpp" "" st)
      as [[r st'] sl].
    simpl in *. by rewrite Hc.
  - unfold updateConfiguration.
    destruct (validate cfg) eqn:Hcfg; simpl; done.
Qed.

(** X12.  [create] yields an engine exactly when the database manager is
    not null and the configuration validates; the engine starts with that
    configuration, an empty cache and zeroed metrics, and its active
    configuration validates after any sequence of operations. *)
Theorem created_engine_keeps_valid_configuration {DB}
    (db_manager : option DB) (config : AIEngineConfig)
    (now_init now_check now_verify : Z) (p p_verify : probe)
    (ops : list operation) :
  match create db_manager config now_init now_check now_verify p p_verify with
  | Some (engine, _) =>
    db_manager <> None /\ validate config = true /\
    engine = new_engine config /\
    validate (getConfiguration (run_operations ops engine)) = true
  | None => db_manager = None \/ validate config = false
  end.
Proof.
  unfold create, construct.
  destruct db_manager as [db|]; [|by left].
  destruct (validate config) eqn:Hv; simpl; [|by right].
  destruct (isServiceAvailable now_check p _) as [available s]. simpl.
  split; [done|]. split; [done|]. split; [done|].
  assert (H0 : validate (config_ (new_engine config)) = true) by done.
  revert H0. generalize (new_engine config).
  unfold AIEngine.run_operations, getConfiguration.
  induction ops as [|op ops IH]; intros st Hst; simpl; [done|].
  by apply IH, run_operation_validate.
Qed.

End Runs.


(** *** Worked examples *)

Import Scenarios ExtraScenarios.

(** The first request to a new engine, answered by the service. *)
Lemma first_request_counted_as_success :
  cache_ok (analysis_cache_ (new_engine default_config)) /\
  let '(r, st', _) :=
    AIEngine.analyzeCode ideal_digest bucket_order (env_at 0 service_up)
      "int a;" "cpp" "" (new_engine default_config) in
  total_requests (metrics_ st') =
    size_t_wrap (total_requests (metrics_ (new_engine default_config)) + 1) /\
  successful_requests (metrics_ st') =
    (if success r
     then size_t_wrap (successful_requests (metrics_ (new_engine default_config)) + 1)
     else successful_requests (metrics_ (new_engine default_config))) /\
  failed_requests (metrics_ st') =
    (if success r then failed_requests (metrics_ (new_engine default_config))
     else size_t_wrap (failed_requests (metrics_ (new_engine default_config)) + 1)).
Proof.
  assert (Hok : cache_ok (analysis_cache_ (new_engine default_config)))
    by apply map_Forall_empty.
  split; [exact Hok|].
  exact (analyzeCode_counts_each_request_once ideal_digest bucket_order
           (env_at 0 service_up) "int a;" "cpp" "" (new_engine default_config) Hok).
Defined.

(** Three hits within the hour, then a lookup one tick after the hour. *)
Lemma entry_expires_despite_hits :
  CACHE_TTL < CACHE_TTL + 1 - 0 /\
  let cache1 :=
    lookups [10 ^ 9; 2 * 10 ^ 9; CACHE_TTL] "k"
      (AIEngine.storeInCache bucket_order default_config 0 "k" answer ∅).1 in
  (getFromCache (CACHE_TTL + 1) "k" cache1).1 = None /\
  (getFromCache (CACHE_TTL + 1) "k" cache1).2 !! "k"%string = None.
Proof.
  assert (Hlate : CACHE_TTL < CACHE_TTL + 1 - 0) by lia.
  split; [exact Hlate|].
  exact (cache_hits_do_not_extend_lifetime bucket_order default_config 0
           (CACHE_TTL + 1) "k" answer ∅ [10 ^ 9; 2 * 10 ^ 9; CACHE_TTL] Hlate).
Defined.

(** Two requests to an engine with room for one result. *)
Lemma one_entry_cache_stays_at_one :
  (forall c, bucket_order c ≡ₚ map_to_list c) /\
  (1 <= cache_max_size (with_capacity 1))%N /\
  Forall (keeps_capacity (cache_max_size (with_capacity 1))) two_requests /\
  (N.of_nat (size (analysis_cache_
     (AIEngine.run_operations ideal_digest bucket_order two_requests
        (new_engine (with_capacity 1)))))
   <= cache_max_size (with_capacity 1))%N.
Proof.
  assert (H1 : forall c, bucket_order c ≡ₚ map_to_list c) by done.
  assert (H2 : (1 <= cache_max_size (with_capacity 1))%N) by (simpl; lia).
  assert (H3 : Forall (keeps_capacity (cache_max_size (with_capacity 1))) two_requests)
    by (repeat constructor).
  split; [exact H1|]. split; [exact H2|]. split; [exact H3|].
  exact (cache_never_exceeds_capacity ideal_digest bucket_order (with_capacity 1)
           two_requests H1 H2 H3).
Defined.

End EngineRunSpec.

(** ** Directory scans: what holds under every cancellation and failure *)

Module ScanRobustnessSpec.

Import Analyzers AnalysisManager.

#[local] Arguments AnalysisManager.analyzeFile : simpl never.

Section Robustness.

Variable fs : filesystem.
Variable analyzers_ : list (string * BaseAnalyzer).
Variable ai_available : bool.
Variable enhanceAnalysis :
  list AnalysisResult -> string -> string -> outcome (list AnalysisResult).

Abbreviation analyzeFile := (analyzeFile fs analyzers_ ai_available enhanceAnalysis).
Abbreviation scan := (scan fs analyzers_ ai_available enhanceAnalysis).
Abbreviation analyzeDirectory :=
  (analyzeDirectory fs analyzers_ ai_available enhanceAnalysis).
Abbreviation worker_step := (worker_step fs analyzers_ ai_available enhanceAnalysis).
Abbreviation pool_step := (pool_step fs analyzers_ ai_available enhanceAnalysis).
Abbreviation run_pool := (run_pool fs analyzers_ ai_available enhanceAnalysis).
Abbreviation collect_files := (collect_files analyzers_).
Abbreviation getAnalyzerForFile := (getAnalyzerForFile analyzers_).
Abbreviation has_analyzer := (has_analyzer analyzers_).
Abbreviation analyzeDirectoryParallel :=
  (analyzeDirectoryParallel fs analyzers_ ai_available enhanceAnalysis).

(** *** The serial scan *)

(** The loop only adds entries for regular files of the directory. *)
Lemma scan_keys flag es : forall dir_end reads m0 p f,
  (scan flag dir_end reads es m0).1 !! p = Some f ->
  p ∈ regular_files es \/ m0 !! p = Some f.
Proof.
  induction es as [|e es IH]; intros dir_end reads m0 p f Hp; [by right|].
  rewrite ScanSpec.scan_cons in Hp. rewrite ScanSpec.regular_files_cons.
  destruct (flag reads); [by right|].
  destruct (is_regular_file e).
  - destruct (analyzeFile (flag (S reads)) (path e)) as [fr|exn].
    + apply IH in Hp as [Hp|Hp]; [left; by apply list_elem_of_further|].
      destruct (decide (fr = [])); [by right|].
      destruct (decide (path e = p)) as [<-|Hne].
      * left. apply list_elem_of_here.
      * right. by rewrite lookup_insert_ne in Hp.
    + destruct (is_recoverable exn); [|by right].
      apply IH in Hp as [Hp|Hp]; [left; by apply list_elem_of_further | by right].
  - by apply IH in Hp.
Qed.

(** X13.  [analyzeDirectory] never throws: whatever the directory holds,
    whatever the analyzers and the AI engine raise, whenever the scan is
    cancelled and even when walking the directory fails, it returns a map,
    and every entry of that map is the findings that [analyzeFile] returns
    for a regular file of the directory. *)
Theorem serial_scan_never_throws (flag : nat -> bool) (dir : directory) :
  exists m,
    analyzeDirectory flag dir = Return m /\
    forall p f, m !! p = Some f ->
      p ∈ regular_files (entries dir) /\ analyzeFile false p = Return f.
Proof.
  eexists. split; [apply ScanSpec.analyzeDirectory_returns|].
  intros p f Hp. split.
  - apply scan_keys in Hp as [Hp|Hp]; [done|].
    by rewrite lookup_empty in Hp.
  - pose proof (ScanSpec.scan_consistent fs analyzers_ ai_available enhanceAnalysis
                  flag (entries dir) (end_of_iteration dir) 0 ∅
                  (ScanSpec.consistent_empty _ _ _ _) p f Hp) as Hrec.
    by apply ScanSpec.recorded_Some in Hrec as [Hret _].
Qed.

(** *** The parallel scan *)

Lemma collect_files_sound es : forall dir_end files,
  collect_files dir_end es = Return files ->
  (length files <= length es)%nat /\
  forall p, p ∈ files -> p ∈ regular_files es /\ has_analyzer p = true.
Proof.
  induction es as [|e es IH]; intros dir_end files Hc; simpl in Hc.
  - destruct dir_end; simpl in Hc; [|done]. injection Hc as <-.
    split; [done|]. intros p Hp. by apply elem_of_nil in Hp.
  - rewrite ScanSpec.regular_files_cons.
    destruct (is_regular_file e); [|].
    + unfold AnalysisManager.has_analyzer.
      destruct (getAnalyzerForFile (path e)) as [a|exn] eqn:Ha; simpl in Hc; [|done].
      destruct (collect_files dir_end es) as [files'|exn] eqn:Hrest; simpl in Hc; [|done].
      destruct (IH dir_end files' Hrest) as [Hlen Hin].
      injection Hc as <-. destruct a as [a|].
      * split; [simpl; lia|]. intros p Hp.
        apply elem_of_cons in Hp as [->|Hp].
        -- split; [apply list_elem_of_here | by rewrite Ha].
        -- destruct (Hin p Hp) as [H1 H2].
           split; [by apply list_elem_of_further | done].
      * split; [simpl; lia|]. intros p Hp.
        destruct (Hin p Hp) as [H1 H2].
        split; [by apply list_elem_of_further | done].
    + destruct (IH dir_end files Hc) as [Hlen Hin].
      split; [simpl; lia | done].
Qed.

Lemma pool_step_keys flag files p w :
  (forall file f, all_results p !! file = Some f -> file ∈ files) ->
  forall file f, all_results (pool_step flag files p w) !! file = Some f ->
    file ∈ files.
Proof.
  intros Hp file f. unfold AnalysisManager.pool_step.
  destruct (workers p !! w) as [pc|]; [|apply Hp].
  destruct pc; simpl; try apply Hp.
  destruct (files !! index) as [file0|] eqn:Hidx; simpl; [|apply Hp].
  destruct (analyzeFile (flag (ticks p)) file0) as [fr|exn]; simpl.
  - destruct (decide (fr = [])); [apply Hp|].
    destruct (decide (file0 = file)) as [<-|Hne].
    + intros _. by eapply list_elem_of_lookup_2.
    + rewrite lookup_insert_ne by done. apply Hp.
  - destruct (is_std_exception exn); simpl; apply Hp.
Qed.

Lemma run_pool_keys flag files schedule : forall p,
  (forall file f, all_results p !! file = Some f -> file ∈ files) ->
  forall file f, all_results (run_pool flag files schedule p) !! file = Some f ->
    file ∈ files.
Proof.
  unfold AnalysisManager.run_pool.
  induction schedule as [|w schedule IH]; intros p Hp; simpl; [done|].
  by apply IH, pool_step_keys.
Qed.

(** Once the file list is collected, the workers run to their end under
    every interleaving that gives each of them its steps, and the map they
    leave holds findings of listed files only. *)
Lemma parallel_scan_of_collected
    (flag : nat -> bool) (dir : directory) (max_threads : Z)
    (schedule : list nat) (files : list string) :
  collect_files (end_of_iteration dir) (entries dir) = Return files ->
  (forall w, (w < Z.to_nat max_threads)%nat ->
     (3 * length (entries dir) + 2 <= count_occ Nat.eq_dec schedule w)%nat) ->
  exists m,
    analyzeDirectoryParallel flag dir max_threads schedule = Some (Return m) /\
    forall p f, m !! p = Some f ->
      p ∈ regular_files (entries dir) /\ has_analyzer p = true /\
      analyzeFile false p = Return f.
Proof.
  intros Hfiles Hfair. unfold AnalysisManager.analyzeDirectoryParallel.
  rewrite Hfiles.
  destruct (collect_files_sound _ _ _ Hfiles) as [Hlen Hin].
  rewrite (ScanSpec.run_pool_all_finished fs analyzers_ ai_available
             enhanceAnalysis flag files schedule max_threads
             (Z.to_nat max_threads)).
  - eexists. split; [reflexivity|]. intros p f Hp.
    assert (Hfile : p ∈ files).
    { eapply run_pool_keys; [|exact Hp]. simpl. intros file f0 H0.
      by rewrite lookup_empty in H0. }
    destruct (Hin p Hfile) as [Hreg Hhas]. split; [done|]. split; [done|].
    pose proof (ScanSpec.run_pool_consistent fs analyzers_ ai_available
                  enhanceAnalysis flag files schedule
                  (initial_pool max_threads files)
                  (ScanSpec.consistent_empty _ _ _ _) p f Hp) as Hrec.
    by apply ScanSpec.recorded_Some in Hrec as [Hret _].
  - simpl. rewrite length_replicate. unfold num_threads. lia.
  - intros w Hw. specialize (Hfair w Hw). lia.
Qed.

Lemma run_pool_no_workers flag files schedule : forall p,
  workers p = [] -> run_pool flag files schedule p = p.
Proof.
  unfold AnalysisManager.run_pool.
  induction schedule as [|w schedule IH]; intros p Hp; simpl; [done|].
  unfold AnalysisManager.pool_step at 2. rewrite Hp. simpl. by apply IH.
Qed.

(** X15.  With [max_threads <= 0] no worker is started: when the file list
    has been collected, [analyzeDirectoryParallel] returns the empty map
    without analysing any file, whatever the directory holds. *)
Theorem parallel_scan_without_workers_is_empty
    (flag : nat -> bool) (dir : directory) (max_threads : Z)
    (schedule : list nat) (files : list string) :
  max_threads <= 0 ->
  collect_files (end_of_iteration dir) (entries dir) = Return files ->
  analyzeDirectoryParallel flag dir max_threads schedule = Some (Return ∅).
Proof.
  intros Hmax Hfiles. unfold AnalysisManager.analyzeDirectoryParallel.
  rewrite Hfiles.
  assert (Hnone : workers (initial_pool max_threads files) = []).
  { simpl. unfold num_threads.
    replace (Z.to_nat (Z.min max_threads (int_wrap (Z.of_nat (length files)))))
      with 0%nat by lia.
    done. }
  rewrite run_pool_no_workers by done.
  unfold all_finished. rewrite Hnone. done.
Qed.

(** *** Scans started while cancelled *)

(** While the flag is up, a worker that takes a step returns, and nothing
    is recorded. *)
Lemma pool_step_cancelled files p w :
  all_results p = ∅ ->
  Forall (fun pc => pc = AtLoopTest \/ pc = Finished) (workers p) ->
  let p' := pool_step (cancelled_from 0) files p w in
  all_results p' = ∅ /\
  Forall (fun pc => pc = AtLoopTest \/ pc = Finished) (workers p') /\
  (forall v, workers p !! v = Some Finished -> workers p' !! v = Some Finished) /\
  ((w < length (workers p))%nat -> workers p' !! w = Some Finished).
Proof.
  intros Hres Hidle. cbv zeta. unfold AnalysisManager.pool_step.
  destruct (workers p !! w) as [pc|] eqn:Hw.
  - assert (Hw' : (w < length (workers p))%nat) by (by eapply lookup_lt_Some).
    assert (Hpc : pc = AtLoopTest \/ pc = Finished).
    { rewrite Forall_lookup in Hidle. by apply (Hidle w). }
    assert (Hkeep : forall v, workers p !! v = Some Finished ->
              <[w := Finished]> (workers p) !! v = Some Finished).
    { intros v Hv. destruct (decide (w = v)) as [->|Hne].
      - by apply list_lookup_insert_eq.
      - by rewrite list_lookup_insert_ne. }
    destruct Hpc as [-> | ->]; cbn [AnalysisManager.worker_step all_results workers];
      (split; [done|]); (split; [apply Forall_insert; [done | by right]|]);
      (split; [exact Hkeep | intros _; by apply list_lookup_insert_eq]).
  - split; [done|]. split; [done|]. split; [done|].
    intros Hlt. apply lookup_ge_None in Hw. lia.
Qed.

Lemma run_pool_cancelled files schedule : forall p,
  all_results p = ∅ ->
  Forall (fun pc => pc = AtLoopTest \/ pc = Finished) (workers p) ->
  let p' := run_pool (cancelled_from 0) files schedule p in
  all_results p' = ∅ /\
  forall w, (w < length (workers p))%nat ->
    w ∈ schedule \/ workers p !! w = Some Finished ->
    workers p' !! w = Some Finished.
Proof.
  unfold AnalysisManager.run_pool.
  induction schedule as [|w0 schedule IH]; intros p Hres Hidle; cbn [foldl].
  - split; [done|]. intros w _ [Hin|Hfin]; [by apply elem_of_nil in Hin | done].
  - destruct (pool_step_cancelled files p w0 Hres Hidle)
      as (Hres1 & Hidle1 & Hkeep & Hdone).
    destruct (IH _ Hres1 Hidle1) as [Hres2 Hfin2].
    split; [exact Hres2|]. intros w Hw Hcase.
    apply Hfin2; [by rewrite ScanSpec.pool_step_length|].
    destruct (decide (w = w0)) as [->|Hne]; [right; by apply Hdone|].
    destruct Hcase as [Hin|Hfin]; [|right; by apply Hkeep].
    left. apply elem_of_cons in Hin as [?|?]; done.
Qed.

(** Started with the flag up, the workers return at their first step. *)
Lemma parallel_scan_cancelled_of_collected
    (dir : directory) (max_threads : Z) (schedule : list nat) (files : list string) :
  collect_files (end_of_iteration dir) (entries dir) = Return files ->
  (forall w, (w < Z.to_nat max_threads)%nat ->
     (1 <= count_occ Nat.eq_dec schedule w)%nat) ->
  analyzeDirectoryParallel (cancelled_from 0) dir max_threads schedule
    = Some (Return ∅).
Proof.
  intros Hfiles Hfair. unfold AnalysisManager.analyzeDirectoryParallel.
  rewrite Hfiles.
  destruct (run_pool_cancelled files schedule (initial_pool max_threads files))
    as [Hres Hfin]; [done | simpl; apply Forall_replicate; by left |].
  cbv zeta in Hres, Hfin. rewrite Hres.
  assert (Hall : all_finished (run_pool (cancelled_from 0) files schedule
                                 (initial_pool max_threads files)) = true).
  { unfold all_finished. apply forallb_forall. intros pc Hin.
    apply list_elem_of_In, list_elem_of_lookup in Hin as [w Hw].
    assert (Hlt : (w < length (workers (initial_pool max_threads files)))%nat).
    { rewrite <- (ScanSpec.run_pool_length fs analyzers_ ai_available enhanceAnalysis
                    (cancelled_from 0) files schedule).
      by eapply lookup_lt_Some. }
    rewrite Hfin in Hw; [by injection Hw as <- | exact Hlt |].
    left. apply list_elem_of_In, (count_occ_In Nat.eq_dec).
    assert (w < Z.to_nat max_threads)%nat.
    { simpl in Hlt. rewrite length_replicate in Hlt. unfold num_threads in Hlt. lia. }
    specialize (Hfair w ltac:(done)). lia. }
  by rewrite Hall.
Qed.

(** *** One worker and a failing file *)

Abbreviation consistent := (consistent fs analyzers_ ai_available enhanceAnalysis).

Lemma analyzeFile_throws_std c file e :
  analyzeFile c file = Throw e -> is_std_exception e = true.
Proof.
  intros He.
  apply (ScanSpec.analyzeFile_throws fs analyzers_ ai_available enhanceAnalysis) in He.
  by destruct e.
Qed.

Lemma lone_worker_step files p pc :
  workers p = [pc] ->
  pool_step never_cancelled files p 0 =
  let '(pc', p') := worker_step never_cancelled files pc p in
  mkPool (current_index p') (has_errors p') (all_results p') [pc'] (ticks p').
Proof.
  intros Hw. unfold AnalysisManager.pool_step. rewrite Hw. cbn [lookup list_lookup].
  pose proof (ScanSpec.worker_step_workers fs analyzers_ ai_available enhanceAnalysis
                never_cancelled files pc p) as Hws.
  destruct (worker_step never_cancelled files pc p) as [pc' p'].
  cbn [snd] in Hws. by rewrite Hws, Hw.
Qed.

Lemma run_pool_cons flag files w schedule p :
  run_pool flag files (w :: schedule) p =
  run_pool flag files schedule (pool_step flag files p w).
Proof. reflexivity. Qed.

(** The three steps of a lone worker on a file whose analysis returns. *)
Lemma lone_worker_round files p file r :
  workers p = [AtLoopTest] -> has_errors p = false ->
  files !! current_index p = Some file ->
  analyzeFile false file = Return r ->
  let p' := run_pool never_cancelled files [0; 0; 0]%nat p in
  workers p' = [AtLoopTest] /\ has_errors p' = false /\
  current_index p' = S (current_index p) /\
  all_results p' = (if decide (r = []) then all_results p
                    else <[file := r]> (all_results p)).
Proof.
  intros Hw He Hfile Hr.
  assert (Hlt : (length files <=? current_index p)%nat = false).
  { apply Nat.leb_gt. by eapply lookup_lt_Some. }
  cbv zeta.
  rewrite run_pool_cons, (lone_worker_step files p AtLoopTest Hw).
  cbn [AnalysisManager.worker_step]. rewrite He.
  change (never_cancelled (ticks p)) with false.
  cbn [negb andb current_index has_errors all_results ticks].
  rewrite run_pool_cons. erewrite lone_worker_step; [|reflexivity].
  cbn [AnalysisManager.worker_step current_index has_errors all_results ticks].
  rewrite Hlt.
  rewrite run_pool_cons. erewrite lone_worker_step; [|reflexivity].
  cbn [AnalysisManager.worker_step current_index has_errors all_results ticks].
  rewrite Hfile.
  change (never_cancelled (S (S (ticks p)))) with false. rewrite Hr.
  cbn [workers current_index has_errors all_results ticks].
  done.
Qed.

(** The four steps of a lone worker on a file whose analysis throws. *)
Lemma lone_worker_failure files p file e :
  workers p = [AtLoopTest] -> has_errors p = false ->
  files !! current_index p = Some file ->
  analyzeFile false file = Throw e ->
  let p' := run_pool never_cancelled files [0; 0; 0; 0]%nat p in
  workers p' = [Finished] /\ all_results p' = all_results p.
Proof.
  intros Hw He Hfile Hr.
  assert (Hlt : (length files <=? current_index p)%nat = false).
  { apply Nat.leb_gt. by eapply lookup_lt_Some. }
  pose proof (analyzeFile_throws_std false file e Hr) as Hstd.
  cbv zeta.
  rewrite run_pool_cons, (lone_worker_step files p AtLoopTest Hw).
  cbn [AnalysisManager.worker_step]. rewrite He.
  change (never_cancelled (ticks p)) with false.
  cbn [negb andb current_index has_errors all_results ticks].
  rewrite run_pool_cons. erewrite lone_worker_step; [|reflexivity].
  cbn [AnalysisManager.worker_step current_index has_errors all_results ticks].
  rewrite Hlt.
  rewrite run_pool_cons. erewrite lone_worker_step; [|reflexivity].
  cbn [AnalysisManager.worker_step current_index has_errors all_results ticks].
  rewrite Hfile.
  change (never_cancelled (S (S (ticks p)))) with false. rewrite Hr, Hstd.
  cbn [workers current_index has_errors all_results ticks].
  rewrite run_pool_cons. erewrite lone_worker_step; [|reflexivity].
  cbn [AnalysisManager.worker_step current_index has_errors all_results ticks].
  rewrite andb_false_r. done.
Qed.

Lemma lone_worker_finished files n : forall p,
  workers p = [Finished] ->
  run_pool never_cancelled files (replicate n 0%nat) p = p.
Proof.
  unfold AnalysisManager.run_pool.
  induction n as [|n IH]; intros p Hw; [done|].
  cbn [replicate foldl].
  assert (Hstep : pool_step never_cancelled files p 0 = p).
  { rewrite (lone_worker_step files p Finished Hw). cbn [AnalysisManager.worker_step].
    rewrite <- Hw. by destruct p. }
  rewrite Hstep. by apply IH.
Qed.

Lemma lone_worker_run files bad post e k pre : forall p,
  files = take (current_index p) files ++ pre ++ bad :: post ->
  (current_index p <= length files)%nat ->
  workers p = [AtLoopTest] -> has_errors p = false ->
  consistent (all_results p) ->
  (forall file, file ∈ pre -> exists r, analyzeFile false file = Return r) ->
  analyzeFile false bad = Throw e ->
  let p' := run_pool never_cancelled files
              (replicate (3 * length pre + 4 + k) 0%nat) p in
  workers p' = [Finished] /\
  forall file, all_results p' !! file =
    if decide (file ∈ pre) then recorded (analyzeFile false file)
    else all_results p !! file.
Proof.
  induction pre as [|f pre IH]; intros p Hfiles Hidx Hw He Hcons Hret Hbad.
  - assert (Hfile : files !! current_index p = Some bad).
    { rewrite Hfiles at 1. rewrite lookup_app_r by (rewrite length_take; lia).
      rewrite length_take. by replace (current_index p - _)%nat with 0%nat by lia. }
    destruct (lone_worker_failure files p bad e Hw He Hfile Hbad) as [Hw' Hres].
    cbn [length app]. change (3 * 0 + 4 + k)%nat with (4 + k)%nat.
    rewrite (replicate_add 4 k). cbv zeta.
    change (replicate 4 0%nat) with [0; 0; 0; 0]%nat.
    unfold AnalysisManager.run_pool. rewrite foldl_app.
    fold (run_pool never_cancelled files [0; 0; 0; 0]%nat p).
    fold (run_pool never_cancelled files (replicate k 0%nat)
            (run_pool never_cancelled files [0; 0; 0; 0]%nat p)).
    rewrite lone_worker_finished by exact Hw'.
    split; [exact Hw'|]. intros file.
    destruct (decide (file ∈ [])) as [Hin|_]; [by apply elem_of_nil in Hin|].
    by rewrite Hres.
  - assert (Hfile : files !! current_index p = Some f).
    { rewrite Hfiles at 1. rewrite lookup_app_r by (rewrite length_take; lia).
      rewrite length_take. by replace (current_index p - _)%nat with 0%nat by lia. }
    destruct (Hret f) as [r Hr]; [apply list_elem_of_here|].
    destruct (lone_worker_round files p f r Hw He Hfile Hr)
      as (Hw' & He' & Hidx' & Hres').
    cbn [length]. replace (3 * S (length pre) + 4 + k)%nat
      with (3 + (3 * length pre + 4 + k))%nat by lia.
    rewrite (replicate_add 3). cbv zeta.
    change (replicate 3 0%nat) with [0; 0; 0]%nat.
    unfold AnalysisManager.run_pool. rewrite foldl_app.
    fold (run_pool never_cancelled files [0; 0; 0]%nat p).
    fold (run_pool never_cancelled files (replicate (3 * length pre + 4 + k) 0%nat)
            (run_pool never_cancelled files [0; 0; 0]%nat p)).
    set (p1 := run_pool never_cancelled files [0; 0; 0]%nat p) in *.
    assert (Hlen : (S (current_index p) <= length files)%nat).
    { apply lookup_lt_Some in Hfile. lia. }
    destruct (IH p1) as [Hfin Hlook].
    + rewrite Hidx'. rewrite (take_S_r _ _ f) by done.
      rewrite <- app_assoc. exact Hfiles.
    + rewrite Hidx'. lia.
    + exact Hw'.
    + exact He'.
    + rewrite Hres'. destruct (decide (r = [])); [done|].
      by apply ScanSpec.consistent_insert.
    + intros file Hin. apply Hret. by apply list_elem_of_further.
    + exact Hbad.
    + split; [exact Hfin|]. intros file. rewrite Hlook, Hres'.
      destruct (decide (file ∈ pre)) as [Hin|Hnin].
      * destruct (decide (file ∈ f :: pre)) as [_|Hn]; [done|].
        exfalso. apply Hn. by apply list_elem_of_further.
      * destruct (decide (file = f)) as [->|Hne].
        -- destruct (decide (f ∈ f :: pre)) as [_|Hn];
             [|exfalso; apply Hn, list_elem_of_here].
           rewrite Hr, ScanSpec.recorded_Return.
           destruct (decide (r = [])).
           ++ destruct (all_results p !! f) as [x|] eqn:Hx; [|done].
              apply Hcons in Hx. rewrite Hr, ScanSpec.recorded_Return in Hx.
              by rewrite decide_True in Hx.
           ++ by rewrite lookup_insert_eq.
        -- destruct (decide (file ∈ f :: pre)) as [Hin|_].
           { apply elem_of_cons in Hin as [?|?]; done. }
           destruct (decide (r = [])); [done|].
           by rewrite lookup_insert_ne.
Qed.

(** X17.  Fail-fast with one worker: when the analysis of a file throws,
    the parallel scan run with [max_threads = 1] returns the findings of
    the files listed before it and analyses none of the files listed
    after it. *)
Theorem single_worker_scan_stops_at_first_failure
    (dir : directory) (pre post : list string) (bad : string)
    (e : exception) (n : nat) :
  collect_files (end_of_iteration dir) (entries dir) = Return (pre ++ bad :: post) ->
  Z.of_nat (length (pre ++ bad :: post)) <= INT_MAX ->
  (forall file, file ∈ pre -> exists r, analyzeFile false file = Return r) ->
  analyzeFile false bad = Throw e ->
  (3 * length pre + 4 <= n)%nat ->
  exists m,
    analyzeDirectoryParallel never_cancelled dir 1 (replicate n 0%nat)
      = Some (Return m) /\
    forall file, m !! file =
      if decide (file ∈ pre) then recorded (analyzeFile false file) else None.
Proof.
  intros Hfiles Hmax Hret Hbad Hn.
  unfold AnalysisManager.analyzeDirectoryParallel. rewrite Hfiles.
  set (files := pre ++ bad :: post) in *.
  assert (Hone : initial_pool 1 files = mkPool 0 false ∅ [AtLoopTest] 0).
  { unfold initial_pool, num_threads.
    rewrite int_wrap_small.
    - replace (Z.to_nat (Z.min 1 (Z.of_nat (length files)))) with 1%nat; [done|].
      unfold files. rewrite length_app. simpl. lia.
    - unfold INT_MAX in *. lia. }
  rewrite Hone.
  destruct (lone_worker_run files bad post e (n - (3 * length pre + 4)) pre
              (mkPool 0 false ∅ [AtLoopTest] 0)) as [Hfin Hlook].
  { reflexivity. }
  { cbn [current_index]. lia. }
  { reflexivity. }
  { reflexivity. }
  { apply ScanSpec.consistent_empty. }
  { exact Hret. }
  { exact Hbad. }
  replace (3 * length pre + 4 + (n - (3 * length pre + 4)))%nat with n in * by lia.
  unfold all_finished. rewrite Hfin. cbn [forallb].
  eexists. split; [reflexivity|]. intros file. rewrite Hlook.
  by destruct (decide (file ∈ pre)).
Qed.

End Robustness.


(** *** Worked examples *)

Import ScanScenarios.

(** The project scanned with [max_threads = 0]. *)
Lemma project_parallel_scan_without_workers :
  0 <= 0 /\
  AnalysisManager.collect_files registry (end_of_iteration project) (entries project)
    = Return ["proj/a.cpp"; "proj/b.cpp"; "proj/src/c.java"; "proj/src/clean.cpp"]%string /\
  AnalysisManager.analyzeDirectoryParallel project_fs registry false no_enhancement
    never_cancelled project 0 [] = Some (Return ∅).
Proof.
  assert (Hfiles : AnalysisManager.collect_files registry (end_of_iteration project)
                     (entries project)
                   = Return ["proj/a.cpp"; "proj/b.cpp"; "proj/src/c.java";
                             "proj/src/clean.cpp"]%string)
    by (vm_compute; reflexivity).
  split; [lia|]. split; [exact Hfiles|].
  exact (parallel_scan_without_workers_is_empty project_fs registry false
           no_enhancement never_cancelled project 0 [] _ ltac:(lia) Hfiles).
Defined.

(** One worker on [b.cpp], the unreadable [a.cpp] and [c.java], with an
    engine that raises on the unreadable file: [c.java] is not analysed. *)
Lemma three_files_single_worker_scan :
  AnalysisManager.collect_files registry (end_of_iteration three_files)
    (entries three_files)
    = Return (["proj/b.cpp"%string] ++ "proj/a.cpp"%string :: ["proj/src/c.java"%string]) /\
  AnalysisManager.analyzeFile project_fs registry true strict_enhancement false
    "proj/a.cpp" = Throw (FileSystemException "Cannot read file - File: proj/a.cpp") /\
  exists m,
    AnalysisManager.analyzeDirectoryParallel project_fs registry true
      strict_enhancement never_cancelled three_files 1 (replicate 7 0%nat)
      = Some (Return m) /\
    m !! "proj/src/c.java"%string = None /\
    forall file, m !! file =
      if decide (file ∈ ["proj/b.cpp"%string])
      then recorded (AnalysisManager.analyzeFile project_fs registry true
                       strict_enhancement false file)
      else None.
Proof.
  assert (Hfiles : AnalysisManager.collect_files registry
                     (end_of_iteration three_files) (entries three_files)
                   = Return (["proj/b.cpp"%string] ++ "proj/a.cpp"%string :: ["proj/src/c.java"%string]))
    by (vm_compute; reflexivity).
  assert (Hbad : AnalysisManager.analyzeFile project_fs registry true
                   strict_enhancement false "proj/a.cpp"
                 = Throw (FileSystemException "Cannot read file - File: proj/a.cpp"))
    by (vm_compute; reflexivity).
  split; [exact Hfiles|]. split; [exact Hbad|].
  destruct (single_worker_scan_stops_at_first_failure project_fs registry true
              strict_enhancement three_files ["proj/b.cpp"%string]
              ["proj/src/c.java"%string] "proj/a.cpp"
              (FileSystemException "Cannot read file - File: proj/a.cpp") 7 Hfiles)
    as (m & Hm & Hlook).
  - vm_compute. discriminate.
  - intros file Hin. apply list_elem_of_singleton in Hin as ->.
    eexists. vm_compute. reflexivity.
  - exact Hbad.
  - simpl. lia.
  - exists m. split; [exact Hm|]. split; [|exact Hlook].
    rewrite Hlook. by rewrite decide_False by (by intros ?%list_elem_of_singleton).
Defined.

End ScanRobustnessSpec.

(** ** Dispatch on the file extension *)

Module DispatchSpec.

Import Analyzers AnalysisManager.

Lemma substring_all s : String.substring 0 (String.length s) s = s.
Proof. induction s as [|c s IH]; simpl; [done | by rewrite IH]. Qed.

(** [JavaScriptAnalyzer::isSupportedFile] tests the three-character
    extension [.js] first and the four-character [.jsx] next: on a path of
    three characters other than [.js] the second [substr] is out of
    range. *)
Lemma ends_with_returns ext path :
  (String.length ext <= String.length path)%nat ->
  JavaScriptAnalyzer.ends_with ext path =
  Return (String.eqb
            (String.substring (String.length path - String.length ext)
               (String.length ext) path) ext).
Proof.
  intros Hle. unfold JavaScriptAnalyzer.ends_with, JavaScriptAnalyzer.substr_from_end.
  apply Nat.leb_le in Hle. by rewrite Hle.
Qed.

Lemma ends_with_throws ext path :
  (String.length path < String.length ext)%nat ->
  JavaScriptAnalyzer.ends_with ext path = Throw (std_exception "basic_string::substr").
Proof.
  intros Hlt. unfold JavaScriptAnalyzer.ends_with, JavaScriptAnalyzer.substr_from_end.
  apply Nat.leb_gt in Hlt. by rewrite Hlt.
Qed.

(** [JavaScriptAnalyzer::isSupportedFile] tests the three-character
    extension [.js] first and the four-character [.jsx] next: on a path of
    three characters other than [.js] the second [substr] is out of
    range. *)
Lemma JavaScript_isSupportedFile_cases (file : string) :
  (String.length file = 3%nat /\ file <> ".js"%string /\
   JavaScriptAnalyzer.isSupportedFile file =
     Throw (std_exception "basic_string::substr")) \/
  (~ (String.length file = 3%nat /\ file <> ".js"%string) /\
   exists b, JavaScriptAnalyzer.isSupportedFile file = Return b).
Proof.
  unfold JavaScriptAnalyzer.isSupportedFile.
  destruct (3 <=? String.length file)%nat eqn:H3.
  - apply Nat.leb_le in H3.
    destruct (decide (4 <= String.length file)%nat) as [H4|H4].
    + right. split; [lia|].
      rewrite !ends_with_returns by (simpl; lia).
      unfold JavaScriptAnalyzer.orelse, bind.
      repeat match goal with
             | |- context [if ?b then _ else _] => destruct b
             end; eauto.
    + assert (Hlen : String.length file = 3%nat) by lia.
      rewrite (ends_with_returns ".js") by (simpl; lia).
      rewrite (ends_with_throws ".jsx") by (simpl; lia).
      change (String.length ".js") with 3%nat.
      assert (Hsub : String.substring (String.length file - 3) 3 file = file).
      { rewrite Hlen, Nat.sub_diag. rewrite <- Hlen. apply substring_all. }
      rewrite Hsub.
      unfold JavaScriptAnalyzer.orelse, bind.
      destruct (String.eqb file ".js") eqn:Hjs.
      * apply String.eqb_eq in Hjs. right. split; [tauto | eauto].
      * apply String.eqb_neq in Hjs. left. done.
  - apply Nat.leb_gt in H3. right. split; [lia | eauto].
Qed.

(** The lookup among the five registered analyzers either meets the
    out-of-range [substr] of the JavaScript analyzer or returns. *)
Lemma getAnalyzerForFile_cases
    (python_rules go_rules : string -> string -> outcome (list AnalysisResult))
    (file : string) :
  let lookup := getAnalyzerForFile (registered_analyzers python_rules go_rules) file in
  ((String.length file = 3%nat /\
    CppAnalyzer.isSupportedFile file = false /\
    GoAnalyzer.isSupportedFile file = false /\
    file <> ".js"%string) /\
   lookup = Throw (std_exception "basic_string::substr")) \/
  (~ (String.length file = 3%nat /\
      CppAnalyzer.isSupportedFile file = false /\
      GoAnalyzer.isSupportedFile file = false /\
      file <> ".js"%string) /\
   exists a, lookup = Return a).
Proof.
  simpl. unfold getAnalyzerForFile, registered_analyzers. simpl.
  destruct (CppAnalyzer.isSupportedFile file) eqn:Hcpp; simpl.
  { right. split; [by intros (_ & ? & _) | eauto]. }
  destruct (GoAnalyzer.isSupportedFile file) eqn:Hgo; simpl.
  { right. split; [by intros (_ & _ & ? & _) | eauto]. }
  destruct (JavaAnalyzer.isSupportedFile file) eqn:Hjava; simpl.
  { right. split; [|eauto].
    intros (Hlen & _). unfold JavaAnalyzer.isSupportedFile in Hjava.
    rewrite Hlen in Hjava. done. }
  destruct (JavaScript_isSupportedFile_cases file)
    as [(Hlen & Hne & ->)|(Hnot & b & ->)]; simpl.
  - by left.
  - right. split; [tauto|].
    destruct b; [eauto|]. destruct (PythonAnalyzer.isSupportedFile file); eauto.
Qed.

(** X18.  With the five registered analyzers, looking up the analyzer of
    a path throws exactly when the path is three characters long, is not
    a C, C++ or Go source name and is not [.js]; the exception is the
    [std::out_of_range] of [substr].  Every other path gets an answer. *)
Theorem getAnalyzerForFile_throws_exactly_on_three_characters
    (python_rules go_rules : string -> string -> outcome (list AnalysisResult))
    (file : string) :
  let lookup := getAnalyzerForFile (registered_analyzers python_rules go_rules) file in
  ((exists e, lookup = Throw e) <->
   String.length file = 3%nat /\
   CppAnalyzer.isSupportedFile file = false /\
   GoAnalyzer.isSupportedFile file = false /\
   file <> ".js"%string) /\
  (forall e, lookup = Throw e -> e = std_exception "basic_string::substr").
Proof.
  simpl.
  destruct (getAnalyzerForFile_cases python_rules go_rules file)
    as [(Hcond & Hthrow)|(Hnot & a & Hret)]; simpl in *.
  - rewrite Hthrow. split; [split; eauto|]. by intros e [= <-].
  - rewrite Hret. split; [|done]. split; [by intros [e He] | done].
Qed.

(** *** What the lookup means for the scans *)

#[local] Arguments AnalysisManager.analyzeFile : simpl never.

Lemma getAnalyzerForFile_throws_std python_rules go_rules file e :
  getAnalyzerForFile (registered_analyzers python_rules go_rules) file = Throw e ->
  is_std_exception e = true.
Proof.
  intros He.
  destruct (getAnalyzerForFile_cases python_rules go_rules file)
    as [(_ & Hthrow)|(_ & a & Hret)]; simpl in *.
  - rewrite Hthrow in He. by injection He as <-.
  - by rewrite Hret in He.
Qed.

Lemma collect_files_throws python_rules go_rules dir_end es :
  (forall e, dir_end = Throw e -> is_std_exception e = true) ->
  Exists (fun entry =>
            is_regular_file entry = true /\
            exists e, getAnalyzerForFile (registered_analyzers python_rules go_rules)
                        (path entry) = Throw e) es ->
  exists e, collect_files (registered_analyzers python_rules go_rules) dir_end es = Throw e /\
            is_std_exception e = true.
Proof.
  intros Hend. induction 1 as [entry es (Hreg & e & He)|entry es _ IH].
  - cbn [collect_files]. rewrite Hreg, He. simpl.
    exists e. split; [done|]. by eapply getAnalyzerForFile_throws_std.
  - cbn [collect_files]. destruct IH as (e & He & Hstd).
    destruct (is_regular_file entry); [|eauto].
    destruct (getAnalyzerForFile _ (path entry)) as [a|e'] eqn:Ha; simpl.
    + rewrite He. simpl. eauto.
    + exists e'. split; [done|]. by eapply getAnalyzerForFile_throws_std.
Qed.

(** X19.  One regular file whose name makes the analyzer lookup throw (a
    three-character path such as [a.b]) anywhere in the directory, and
    [analyzeDirectoryParallel] returns the empty map: the file list is
    collected before any worker starts, the exception ends the
    collection, and it is only logged. *)
Theorem parallel_scan_is_empty_when_a_lookup_throws
    (fs : filesystem)
    (python_rules go_rules : string -> string -> outcome (list AnalysisResult))
    (ai_available : bool)
    (enhanceAnalysis : list AnalysisResult -> string -> string ->
                       outcome (list AnalysisResult))
    (flag : nat -> bool) (dir : directory) (max_threads : Z) (schedule : list nat) :
  Exists (fun entry =>
            is_regular_file entry = true /\
            String.length (path entry) = 3%nat /\
            CppAnalyzer.isSupportedFile (path entry) = false /\
            GoAnalyzer.isSupportedFile (path entry) = false /\
            path entry <> ".js"%string) (entries dir) ->
  analyzeDirectoryParallel fs (registered_analyzers python_rules go_rules)
    ai_available enhanceAnalysis flag dir max_threads schedule
  = Some (Return ∅).
Proof.
  intros Hbad. unfold analyzeDirectoryParallel.
  destruct (collect_files_throws python_rules go_rules (end_of_iteration dir)
              (entries dir)) as (e & -> & Hstd).
  - unfold end_of_iteration. destruct (iteration_error dir); [|done].
    by intros e [= <-].
  - eapply Exists_impl; [exact Hbad|]. simpl.
    intros entry (Hreg & Hname). split; [done|].
    destruct (getAnalyzerForFile_cases python_rules go_rules (path entry))
      as [(_ & Hthrow)|(Hnot & _)]; simpl in *; [eauto | done].
  - by rewrite Hstd.
Qed.

(** X20.  A C or C++ source file that cannot be opened does not make
    [analyzeFile] throw: without an AI engine the file is reported with a
    single [FILE_ERROR] finding of severity [ERROR]. *)
Theorem unreadable_cpp_file_is_reported_as_finding
    (fs : filesystem)
    (python_rules go_rules : string -> string -> outcome (list AnalysisResult))
    (enhanceAnalysis : list AnalysisResult -> string -> string ->
                       outcome (list AnalysisResult))
    (file : string) :
  CppAnalyzer.isSupportedFile file = true ->
  fs file = None ->
  analyzeFile fs (registered_analyzers python_rules go_rules) false enhanceAnalysis
    false file
  = Return [mkFinding file "FILE_ERROR" ("Cannot open file: " +:+ file) "ERROR" 0].
Proof.
  intros Hcpp Hfile. unfold analyzeFile, getAnalyzerForFile, registered_analyzers.
  cbn [getAnalyzerForFile_from isSupportedFile CppAnalyzer.analyzer bind].
  rewrite Hcpp. cbn [analyze CppAnalyzer.analyzer bind].
  unfold CppAnalyzer.analyze, analyze_file_with. rewrite Hfile. reflexivity.
Qed.

(** *** The extensions of different analyzers *)

Lemma string_length_append (a b : string) :
  String.length (a +:+ b) = (String.length a + String.length b)%nat.
Proof.
  induction a as [|c a IH]; [reflexivity|].
  change (String c a +:+ b)%string with (String c (a +:+ b)).
  simpl. by rewrite IH.
Qed.

Lemma substring_skip (d e : string) :
  String.substring (String.length d) (String.length e) (d +:+ e) = e.
Proof.
  induction d as [|c d IH]; [apply substring_all|].
  change (String c d +:+ e)%string with (String c (d +:+ e)). exact IH.
Qed.

Lemma has_suffix_append (d e : string) : has_suffix e (d +:+ e) = true.
Proof.
  unfold has_suffix. rewrite string_length_append.
  replace (String.length d + String.length e - String.length e)%nat
    with (String.length d) by lia.
  rewrite substring_skip, String.eqb_refl.
  apply andb_true_iff. split; [apply Nat.leb_le; lia | done].
Qed.

Lemma substring_suffix (e : string) : forall n p,
  (n + String.length e)%nat = String.length p ->
  String.substring n (String.length e) p = e ->
  exists pre, p = (pre +:+ e)%string.
Proof.
  induction n as [|n IH]; intros p Hlen Hsub.
  - exists ""%string. simpl in Hlen. rewrite Hlen, substring_all in Hsub. by subst.
  - destruct p as [|c p]; [simpl in Hlen; lia|].
    simpl in Hlen, Hsub. destruct (IH p) as [pre ->]; [lia|done|].
    by exists (String c pre).
Qed.

Lemma has_suffix_split e p :
  has_suffix e p = true -> exists pre, p = (pre +:+ e)%string.
Proof.
  unfold has_suffix. intros [Hle Heq]%andb_true_iff.
  apply Nat.leb_le in Hle. apply String.eqb_eq in Heq.
  apply (substring_suffix e (String.length p - String.length e)); [lia | done].
Qed.

Lemma append_suffix (e1 e2 : string) : forall pre2 pre1,
  (pre1 +:+ e1 = pre2 +:+ e2)%string ->
  (String.length e1 <= String.length e2)%nat ->
  exists d, e2 = (d +:+ e1)%string.
Proof.
  induction pre2 as [|c pre2 IH]; intros pre1 Heq Hlen.
  - exists pre1. by rewrite Heq.
  - destruct pre1 as [|c1 pre1].
    + change (e1 = String c (pre2 +:+ e2)) in Heq.
      apply (f_equal String.length) in Heq. simpl in Heq.
      rewrite string_length_append in Heq. lia.
    + change (String c1 (pre1 +:+ e1) = String c (pre2 +:+ e2)) in Heq.
      injection Heq as _ Heq. by apply (IH pre1).
Qed.

(** Two extensions that one path ends in: one of them ends in the other. *)
Lemma has_suffix_comparable e1 e2 p :
  has_suffix e1 p = true -> has_suffix e2 p = true ->
  has_suffix e1 e2 || has_suffix e2 e1 = true.
Proof.
  intros [pre1 ->]%has_suffix_split [pre2 Heq]%has_suffix_split.
  apply orb_true_iff.
  destruct (decide (String.length e1 <= String.length e2)%nat) as [Hle|Hgt].
  - left. destruct (append_suffix e1 e2 pre2 pre1 Heq Hle) as [d ->].
    apply has_suffix_append.
  - right. destruct (append_suffix e2 e1 pre1 pre2 (eq_sym Heq) ltac:(lia)) as [d ->].
    apply has_suffix_append.
Qed.

Lemma extension_lists_disjoint (l1 l2 : list string) p :
  forallb (fun e1 => forallb (fun e2 => negb (has_suffix e1 e2 || has_suffix e2 e1)) l2) l1
    = true ->
  existsb (fun ext => has_suffix ext p) l1 = true ->
  existsb (fun ext => has_suffix ext p) l2 = true ->
  False.
Proof.
  intros Hdisj (e1 & Hin1 & H1)%existsb_exists (e2 & Hin2 & H2)%existsb_exists.
  rewrite forallb_forall in Hdisj. specialize (Hdisj e1 Hin1).
  rewrite forallb_forall in Hdisj. specialize (Hdisj e2 Hin2).
  by rewrite (has_suffix_comparable e1 e2 p H1 H2) in Hdisj.
Qed.

Lemma JavaScript_supported_extension file :
  JavaScriptAnalyzer.isSupportedFile file = Return true ->
  existsb (fun ext => has_suffix ext file) [".js"; ".jsx"; ".ts"; ".tsx"]%string = true.
Proof.
  unfold JavaScriptAnalyzer.isSupportedFile.
  destruct (3 <=? String.length file)%nat eqn:H3; [|done].
  apply Nat.leb_le in H3.
  destruct (decide (4 <= String.length file)%nat) as [H4|H4].
  - rewrite !ends_with_returns by (simpl; lia).
    unfold JavaScriptAnalyzer.orelse, bind, has_suffix. cbn [existsb].
    change (String.length ".js") with 3%nat.
    change (String.length ".jsx") with 4%nat.
    change (String.length ".ts") with 3%nat.
    change (String.length ".tsx") with 4%nat.
    apply Nat.leb_le in H3, H4. rewrite H3, H4. cbn [andb].
    repeat match goal with
           | |- context [String.eqb ?a ?b] => destruct (String.eqb a b)
           end; done.
  - rewrite (ends_with_returns ".js") by (simpl; lia).
    rewrite (ends_with_throws ".jsx") by (simpl; lia).
    unfold JavaScriptAnalyzer.orelse, bind, has_suffix. cbn [existsb].
    change (String.length ".js") with 3%nat.
    apply Nat.leb_le in H3. rewrite H3. cbn [andb].
    destruct (String.eqb _ ".js"); done.
Qed.

Lemma registered_analyzer_extension
    (python_rules go_rules : string -> string -> outcome (list AnalysisResult))
    (file : string) (k : nat) (c : string * BaseAnalyzer) :
  registered_analyzers python_rules go_rules !! k = Some c ->
  isSupportedFile c.2 file = Return true ->
  existsb (fun ext => has_suffix ext file)
    (match k with
     | 0 => CppAnalyzer.getSupportedExtensions
     | 1 => GoAnalyzer.getSupportedExtensions
     | 2 => [".java"%string]
     | 3 => [".js"; ".jsx"; ".ts"; ".tsx"]%string
     | _ => PythonAnalyzer.getSupportedExtensions
     end%nat) = true.
Proof.
  intros Hk Hc.
  destruct k as [|[|[|[|[|k]]]]]; [| | | | |done];
    injection Hk as <-; cbn [snd isSupportedFile] in Hc.
  - by injection Hc.
  - by injection Hc.
  - injection Hc as Hc. cbn [existsb]. by rewrite orb_false_r.
  - by apply JavaScript_supported_extension.
  - by injection Hc.
Qed.

(** The extensions of the five registered analyzers do not overlap. *)
Lemma no_two_analyzers_accept
    (python_rules go_rules : string -> string -> outcome (list AnalysisResult))
    (file : string) (i j : nat) (a b : string * BaseAnalyzer) :
  registered_analyzers python_rules go_rules !! i = Some a ->
  isSupportedFile a.2 file = Return true ->
  registered_analyzers python_rules go_rules !! j = Some b ->
  j <> i ->
  isSupportedFile b.2 file <> Return true.
Proof.
  intros Hi Ha Hj Hne Hb.
  pose proof (registered_analyzer_extension python_rules go_rules file i a Hi Ha)
    as Hexti.
  pose proof (registered_analyzer_extension python_rules go_rules file j b Hj Hb)
    as Hextj.
  apply lookup_lt_Some in Hi, Hj. cbn [length registered_analyzers] in Hi, Hj.
  destruct i as [|[|[|[|[|i]]]]]; [| | | | |lia];
    (destruct j as [|[|[|[|[|j]]]]]; [| | | | |lia]); try done;
    (eapply extension_lists_disjoint; [|exact Hexti|exact Hextj]);
    vm_compute; reflexivity.
Qed.

(** What the analyzers other than the accepting one answer. *)
Lemma other_analyzers_reject
    (python_rules go_rules : string -> string -> outcome (list AnalysisResult))
    (file : string) (i j : nat) (a b : string * BaseAnalyzer) :
  registered_analyzers python_rules go_rules !! i = Some a ->
  isSupportedFile a.2 file = Return true ->
  registered_analyzers python_rules go_rules !! j = Some b ->
  j <> i ->
  isSupportedFile b.2 file = Return false \/
  (b.1 = "javascript"%string /\ String.length file = 3%nat /\
   isSupportedFile b.2 file = Throw (std_exception "basic_string::substr")).
Proof.
  intros Hi Ha Hj Hne.
  pose proof (no_two_analyzers_accept python_rules go_rules file i j a b Hi Ha Hj Hne)
    as Hnot.
  destruct j as [|[|[|[|[|j]]]]]; [| | | | |done];
    injection Hj as <-;
    unfold CppAnalyzer.analyzer, GoAnalyzer.analyzer, JavaAnalyzer.analyzer,
      JavaScriptAnalyzer.analyzer, PythonAnalyzer.analyzer in Hnot |- *;
    cbn [fst snd isSupportedFile] in Hnot |- *.
  - left. destruct (CppAnalyzer.isSupportedFile file); [done|reflexivity].
  - left. destruct (GoAnalyzer.isSupportedFile file); [done|reflexivity].
  - left. destruct (JavaAnalyzer.isSupportedFile file); [done|reflexivity].
  - destruct (JavaScript_isSupportedFile_cases file)
      as [(Hlen & _ & Hthrow)|(_ & [|] & Hret)].
    + right. done.
    + done.
    + by left.
  - left. destruct (PythonAnalyzer.isSupportedFile file); [done|reflexivity].
Qed.

(** X21.  The extensions of the five registered analyzers do not overlap:
    when one analyzer accepts a path, each of the others rejects it, or,
    for the JavaScript analyzer on a path of three characters, throws.
    [getAnalyzerForFile] then returns the accepting analyzer, unless the
    path has three characters and it is the Python analyzer that accepts
    it ([.py]): the JavaScript analyzer is asked before and its exception
    ends the lookup. *)
Theorem at_most_one_analyzer_supports_a_file
    (python_rules go_rules : string -> string -> outcome (list AnalysisResult))
    (file : string) (i : nat) (a : string * BaseAnalyzer) :
  registered_analyzers python_rules go_rules !! i = Some a ->
  isSupportedFile a.2 file = Return true ->
  (forall j b,
     registered_analyzers python_rules go_rules !! j = Some b ->
     j <> i ->
     isSupportedFile b.2 file = Return false \/
     (b.1 = "javascript"%string /\ String.length file = 3%nat /\
      isSupportedFile b.2 file = Throw (std_exception "basic_string::substr"))) /\
  getAnalyzerForFile (registered_analyzers python_rules go_rules) file =
    if decide (String.length file = 3%nat /\ a.1 = "python"%string)
    then Throw (std_exception "basic_string::substr")
    else Return (Some a.2).
Proof.
  intros Hi Ha.
  pose proof (other_analyzers_reject python_rules go_rules file i) as Hothers.
  split; [intros j b; apply (Hothers j a b Hi Ha)|].
  assert (Hcpp : i <> 0%nat -> CppAnalyzer.isSupportedFile file = false).
  { intros Hne. destruct (Hothers 0%nat a _ Hi Ha eq_refl ltac:(lia))
      as [[= ->]|(? & _)]; done. }
  assert (Hgo : i <> 1%nat -> GoAnalyzer.isSupportedFile file = false).
  { intros Hne. destruct (Hothers 1%nat a _ Hi Ha eq_refl ltac:(lia))
      as [[= ->]|(? & _)]; done. }
  assert (Hjava : i <> 2%nat -> JavaAnalyzer.isSupportedFile file = false).
  { intros Hne. destruct (Hothers 2%nat a _ Hi Ha eq_refl ltac:(lia))
      as [[= ->]|(? & _)]; done. }
  unfold getAnalyzerForFile, registered_analyzers.
  cbn [getAnalyzerForFile_from].
  destruct i as [|[|[|[|[|i]]]]]; [| | | | |done];
    injection Hi as <-;
    unfold CppAnalyzer.analyzer, GoAnalyzer.analyzer, JavaAnalyzer.analyzer,
      JavaScriptAnalyzer.analyzer, PythonAnalyzer.analyzer in Ha |- *;
    cbn [fst snd isSupportedFile bind] in Ha |- *.
  - rewrite decide_False by (by intros [_ ?]).
    injection Ha as ->. reflexivity.
  - rewrite decide_False by (by intros [_ ?]).
    rewrite Hcpp by done. injection Ha as ->. reflexivity.
  - rewrite decide_False by (by intros [_ ?]).
    rewrite Hcpp, Hgo by done. injection Ha as ->. reflexivity.
  - rewrite decide_False by (by intros [_ ?]).
    rewrite Hcpp, Hgo, Hjava by done. rewrite Ha. reflexivity.
  - rewrite Hcpp, Hgo, Hjava by done.
    destruct (Hothers 3%nat ("python"%string, PythonAnalyzer.analyzer python_rules)
                ("javascript"%string, JavaScriptAnalyzer.analyzer) eq_refl Ha eq_refl
                ltac:(lia)) as [Hjs|(_ & Hlen & Hjs)];
      cbn [snd isSupportedFile JavaScriptAnalyzer.analyzer] in Hjs; rewrite Hjs.
    + destruct (JavaScript_isSupportedFile_cases file)
        as [(_ & _ & Hthrow)|(Hnot & _)]; [by rewrite Hthrow in Hjs|].
      rewrite decide_False.
      * injection Ha as ->. reflexivity.
      * intros [Hlen _]. apply Hnot. split; [done|]. intros ->.
        vm_compute in Hjs. discriminate.
    + by rewrite decide_True.
Qed.

(** *** Worked examples *)

Import ScanScenarios.

(** A file called [a.b] next to [b.cpp]. *)
Lemma odd_name_empties_parallel_scan :
  Exists (fun entry =>
            is_regular_file entry = true /\
            String.length (path entry) = 3%nat /\
            CppAnalyzer.isSupportedFile (path entry) = false /\
            GoAnalyzer.isSupportedFile (path entry) = false /\
            path entry <> ".js"%string)
    [mkEntry "proj/b.cpp" true; mkEntry "a.b" true] /\
  analyzeDirectoryParallel project_fs registry false no_enhancement never_cancelled
    (mkDirectory [mkEntry "proj/b.cpp" true; mkEntry "a.b" true] None) 2
    (round_robin 2 8)
  = Some (Return ∅).
Proof.
  assert (Hbad : Exists (fun entry =>
            is_regular_file entry = true /\
            String.length (path entry) = 3%nat /\
            CppAnalyzer.isSupportedFile (path entry) = false /\
            GoAnalyzer.isSupportedFile (path entry) = false /\
            path entry <> ".js"%string)
            [mkEntry "proj/b.cpp" true; mkEntry "a.b" true]).
  { apply Exists_cons_tl, Exists_cons_hd. repeat split; discriminate. }
  split; [exact Hbad|].
  exact (parallel_scan_is_empty_when_a_lookup_throws project_fs no_rules no_rules false
           no_enhancement never_cancelled
           (mkDirectory [mkEntry "proj/b.cpp" true; mkEntry "a.b" true] None) 2
           (round_robin 2 8) Hbad).
Defined.

(** [proj/a.cpp] cannot be opened. *)
Lemma unreadable_a_cpp_is_reported :
  CppAnalyzer.isSupportedFile "proj/a.cpp" = true /\
  project_fs "proj/a.cpp" = None /\
  analyzeFile project_fs registry false no_enhancement false "proj/a.cpp"
  = Return [mkFinding "proj/a.cpp" "FILE_ERROR"
              ("Cannot open file: " +:+ "proj/a.cpp") "ERROR" 0].
Proof.
  split; [reflexivity|]. split; [reflexivity|].
  exact (unreadable_cpp_file_is_reported_as_finding project_fs no_rules no_rules
           no_enhancement "proj/a.cpp" eq_refl eq_refl).
Defined.

(** [b.cpp] is a C++ file and nothing else; a file called [.py] is a Python
    file that the lookup never gets to. *)
Lemma b_cpp_has_one_analyzer :
  registry !! 0%nat = Some ("cpp"%string, CppAnalyzer.analyzer) /\
  isSupportedFile CppAnalyzer.analyzer "proj/b.cpp" = Return true /\
  getAnalyzerForFile registry "proj/b.cpp" = Return (Some CppAnalyzer.analyzer) /\
  (forall j b,
     registry !! j = Some b ->
     j <> 0%nat ->
     isSupportedFile b.2 "proj/b.cpp" = Return false \/
     (b.1 = "javascript"%string /\ String.length "proj/b.cpp" = 3%nat /\
      isSupportedFile b.2 "proj/b.cpp" = Throw (std_exception "basic_string::substr"))) /\
  registry !! 4%nat = Some ("python"%string, PythonAnalyzer.analyzer no_rules) /\
  isSupportedFile (PythonAnalyzer.analyzer no_rules) ".py" = Return true /\
  getAnalyzerForFile registry ".py" = Throw (std_exception "basic_string::substr").
Proof.
  destruct (at_most_one_analyzer_supports_a_file no_rules no_rules "proj/b.cpp" 0
              ("cpp"%string, CppAnalyzer.analyzer) eq_refl eq_refl) as [Hothers Hlookup].
  destruct (at_most_one_analyzer_supports_a_file no_rules no_rules ".py" 4
              ("python"%string, PythonAnalyzer.analyzer no_rules) eq_refl eq_refl)
    as [_ Hpy].
  split; [reflexivity|]. split; [reflexivity|]. split; [exact Hlookup|].
  split; [exact Hothers|]. split; [reflexivity|]. split; [reflexivity|exact Hpy].
Defined.

End DispatchSpec.

(** ** Parallel scans with the five registered analyzers *)

Module RegisteredScanSpec.

Import Analyzers AnalysisManager.

#[local] Arguments AnalysisManager.analyzeFile : simpl never.

(** Collecting the file list fails with a [std::exception] only: the
    [filesystem_error] of the directory iterator or the [out_of_range] of
    the analyzer lookup, both of which [analyzeDirectoryParallel] catches. *)
Lemma collect_files_throws_std
    (python_rules go_rules : string -> string -> outcome (list AnalysisResult))
    (dir : directory) (es : list directory_entry) (e : exception) :
  collect_files (registered_analyzers python_rules go_rules) (end_of_iteration dir) es
    = Throw e ->
  is_std_exception e = true.
Proof.
  induction es as [|entry es IH]; cbn [collect_files].
  - unfold end_of_iteration. destruct (iteration_error dir); [|done].
    by intros [= <-].
  - destruct (is_regular_file entry); [|exact IH].
    destruct (getAnalyzerForFile _ (path entry)) as [a|e'] eqn:Ha; cbn [bind].
    + destruct (collect_files _ _ es) as [files|e'']; cbn [bind]; [done|].
      intros [= <-]. by apply IH.
    + intros [= <-]. by eapply DispatchSpec.getAnalyzerForFile_throws_std.
Qed.

(** X14.  With the five registered analyzers [analyzeDirectoryParallel]
    returns a map under every interleaving in which each worker gets to
    take its steps, also when the scan is cancelled at any point, when
    analyses fail and when collecting the file list fails: no exception
    leaves it and no worker waits for another.  Every entry of the map is
    the findings that [analyzeFile] returns for a regular file of the
    directory that has a registered analyzer. *)
Theorem parallel_scan_returns_under_any_interleaving
    (fs : filesystem)
    (python_rules go_rules : string -> string -> outcome (list AnalysisResult))
    (ai_available : bool)
    (enhanceAnalysis : list AnalysisResult -> string -> string ->
                       outcome (list AnalysisResult))
    (flag : nat -> bool) (dir : directory) (max_threads : Z)
    (schedule : list nat) :
  let registry := registered_analyzers python_rules go_rules in
  (forall w, (w < Z.to_nat max_threads)%nat ->
     (3 * length (entries dir) + 2 <= count_occ Nat.eq_dec schedule w)%nat) ->
  exists m,
    analyzeDirectoryParallel fs registry ai_available enhanceAnalysis flag dir
      max_threads schedule = Some (Return m) /\
    forall p f, m !! p = Some f ->
      p ∈ regular_files (entries dir) /\
      has_analyzer registry p = true /\
      analyzeFile fs registry ai_available enhanceAnalysis false p = Return f.
Proof.
  intros registry Hfair.
  destruct (collect_files registry (end_of_iteration dir) (entries dir))
    as [files|e] eqn:Hfiles.
  - by eapply ScanRobustnessSpec.parallel_scan_of_collected.
  - exists ∅. split; [|intros p f Hp; by rewrite lookup_empty in Hp].
    unfold analyzeDirectoryParallel. fold registry. rewrite Hfiles.
    by rewrite (collect_files_throws_std python_rules go_rules dir _ e Hfiles).
Qed.

(** X16.  Cancellation is not undone by starting a scan: while the flag
    set by [cancelAnalysis] stays up, the serial scan of any directory
    returns the empty map, and so does the parallel scan as soon as each
    of its workers has taken one step. *)
Theorem scan_started_while_cancelled_is_empty
    (fs : filesystem)
    (python_rules go_rules : string -> string -> outcome (list AnalysisResult))
    (ai_available : bool)
    (enhanceAnalysis : list AnalysisResult -> string -> string ->
                       outcome (list AnalysisResult))
    (dir : directory) (max_threads : Z) (schedule : list nat) :
  let registry := registered_analyzers python_rules go_rules in
  analyzeDirectory fs registry ai_available enhanceAnalysis (cancelled_from 0) dir
    = Return ∅ /\
  ((forall w, (w < Z.to_nat max_threads)%nat ->
      (1 <= count_occ Nat.eq_dec schedule w)%nat) ->
   analyzeDirectoryParallel fs registry ai_available enhanceAnalysis (cancelled_from 0)
     dir max_threads schedule = Some (Return ∅)).
Proof.
  intros registry. split.
  - rewrite ScanSpec.analyzeDirectory_returns. f_equal.
    by apply ScanSpec.scan_already_cancelled.
  - intros Hfair. destruct (collect_files registry (end_of_iteration dir) (entries dir))
      as [files|e] eqn:Hfiles.
    + by eapply ScanRobustnessSpec.parallel_scan_cancelled_of_collected.
    + unfold analyzeDirectoryParallel. fold registry. rewrite Hfiles.
      by rewrite (collect_files_throws_std python_rules go_rules dir _ e Hfiles).
Qed.

(** *** Worked examples *)

Import ScanScenarios.

(** Two workers on the project, cancelled at the seventh step: [a.cpp] and
    [b.cpp] were analysed by then. *)
Lemma project_parallel_scan_cancelled_midway :
  (forall w, (w < Z.to_nat 2)%nat ->
     (3 * length (entries project) + 2
      <= count_occ Nat.eq_dec (round_robin 2 17) w)%nat) /\
  exists m,
    analyzeDirectoryParallel project_fs registry false no_enhancement
      (cancelled_from 7) project 2 (round_robin 2 17) = Some (Return m) /\
    m = {[ "proj/a.cpp"%string :=
             [mkFinding "proj/a.cpp" "FILE_ERROR" "Cannot open file: proj/a.cpp" "ERROR" 0];
           "proj/b.cpp"%string :=
             [mkFinding "proj/b.cpp" "SECURITY_VULNERABILITY"
                "Potential security vulnerability detected" "CRITICAL" 1] ]} /\
    forall p f, m !! p = Some f ->
      p ∈ regular_files (entries project) /\
      has_analyzer registry p = true /\
      analyzeFile project_fs registry false no_enhancement false p = Return f.
Proof.
  assert (Hfair : forall w, (w < Z.to_nat 2)%nat ->
            (3 * length (entries project) + 2
             <= count_occ Nat.eq_dec (round_robin 2 17) w)%nat).
  { intros w Hw. assert (Hw' : w = 0%nat \/ w = 1%nat) by lia.
    destruct Hw' as [->| ->]; vm_compute; lia. }
  split; [exact Hfair|].
  pose proof (parallel_scan_returns_under_any_interleaving project_fs no_rules no_rules
                false no_enhancement (cancelled_from 7) project 2 (round_robin 2 17))
    as H.
  cbv zeta in H. change (registered_analyzers no_rules no_rules) with registry in H.
  destruct (H Hfair) as (m & Hm & Hentries).
  exists m. split; [exact Hm|]. split; [|exact Hentries].
  assert (Hrun : analyzeDirectoryParallel project_fs registry false no_enhancement
                   (cancelled_from 7) project 2 (round_robin 2 17)
                 = Some (Return
                     {[ "proj/a.cpp"%string :=
                          [mkFinding "proj/a.cpp" "FILE_ERROR"
                             "Cannot open file: proj/a.cpp" "ERROR" 0];
                        "proj/b.cpp"%string :=
                          [mkFinding "proj/b.cpp" "SECURITY_VULNERABILITY"
                             "Potential security vulnerability detected" "CRITICAL" 1] ]}))
    by (vm_compute; reflexivity).
  rewrite Hrun in Hm. by injection Hm as <-.
Defined.

(** The project scanned after [cancelAnalysis], serially and by two
    workers that take one step each. *)
Lemma project_scan_while_cancelled :
  (forall w, (w < Z.to_nat 2)%nat ->
     (1 <= count_occ Nat.eq_dec [1; 0]%nat w)%nat) /\
  analyzeDirectory project_fs registry false no_enhancement (cancelled_from 0) project
    = Return ∅ /\
  analyzeDirectoryParallel project_fs registry false no_enhancement (cancelled_from 0)
    project 2 [1; 0]%nat = Some (Return ∅).
Proof.
  assert (Hfair : forall w, (w < Z.to_nat 2)%nat ->
            (1 <= count_occ Nat.eq_dec [1; 0]%nat w)%nat).
  { intros w Hw. assert (Hw' : w = 0%nat \/ w = 1%nat) by lia.
    destruct Hw' as [->| ->]; vm_compute; lia. }
  split; [exact Hfair|].
  destruct (scan_started_while_cancelled_is_empty project_fs no_rules no_rules false
              no_enhancement project 2 [1; 0]%nat) as [Hserial Hparallel].
  split; [exact Hserial | exact (Hparallel Hfair)].
Defined.

End RegisteredScanSpec.

(** ** The findings of the C++ analyzer *)

Module CppFindingsSpec.

Import Analyzers Analyzers.CppAnalyzer CppFindings.

(** *** Literal patterns *)

Lemma matches_prefix_Cat_Empty ic r s : matches_prefix ic (Cat Empty r) s = false.
Proof. induction s as [|c s IH]; simpl; [done | exact IH]. Qed.

Lemma matches_prefix_Alt ic s : forall r1 r2,
  matches_prefix ic (Alt r1 r2) s = matches_prefix ic r1 s || matches_prefix ic r2 s.
Proof.
  induction s as [|c s IH]; intros r1 r2; simpl.
  - by destruct (nullable r1), (nullable r2).
  - rewrite IH. destruct (nullable r1), (nullable r2); simpl; try done.
    by rewrite orb_true_r.
Qed.

Lemma matches_prefix_Cat_Eps ic r s :
  matches_prefix ic (Cat Eps r) s = matches_prefix ic r s.
Proof.
  destruct s as [|c s]; simpl; [done|].
  by rewrite matches_prefix_Alt, matches_prefix_Cat_Empty.
Qed.

(** A pattern without metacharacters matches a prefix exactly when it is
    a prefix. *)
Lemma matches_prefix_lit needle : forall s,
  matches_prefix false (lit needle) s = is_prefix needle s.
Proof.
  induction needle as [|a needle IH]; intros [|b s]; simpl; try done.
  destruct (Ascii.eqb a b); simpl.
  - by rewrite matches_prefix_Cat_Eps.
  - by rewrite matches_prefix_Cat_Empty.
Qed.

(** [std::regex_search] with such a pattern is [std::string::find]. *)
Lemma regex_search_lit needle s :
  regex_search s (mkPattern (lit needle) false) = contains needle s.
Proof.
  unfold regex_search. cbn [icase expr].
  induction s as [|c s IH]; cbn [regex_search_from contains];
    rewrite matches_prefix_lit; [done|].
  by rewrite IH.
Qed.

Lemma contains_tail c needle s :
  contains (String c needle) s = true -> contains needle s = true.
Proof.
  induction s as [|b s IH]; simpl; [done|].
  intros [H|H]%orb_true_iff.
  - apply andb_true_iff in H as [_ H].
    apply orb_true_iff. right.
    destruct s as [|b' s]; simpl in *.
    + destruct needle; [done|done].
    + by rewrite H.
  - apply IH in H. rewrite H. by rewrite orb_true_r.
Qed.

(** *** Line loops *)

Lemma elem_of_for_each_line (check : string -> Z -> list AnalysisResult) f :
  forall lines n,
    0 <= n -> n + Z.of_nat (length lines) <= INT_MAX ->
    f ∈ for_each_line check n lines <->
    exists k line, lines !! k = Some line /\ f ∈ check line (n + Z.of_nat k + 1).
Proof.
  induction lines as [|line lines IH]; intros n Hn Hmax; simpl.
  - split; [intros H; by apply elem_of_nil in H | by intros (k & l & ? & _)].
  - simpl length in Hmax. rewrite Nat2Z.inj_succ in Hmax.
    rewrite int_wrap_small by (unfold INT_MAX in *; lia).
    rewrite elem_of_app, (IH (n + 1)) by lia. split.
    + intros [H|(k & l & Hk & Hf)].
      * exists 0%nat, line. split; [done|]. by rewrite Z.add_0_r.
      * exists (S k), l. split; [done|].
        by replace (n + Z.of_nat (S k) + 1) with (n + 1 + Z.of_nat k + 1) by lia.
    + intros (k & l & Hk & Hf). destruct k as [|k]; simpl in Hk.
      * injection Hk as <-. left. by rewrite Z.add_0_r in Hf.
      * right. exists k, l. split; [done|].
        by replace (n + 1 + Z.of_nat k + 1) with (n + Z.of_nat (S k) + 1) by lia.
Qed.

Lemma for_each_line_sublist (check : string -> Z -> list AnalysisResult) :
  forall lines n k line,
    0 <= n -> n + Z.of_nat (length lines) <= INT_MAX ->
    lines !! k = Some line ->
    sublist (check line (n + Z.of_nat k + 1)) (for_each_line check n lines).
Proof.
  induction lines as [|l lines IH]; intros n k line Hn Hmax Hk; [done|].
  simpl. simpl length in Hmax. rewrite Nat2Z.inj_succ in Hmax.
  rewrite int_wrap_small by (unfold INT_MAX in *; lia).
  destruct k as [|k]; simpl in Hk.
  - injection Hk as <-. rewrite Z.add_0_r. apply sublist_inserts_r. done.
  - apply sublist_inserts_l.
    replace (n + Z.of_nat (S k) + 1) with (n + 1 + Z.of_nat k + 1) by lia.
    apply IH; [lia|lia|done].
Qed.

Lemma elem_of_findings_for patterns line make f :
  f ∈ findings_for patterns line make <->
  f = make /\ exists p, p ∈ patterns /\ regex_search line p = true.
Proof.
  unfold findings_for. induction patterns as [|p patterns IH]; simpl.
  - split; [intros H; by apply elem_of_nil in H|].
    intros (_ & p & Hp & _). by apply elem_of_nil in Hp.
  - rewrite elem_of_app, IH. split.
    + intros [H|(-> & q & Hq & Hm)].
      * destruct (regex_search line p) eqn:Hm; [|by apply elem_of_nil in H].
        apply list_elem_of_singleton in H as ->.
        split; [done|]. exists p. split; [apply list_elem_of_here | done].
      * split; [done|]. exists q. split; [by apply list_elem_of_further | done].
    + intros (-> & q & Hq & Hm). apply elem_of_cons in Hq as [->|Hq].
      * left. rewrite Hm. apply list_elem_of_here.
      * right. split; [done|]. eauto.
Qed.

Lemma findings_for_sublist (ps patterns : list pattern) line make :
  sublist ps patterns ->
  sublist (findings_for ps line make) (findings_for patterns line make).
Proof.
  unfold findings_for. induction 1 as [|p l1 l2 _ IH|p l1 l2 _ IH]; simpl.
  - done.
  - by apply sublist_app.
  - by apply sublist_inserts_l.
Qed.


(** *** What the passes emit *)

Lemma checkLine_cases line n file_name f :
  f ∈ checkLine line n file_name ->
  f = missing_semicolon_finding file_name n \/
  f = mkFinding file_name "SYNTAX_ERROR" "Potential syntax issue detected" "ERROR" n \/
  f = mkFinding file_name "CODE_SMELL" "Code quality issue" "WARNING" n.
Proof.
  unfold checkLine. intros H.
  apply elem_of_app in H as [H|H]; [|apply elem_of_app in H as [H|H]].
  - left.
    repeat match type of H with
           | _ ∈ (if ?b then _ else _) => destruct b
           end;
      first [ by apply elem_of_nil in H
            | by apply list_elem_of_singleton in H as -> ].
  - right. left. by apply elem_of_findings_for in H as [-> _].
  - right. right. by apply elem_of_findings_for in H as [-> _].
Qed.

Lemma checkAdvancedPatterns_cases code file_name f :
  f ∈ checkAdvancedPatterns code file_name ->
  f = finding file_name "INCLUDE_GUARD_MISSING"
        "Header file missing include guard" "WARNING" \/
  f = finding file_name "USE_MODERN_MEMORY"
        "Consider using new/delete or smart pointers instead of malloc/free" "INFO" \/
  f = finding file_name "USE_IOSTREAMS"
        "Consider using iostreams instead of printf" "INFO".
Proof.
  unfold checkAdvancedPatterns, checkIncludeGuard, checkModernCpp. intros H.
  apply elem_of_app in H as [H|H]; [|apply elem_of_app in H as [H|H]].
  - left.
    repeat match type of H with
           | _ ∈ (if ?b then _ else _) => destruct b
           end;
      first [ by apply elem_of_nil in H
            | by apply list_elem_of_singleton in H as -> ].
  - right. left.
    destruct (_ || _); [by apply list_elem_of_singleton in H as -> | by apply elem_of_nil in H].
  - right. right.
    destruct (contains _ _); [by apply list_elem_of_singleton in H as -> | by apply elem_of_nil in H].
Qed.

Lemma elem_of_checkSecurityPatterns code file_name f :
  Z.of_nat (length (getlines code)) <= INT_MAX ->
  f ∈ checkSecurityPatterns code file_name <->
  exists k line p,
    getlines code !! k = Some line /\
    f = security_finding file_name (Z.of_nat k + 1) /\
    p ∈ security_patterns_ /\ regex_search line p = true.
Proof.
  intros Hlines. unfold checkSecurityPatterns.
  rewrite elem_of_for_each_line by lia. split.
  - intros (k & line & Hk & Hf).
    apply elem_of_findings_for in Hf as (-> & p & Hp & Hm).
    exists k, line, p. done.
  - intros (k & line & p & Hk & -> & Hp & Hm).
    exists k, line. split; [done|].
    apply elem_of_findings_for. split; [done|]. eauto.
Qed.

(** X22.  Every finding of [CppAnalyzer::analyzeCode] on a file of at most
    [INT_MAX] lines names the analysed file and is of one of seven kinds,
    each with its fixed message and severity; a finding of a line-level
    kind carries the number of a line of the file, counted from 1, and a
    finding of a file-level kind carries line number 0. *)
Theorem cpp_findings_have_known_shape (code file_name : string) (f : AnalysisResult) :
  Z.of_nat (length (getlines code)) <= INT_MAX ->
  f ∈ analyzeCode code file_name ->
  file_path f = file_name /\
  exists r, r ∈ rules /\
    rule_id f = rule_name r /\ message f = rule_message r /\
    severity f = rule_severity r /\
    if per_line r
    then 1 <= line_number f <= Z.of_nat (length (getlines code))
    else line_number f = 0.
Proof.
  intros Hlines Hf. unfold analyzeCode in Hf.
  apply elem_of_app in Hf as [Hf|Hf]; [|apply elem_of_app in Hf as [Hf|Hf]].
  - apply elem_of_for_each_line in Hf as (k & line & Hk & Hf); [|lia|lia].
    apply lookup_lt_Some in Hk.
    apply checkLine_cases in Hf as [-> | [-> | ->]]; (split; [done|]).
    + exists (mkRule "MISSING_SEMICOLON" "Possible missing semicolon" "WARNING" true).
      split; [repeat constructor|]. simpl. repeat split; lia.
    + exists (mkRule "SYNTAX_ERROR" "Potential syntax issue detected" "ERROR" true).
      split; [repeat constructor|]. simpl. repeat split; lia.
    + exists (mkRule "CODE_SMELL" "Code quality issue" "WARNING" true).
      split; [repeat constructor|]. simpl. repeat split; lia.
  - apply checkAdvancedPatterns_cases in Hf as [-> | [-> | ->]]; (split; [done|]).
    + exists (mkRule "INCLUDE_GUARD_MISSING" "Header file missing include guard"
                "WARNING" false).
      split; [repeat constructor | done].
    + exists (mkRule "USE_MODERN_MEMORY"
                "Consider using new/delete or smart pointers instead of malloc/free"
                "INFO" false).
      split; [repeat constructor | done].
    + exists (mkRule "USE_IOSTREAMS" "Consider using iostreams instead of printf"
                "INFO" false).
      split; [repeat constructor | done].
  - apply elem_of_checkSecurityPatterns in Hf as (k & line & p & Hk & -> & _); [|done].
    apply lookup_lt_Some in Hk. split; [done|].
    exists (mkRule "SECURITY_VULNERABILITY" "Potential security vulnerability detected"
              "CRITICAL" true).
    split; [repeat constructor|]. simpl. repeat split; lia.
Qed.

(** X23.  On a file of at most [INT_MAX] lines, [analyzeCode] reports a
    [SECURITY_VULNERABILITY] for line [n] exactly when line [n] of the
    code matches one of the security patterns: no matching line goes
    unreported and no finding points at a line that does not match. *)
Theorem security_findings_point_at_matching_lines
    (code file_name : string) (n : Z) :
  Z.of_nat (length (getlines code)) <= INT_MAX ->
  security_finding file_name n ∈ analyzeCode code file_name <->
  exists k line p,
    getlines code !! k = Some line /\ n = Z.of_nat k + 1 /\
    p ∈ security_patterns_ /\ regex_search line p = true.
Proof.
  intros Hlines. unfold analyzeCode. rewrite !elem_of_app.
  rewrite elem_of_checkSecurityPatterns by done. split.
  - intros [Hf|[Hf|Hf]].
    + apply elem_of_for_each_line in Hf as (k & line & Hk & Hf); [|lia|lia].
      by apply checkLine_cases in Hf as [Hf|[Hf|Hf]].
    + by apply checkAdvancedPatterns_cases in Hf as [Hf|[Hf|Hf]].
    + destruct Hf as (k & line & p & Hk & [= ->] & Hp & Hm). eauto 10.
  - intros (k & line & p & Hk & -> & Hp & Hm). right. right. eauto 10.
Qed.

(** X24.  A line that contains one of the call or statement texts listed
    literally among the security patterns ([strcpy(], [gets(], [system(],
    [INSERT INTO], ...) is reported as a [SECURITY_VULNERABILITY] with
    severity [CRITICAL] at the number of that line. *)
Theorem line_with_unsafe_call_is_reported
    (code file_name : string) (k : nat) (line needle : string) :
  Z.of_nat (length (getlines code)) <= INT_MAX ->
  getlines code !! k = Some line ->
  mkPattern (lit needle) false ∈ security_patterns_ ->
  contains needle line = true ->
  mkFinding file_name "SECURITY_VULNERABILITY"
    "Potential security vulnerability detected" "CRITICAL" (Z.of_nat k + 1)
  ∈ analyzeCode code file_name.
Proof.
  intros Hlines Hk Hp Hneedle. unfold analyzeCode. rewrite !elem_of_app.
  right. right. apply elem_of_checkSecurityPatterns; [done|].
  exists k, line, (mkPattern (lit needle) false).
  split; [done|]. split; [done|]. split; [done|].
  by rewrite regex_search_lit.
Qed.

(** X25.  The patterns overlap: a line that calls [sprintf(] also matches
    [printf(], so [analyzeCode] reports the same [SECURITY_VULNERABILITY]
    finding for that line at least twice. *)
Theorem sprintf_line_is_reported_twice
    (code file_name : string) (k : nat) (line : string) :
  Z.of_nat (length (getlines code)) <= INT_MAX ->
  getlines code !! k = Some line ->
  contains "sprintf(" line = true ->
  sublist [security_finding file_name (Z.of_nat k + 1);
           security_finding file_name (Z.of_nat k + 1)]
    (analyzeCode code file_name).
Proof.
  intros Hlines Hk Hs. unfold analyzeCode.
  do 2 apply sublist_inserts_l. unfold checkSecurityPatterns.
  pose proof (for_each_line_sublist
                (fun line n => findings_for security_patterns_ line
                                 (security_finding file_name n))
                (getlines code) 0 k line ltac:(lia) ltac:(lia) Hk) as Hline.
  cbv beta in Hline. rewrite Z.add_0_l in Hline.
  etrans; [|exact Hline].
  etrans; [|apply (findings_for_sublist
                     [mkPattern (lit "sprintf(") false; mkPattern (lit "printf(") false]);
            unfold security_patterns_; repeat constructor].
  unfold findings_for. cbn [flat_map app].
  rewrite !regex_search_lit, Hs, (contains_tail _ _ _ Hs). done.
Qed.


(** *** Worked examples *)

Import Scenarios ExtraScenarios.

Lemma two_line_file_findings :
  analyzeCode two_line_file "t.cpp" =
  [ missing_semicolon_finding "t.cpp" 1;
    missing_semicolon_finding "t.cpp" 2;
    security_finding "t.cpp" 1 ].
Proof. vm_compute. reflexivity. Qed.

(** The security finding of the two-line file. *)
Lemma two_line_file_security_finding_shape :
  Z.of_nat (length (getlines two_line_file)) <= INT_MAX /\
  security_finding "t.cpp" 1 ∈ analyzeCode two_line_file "t.cpp" /\
  file_path (security_finding "t.cpp" 1) = "t.cpp"%string /\
  exists r, r ∈ rules /\
    rule_id (security_finding "t.cpp" 1) = rule_name r /\
    message (security_finding "t.cpp" 1) = rule_message r /\
    severity (security_finding "t.cpp" 1) = rule_severity r /\
    if per_line r
    then 1 <= line_number (security_finding "t.cpp" 1)
         <= Z.of_nat (length (getlines two_line_file))
    else line_number (security_finding "t.cpp" 1) = 0.
Proof.
  assert (Hlen : Z.of_nat (length (getlines two_line_file)) <= INT_MAX)
    by (vm_compute; discriminate).
  assert (Hin : security_finding "t.cpp" 1 ∈ analyzeCode two_line_file "t.cpp").
  { rewrite two_line_file_findings. do 2 apply list_elem_of_further.
    apply list_elem_of_here. }
  split; [exact Hlen|]. split; [exact Hin|].
  exact (cpp_findings_have_known_shape two_line_file "t.cpp" _ Hlen Hin).
Defined.

(** Line 1 of the two-line file matches [gets(]; line 2 matches nothing. *)
Lemma two_line_file_security_findings :
  Z.of_nat (length (getlines two_line_file)) <= INT_MAX /\
  (security_finding "t.cpp" 1 ∈ analyzeCode two_line_file "t.cpp" <->
   exists k line p,
     getlines two_line_file !! k = Some line /\ 1 = Z.of_nat k + 1 /\
     p ∈ security_patterns_ /\ regex_search line p = true).
Proof.
  assert (Hlen : Z.of_nat (length (getlines two_line_file)) <= INT_MAX)
    by (vm_compute; discriminate).
  split; [exact Hlen|].
  exact (security_findings_point_at_matching_lines two_line_file "t.cpp" 1 Hlen).
Defined.

(** The call of [gets] on line 1 of the two-line file. *)
Lemma gets_call_is_reported :
  Z.of_nat (length (getlines two_line_file)) <= INT_MAX /\
  getlines two_line_file !! 0%nat = Some "gets(line)"%string /\
  mkPattern (lit "gets(") false ∈ security_patterns_ /\
  contains "gets(" "gets(line)" = true /\
  mkFinding "t.cpp" "SECURITY_VULNERABILITY"
    "Potential security vulnerability detected" "CRITICAL" (Z.of_nat 0 + 1)
  ∈ analyzeCode two_line_file "t.cpp".
Proof.
  assert (Hlen : Z.of_nat (length (getlines two_line_file)) <= INT_MAX)
    by (vm_compute; discriminate).
  assert (Hline : getlines two_line_file !! 0%nat = Some "gets(line)"%string)
    by (vm_compute; reflexivity).
  assert (Hp : mkPattern (lit "gets(") false ∈ security_patterns_).
  { unfold security_patterns_. do 4 apply list_elem_of_further.
    apply list_elem_of_here. }
  assert (Hc : contains "gets(" "gets(line)" = true) by (vm_compute; reflexivity).
  split; [exact Hlen|]. split; [exact Hline|]. split; [exact Hp|]. split; [exact Hc|].
  exact (line_with_unsafe_call_is_reported two_line_file "t.cpp" 0 "gets(line)" "gets("
           Hlen Hline Hp Hc).
Defined.

(** The [sprintf] call on line 2 of [format_file]. *)
Lemma sprintf_call_is_reported_twice :
  Z.of_nat (length (getlines format_file)) <= INT_MAX /\
  getlines format_file !! 1%nat = Some "sprintf(buf, fmt, x);"%string /\
  contains "sprintf(" "sprintf(buf, fmt, x);" = true /\
  sublist [security_finding "f.cpp" (Z.of_nat 1 + 1);
           security_finding "f.cpp" (Z.of_nat 1 + 1)]
    (analyzeCode format_file "f.cpp").
Proof.
  assert (Hlen : Z.of_nat (length (getlines format_file)) <= INT_MAX)
    by (vm_compute; discriminate).
  assert (Hline : getlines format_file !! 1%nat = Some "sprintf(buf, fmt, x);"%string)
    by (vm_compute; reflexivity).
  assert (Hc : contains "sprintf(" "sprintf(buf, fmt, x);" = true)
    by (vm_compute; reflexivity).
  split; [exact Hlen|]. split; [exact Hline|]. split; [exact Hc|].
  exact (sprintf_line_is_reported_twice format_file "f.cpp" 1 "sprintf(buf, fmt, x);"
           Hlen Hline Hc).
Defined.

End CppFindingsSpec.

(** ** Automatic fixes *)

Module AutoFixSpec.

Import Analyzers AutoFix CppFindings.

(** *** Reading back what was written *)

Lemma append_cons c (a b : string) :
  (String c a +:+ b)%string = String c (a +:+ b)%string.
Proof. reflexivity. Qed.

Lemma append_nil_r (a : string) : (a +:+ "")%string = a.
Proof.
  induction a as [|c a IH]; [reflexivity|]. by rewrite append_cons, IH.
Qed.

Lemma rev_app_rev_app (a : string) : forall b c,
  String.rev_app (String.rev_app a b) c = String.rev_app b (a +:+ c)%string.
Proof.
  induction a as [|x a IH]; intros b c; simpl; [done|].
  by rewrite IH.
Qed.

Lemma rev_rev (a : string) : String.rev (String.rev a) = a.
Proof.
  unfold String.rev. rewrite rev_app_rev_app. simpl. apply append_nil_r.
Qed.

Lemma contains_char_rev_app c (a : string) : forall b,
  contains_char c (String.rev_app a b) = contains_char c a || contains_char c b.
Proof.
  induction a as [|x a IH]; intros b; simpl; [done|].
  rewrite IH. simpl. by destruct (Ascii.eqb x c), (contains_char c a).
Qed.

Lemma empty_rev_app (a b : string) :
  empty (String.rev_app a b) = empty a && empty b.
Proof.
  revert b. induction a as [|x a IH]; intros b; simpl; [done|].
  rewrite IH. simpl. apply andb_false_r.
Qed.

(** A line is read up to the first newline. *)
Lemma getlines_from_line (l : string) : forall cur rest,
  contains_char "010" l = false ->
  getlines_from cur (l +:+ String "010" rest) =
  String.rev (String.rev_app l cur) :: getlines_from "" rest.
Proof.
  induction l as [|c l IH]; intros cur rest Hl.
  - reflexivity.
  - simpl in Hl. apply orb_false_elim in Hl as [Hc Hl].
    rewrite append_cons. simpl. rewrite Hc. by apply IH.
Qed.

Lemma getlines_from_last (l : string) : forall cur,
  contains_char "010" l = false ->
  getlines_from cur l =
  if empty (String.rev_app l cur) then [] else [String.rev (String.rev_app l cur)].
Proof.
  induction l as [|c l IH]; intros cur Hl; simpl.
  - done.
  - simpl in Hl. apply orb_false_elim in Hl as [Hc Hl].
    rewrite Hc. by apply IH.
Qed.

Lemma getlines_from_no_newline s : forall cur,
  contains_char "010" cur = false ->
  Forall (fun l => contains_char "010" l = false) (getlines_from cur s).
Proof.
  induction s as [|c s IH]; intros cur Hcur; simpl.
  - destruct (empty cur); constructor; [|constructor].
    unfold String.rev. rewrite contains_char_rev_app, Hcur. done.
  - destruct (Ascii.eqb c "010") eqn:Hc.
    + constructor; [|by apply IH].
      unfold String.rev. rewrite contains_char_rev_app, Hcur. done.
    + apply IH. simpl. by rewrite Hc.
Qed.

(** No line that [std::getline] hands out contains a newline. *)
Lemma getlines_no_newline code :
  Forall (fun l => contains_char "010" l = false) (getlines code).
Proof. by apply getlines_from_no_newline. Qed.

(** Writing lines out and reading them back loses a final empty line and
    nothing else. *)
Lemma getlines_join_lines lines :
  Forall (fun l => contains_char "010" l = false) lines ->
  getlines (join_lines lines) = without_final_empty_line lines.
Proof.
  unfold getlines. induction 1 as [|l lines Hl Hlines IH]; [done|].
  destruct lines as [|l2 lines].
  - simpl. rewrite getlines_from_last by done.
    rewrite empty_rev_app. simpl. rewrite andb_true_r.
    destruct (empty l); [done|]. fold (String.rev l). by rewrite rev_rev.
  - change (join_lines (l :: l2 :: lines))
      with (l +:+ String "010" (join_lines (l2 :: lines)))%string.
    rewrite getlines_from_line by done.
    fold (String.rev l). rewrite rev_rev. by rewrite IH.
Qed.

Lemma without_final_empty_line_lookup lines : forall k l,
  lines !! k = Some l -> l <> ""%string ->
  without_final_empty_line lines !! k = Some l.
Proof.
  induction lines as [|l0 lines IH]; intros k l Hk Hl; [done|].
  destruct lines as [|l1 lines].
  - destruct k; [|done]. injection Hk as ->. simpl.
    destruct l; [done|done].
  - destruct k as [|k]; [done|]. by apply IH.
Qed.

Lemma without_final_empty_line_prefix lines : forall k,
  (k < length (without_final_empty_line lines))%nat ->
  without_final_empty_line lines !! k = lines !! k.
Proof.
  induction lines as [|l0 lines IH]; intros k Hk; [done|].
  destruct lines as [|l1 lines].
  - simpl in *. destruct (empty l0); simpl in *; [lia|done].
  - destruct k as [|k]; [done|].
    change (without_final_empty_line (l0 :: l1 :: lines))
      with (l0 :: without_final_empty_line (l1 :: lines)) in *.
    cbn [length] in Hk. apply IH. lia.
Qed.

Lemma without_final_empty_line_length lines :
  (length (without_final_empty_line lines) <= length lines)%nat.
Proof.
  induction lines as [|l0 lines IH]; [done|].
  destruct lines as [|l1 lines].
  - simpl. destruct (empty l0); simpl; lia.
  - change (without_final_empty_line (l0 :: l1 :: lines))
      with (l0 :: without_final_empty_line (l1 :: lines)).
    cbn [length] in *. lia.
Qed.


Lemma back_append_char (s : string) c : back (s +:+ String c "") = c.
Proof.
  induction s as [|a s IH]; [reflexivity|].
  rewrite append_cons. destruct s as [|b s]; [reflexivity|].
  rewrite append_cons in *. exact IH.
Qed.

Lemma contains_char_append c (a b : string) :
  contains_char c (a +:+ b) = contains_char c a || contains_char c b.
Proof.
  induction a as [|x a IH]; [reflexivity|].
  rewrite append_cons. simpl. rewrite IH. apply orb_assoc.
Qed.

(** *** The semicolon heuristic and its fix *)

Lemma missing_semicolon_checkLine line m file_name n :
  missing_semicolon_finding file_name n ∈ CppAnalyzer.checkLine line m file_name ->
  n = m /\ empty line = false /\
  Ascii.eqb (back line) ";" = false /\ Ascii.eqb (back line) "{" = false.
Proof.
  unfold CppAnalyzer.checkLine. intros H.
  apply elem_of_app in H as [H|H]; [|apply elem_of_app in H as [H|H]].
  - match type of H with
    | _ ∈ (if ?b then _ else _) => destruct b eqn:Hcond
    end; [|by apply elem_of_nil in H].
    match type of H with
    | _ ∈ (if ?b then _ else _) => destruct b
    end; [|by apply elem_of_nil in H].
    apply list_elem_of_singleton in H. injection H as ->.
    repeat (apply andb_true_iff in Hcond as [Hcond ?]).
    repeat match goal with
           | Hn : negb _ = true |- _ => apply negb_true_iff in Hn
           end.
    done.
  - by apply CppFindingsSpec.elem_of_findings_for in H as [H _].
  - by apply CppFindingsSpec.elem_of_findings_for in H as [H _].
Qed.

Lemma missing_semicolon_analyzeCode code file_name n :
  Z.of_nat (length (getlines code)) <= INT_MAX ->
  missing_semicolon_finding file_name n ∈ CppAnalyzer.analyzeCode code file_name ->
  exists k line,
    getlines code !! k = Some line /\ n = Z.of_nat k + 1 /\
    empty line = false /\
    Ascii.eqb (back line) ";" = false /\ Ascii.eqb (back line) "{" = false.
Proof.
  intros Hlines Hf. unfold CppAnalyzer.analyzeCode in Hf.
  apply elem_of_app in Hf as [Hf|Hf]; [|apply elem_of_app in Hf as [Hf|Hf]].
  - apply CppFindingsSpec.elem_of_for_each_line in Hf as (k & line & Hk & Hf);
      [|lia|lia].
    apply missing_semicolon_checkLine in Hf as (-> & H1 & H2 & H3).
    exists k, line. repeat split; done.
  - by apply CppFindingsSpec.checkAdvancedPatterns_cases in Hf as [Hf|[Hf|Hf]].
  - apply CppFindingsSpec.elem_of_checkSecurityPatterns in Hf
      as (k & line & p & _ & Hf & _); done.
Qed.

Section Fixes.

Variable writable : string -> bool.

Abbreviation write_file := (write_file writable).
Abbreviation Cpp_applyFix := (Cpp_applyFix writable).
Abbreviation Cpp_applyFix_ai := (Cpp_applyFix_ai writable).

Lemma write_file_lookup fs file content :
  writable file = true ->
  write_file fs file content file = Some content /\
  forall p, p <> file -> write_file fs file content p = fs p.
Proof.
  intros Hw. unfold AutoFix.write_file. rewrite Hw. split.
  - by rewrite String.eqb_refl.
  - intros p Hp. apply String.eqb_neq in Hp. by rewrite Hp.
Qed.

(** X26.  Fixing a [MISSING_SEMICOLON] finding that [analyzeCode] reports
    for a readable and writable file of at most [INT_MAX] lines succeeds:
    afterwards the reported line is the old line followed by [;], every
    other line the file still has is unchanged, no other file is touched,
    and analysing the new content does not report a missing semicolon
    for that line again. *)
Theorem semicolon_fix_removes_the_finding
    (fs : filesystem) (file content : string) (n : Z) :
  fs file = Some content ->
  writable file = true ->
  Z.of_nat (length (getlines content)) <= INT_MAX ->
  missing_semicolon_finding file n ∈ CppAnalyzer.analyzeCode content file ->
  let '(ok, fs') := Cpp_applyFix fs file (missing_semicolon_finding file n) in
  ok = true /\
  (forall p, p <> file -> fs' p = fs p) /\
  exists line content',
    getlines content !! Z.to_nat (n - 1) = Some line /\
    fs' file = Some content' /\
    getlines content' !! Z.to_nat (n - 1) = Some (line +:+ ";")%string /\
    (forall j, j <> Z.to_nat (n - 1) ->
       (j < length (getlines content'))%nat ->
       getlines content' !! j = getlines content !! j) /\
    missing_semicolon_finding file n ∉ CppAnalyzer.analyzeCode content' file.
Proof.
  intros Hfile Hw Hlines Hf.
  destruct (missing_semicolon_analyzeCode content file n Hlines Hf)
    as (k & line & Hk & -> & Hne & Hsemi & Hbrace).
  replace (Z.to_nat (Z.of_nat k + 1 - 1)) with k by lia.
  unfold AutoFix.Cpp_applyFix. cbn [negb Cpp_canAutoFix missing_semicolon_finding rule_id].
  change (String.eqb "MISSING_SEMICOLON" "MISSING_SEMICOLON") with true.
  cbn [orb negb]. rewrite Hfile.
  set (lines' := Cpp_fix_lines _ (getlines content)).
  assert (Hlines' : lines' = <[k := (line +:+ ";")%string]> (getlines content)).
  { unfold lines', Cpp_fix_lines, missing_semicolon_finding. cbn [rule_id line_number].
    change (String.eqb "MISSING_SEMICOLON" "MISSING_SEMICOLON") with true.
    replace (0 <? Z.of_nat k + 1) with true by (symmetry; apply Z.ltb_lt; lia).
    cbn [andb]. replace (Z.to_nat (Z.of_nat k + 1 - 1)) with k by lia.
    rewrite Hk, Hne, Hsemi, Hbrace. done. }
  clearbody lines'. subst lines'.
  destruct (write_file_lookup fs file
              (join_lines (<[k := (line +:+ ";")%string]> (getlines content))) Hw)
    as [Hnew Hother].
  split; [done|]. split; [exact Hother|].
  exists line, (join_lines (<[k := (line +:+ ";")%string]> (getlines content))).
  split; [done|]. split; [exact Hnew|].
  assert (Hk' : (k < length (getlines content))%nat) by (by eapply lookup_lt_Some).
  assert (Hread : getlines (join_lines (<[k := (line +:+ ";")%string]> (getlines content)))
                  = without_final_empty_line
                      (<[k := (line +:+ ";")%string]> (getlines content))).
  { apply getlines_join_lines. apply Forall_insert; [apply getlines_no_newline|].
    rewrite contains_char_append.
    pose proof (getlines_no_newline content) as Hall.
    rewrite Forall_lookup in Hall. by rewrite (Hall k line Hk). }
  rewrite Hread.
  assert (Hfixed : without_final_empty_line
                     (<[k := (line +:+ ";")%string]> (getlines content)) !! k
                   = Some (line +:+ ";")%string).
  { apply without_final_empty_line_lookup.
    - by apply list_lookup_insert_eq.
    - destruct line; done. }
  split; [exact Hfixed|]. split.
  - intros j Hj Hlen. rewrite without_final_empty_line_prefix by done.
    by apply list_lookup_insert_ne.
  - intros Hagain.
    assert (Hbound : Z.of_nat (length (getlines
                       (join_lines (<[k := (line +:+ ";")%string]> (getlines content)))))
                     <= INT_MAX).
    { rewrite Hread.
      pose proof (without_final_empty_line_length
                    (<[k := (line +:+ ";")%string]> (getlines content))) as Hle.
      rewrite length_insert in Hle. lia. }
    destruct (missing_semicolon_analyzeCode _ file _ Hbound Hagain)
      as (k' & line' & Hk'' & Heq & _ & Hsemi' & _).
    assert (k' = k) by lia. subst k'.
    rewrite Hread, Hfixed in Hk''. injection Hk'' as <-.
    by rewrite back_append_char in Hsemi'.
Qed.

(** X27.  [CppAnalyzer::applyFix] has an edit for [MISSING_SEMICOLON]
    only.  For every other finding it accepts ([BRACE_STYLE],
    [INCLUDE_GUARD_MISSING], [SECURITY_VULNERABILITY]) on a readable file
    it still rewrites the file and returns [true]: what it writes are the
    lines it read, so that reading the file again gives the same lines,
    less a final empty one.  It returns [true] as well when the file
    cannot be opened for writing and nothing is written. *)
Theorem fix_without_edit_reports_success
    (fs : filesystem) (file content : string) (result : AnalysisResult) :
  Cpp_canAutoFix result = true ->
  rule_id result <> "MISSING_SEMICOLON"%string ->
  fs file = Some content ->
  Cpp_applyFix fs file result =
    (true, write_file fs file (join_lines (getlines content))) /\
  getlines (join_lines (getlines content)) =
    without_final_empty_line (getlines content) /\
  (writable file = false -> Cpp_applyFix fs file result = (true, fs)).
Proof.
  intros Hcan Hrule Hfile.
  assert (Hrun : Cpp_applyFix fs file result =
                 (true, write_file fs file (join_lines (getlines content)))).
  { unfold AutoFix.Cpp_applyFix. rewrite Hcan, Hfile. cbn [negb].
    unfold Cpp_fix_lines. apply String.eqb_neq in Hrule. by rewrite Hrule. }
  split; [exact Hrun|]. split.
  - apply getlines_join_lines, getlines_no_newline.
  - intros Hw. rewrite Hrun. unfold AutoFix.write_file. by rewrite Hw.
Qed.

(** *** [applyAutoFixes] *)

Variable analyzers_ : list (string * (BaseAnalyzer * Fixer)).
Variable ai_available : bool.
Variable suggestFixes : AnalysisResult -> string -> outcome string.

Abbreviation getFixerForFile := (getFixerForFile analyzers_).
Abbreviation fix_all := (fix_all analyzers_ ai_available suggestFixes).
Abbreviation applyAutoFixes := (applyAutoFixes analyzers_ ai_available suggestFixes).

Lemma fix_all_app pre : forall rest fs applied fixable,
  fix_all (pre ++ rest) fs applied fixable =
  match fix_all pre fs applied fixable with
  | (fs1, Return (applied1, fixable1)) => fix_all rest fs1 applied1 fixable1
  | (fs1, Throw e) => (fs1, Throw e)
  end.
Proof.
  induction pre as [|r pre IH]; intros rest fs applied fixable; [done|].
  cbn [app AutoFix.fix_all].
  destruct (getFixerForFile (file_path r)) as [[fixer|]|e]; [|apply IH|done].
  destruct (canAutoFix fixer r); [|apply IH].
  destruct (if ai_available && String.eqb (rule_id r) "SECURITY_VULNERABILITY"
            then _ else _) as [suggestion|e]; [|done].
  destruct (applyFix_ai fixer fs (file_path r) r suggestion) as [ok fs'].
  apply IH.
Qed.

Lemma fix_all_counts results : forall fs applied fixable fs' applied' fixable',
  fix_all results fs applied fixable = (fs', Return (applied', fixable')) ->
  applied' = applied \/
  exists r fixer, r ∈ results /\
    getFixerForFile (file_path r) = Return (Some fixer) /\
    canAutoFix fixer r = true.
Proof.
  induction results as [|r results IH];
    intros fs applied fixable fs' applied' fixable' Hrun.
  - injection Hrun as _ <- _. by left.
  - cbn [AutoFix.fix_all] in Hrun.
    assert (Hrest : forall fs0 a0 t0,
              fix_all results fs0 a0 t0 = (fs', Return (applied', fixable')) ->
              a0 = applied ->
              applied' = applied \/
              exists r0 fixer, r0 ∈ r :: results /\
                getFixerForFile (file_path r0) = Return (Some fixer) /\
                canAutoFix fixer r0 = true).
    { intros fs0 a0 t0 H0 ->. apply IH in H0 as [H0|(r0 & fixer & Hin & H0)];
        [by left|].
      right. exists r0, fixer. split; [by apply list_elem_of_further | done]. }
    destruct (getFixerForFile (file_path r)) as [[fixer|]|e] eqn:Hfix;
      [|by eapply Hrest|done].
    destruct (canAutoFix fixer r) eqn:Hcan; [|by eapply Hrest].
    right. exists r, fixer. split; [apply list_elem_of_here | done].
Qed.

(** X28.  [applyAutoFixes] never throws: whatever the analyzers, the AI
    engine and the fixes do, it returns a verdict, and the verdict is
    [true] only if some finding of the list has an analyzer that accepts
    it for fixing. *)
Theorem applyAutoFixes_never_throws
    (results : list AnalysisResult) (fs : filesystem) :
  exists verdict,
    (applyAutoFixes results fs).2 = Return verdict /\
    (verdict = true ->
     exists r fixer, r ∈ results /\
       getFixerForFile (file_path r) = Return (Some fixer) /\
       canAutoFix fixer r = true).
Proof.
  unfold AutoFix.applyAutoFixes.
  destruct (fix_all results fs 0 0) as [fs' [[applied fixable]|e]] eqn:Hrun; simpl.
  - eexists. split; [reflexivity|]. intros Hpos. apply Z.ltb_lt in Hpos.
    apply fix_all_counts in Hrun as [->|Hrun]; [lia | done].
  - exists false. split; [|done].
    destruct (is_AnalyzerException e) eqn:He; simpl; [by rewrite He|].
    by destruct e.
Qed.

(** X29.  When looking up the analyzer of a finding throws, the loop of
    [applyAutoFixes] ends there: the verdict is [false] whatever has been
    fixed for the findings before it, whose files stay as the fixes left
    them, and the findings after it are not looked at. *)
Theorem applyAutoFixes_stops_at_failed_lookup
    (pre post : list AnalysisResult) (bad : AnalysisResult)
    (fs fs1 : filesystem) (counters : Z * Z) (e : exception) :
  fix_all pre fs 0 0 = (fs1, Return counters) ->
  getFixerForFile (file_path bad) = Throw e ->
  applyAutoFixes (pre ++ bad :: post) fs = (fs1, Return false).
Proof.
  destruct counters as [applied fixable]. intros Hpre Hbad.
  unfold AutoFix.applyAutoFixes.
  rewrite fix_all_app, Hpre. cbn [AutoFix.fix_all]. rewrite Hbad. simpl.
  destruct (is_AnalyzerException e) eqn:He; simpl; [by rewrite He|].
  by destruct e.
Qed.

End Fixes.

(** *** The registered analyzers *)

Lemma getFixerForFile_cpp writable python_rules go_rules python_fixer go_fixer file :
  CppAnalyzer.isSupportedFile file = true ->
  getFixerForFile
    (registered_fixers writable python_rules go_rules python_fixer go_fixer) file
  = Return (Some (Cpp_fixer writable)).
Proof.
  intros Hcpp. unfold getFixerForFile, registered_fixers. simpl. by rewrite Hcpp.
Qed.

(** X30.  With the AI engine available and answering every request with
    a non-empty suggestion, [applyAutoFixes] changes no file and returns
    [false] for any list of [SECURITY_VULNERABILITY] findings on C++
    files: the suggestion is only logged, and it keeps the rule-based
    path from running. *)
Theorem suggested_security_fixes_are_not_applied
    (writable : string -> bool)
    (python_rules go_rules : string -> string -> outcome (list AnalysisResult))
    (python_fixer go_fixer : Fixer)
    (suggestFixes : AnalysisResult -> string -> outcome string)
    (results : list AnalysisResult) (fs : filesystem) :
  Forall (fun r => rule_id r = "SECURITY_VULNERABILITY"%string /\
                   CppAnalyzer.isSupportedFile (file_path r) = true /\
                   forall code_context, exists suggestion,
                     suggestFixes r code_context = Return suggestion /\
                     empty suggestion = false) results ->
  applyAutoFixes
    (registered_fixers writable python_rules go_rules python_fixer go_fixer)
    true suggestFixes results fs
  = (fs, Return false).
Proof.
  intros Hall. unfold applyAutoFixes.
  assert (Hloop : forall applied fixable, exists fixable',
            fix_all
              (registered_fixers writable python_rules go_rules python_fixer go_fixer)
              true suggestFixes results fs applied fixable
            = (fs, Return (applied, fixable'))).
  { induction Hall as [|r results (Hrule & Hcpp & Hsuggest) _ IH];
      intros applied fixable; [by eexists|].
    cbn [fix_all]. rewrite getFixerForFile_cpp by done.
    cbn [canAutoFix Cpp_fixer]. unfold Cpp_canAutoFix. rewrite Hrule.
    cbn [String.eqb Ascii.eqb Bool.eqb orb andb].
    destruct (Hsuggest (match fs (file_path r) with Some c => c | None => ""%string end))
      as (suggestion & -> & Hne).
    change (applyFix_ai (Cpp_fixer writable)) with (Cpp_applyFix_ai writable).
    unfold Cpp_applyFix_ai. rewrite Hrule, Hne.
    cbn [String.eqb Ascii.eqb Bool.eqb negb andb].
    apply IH. }
  destruct (Hloop 0 0) as [fixable' ->]. done.
Qed.


(** *** Worked examples *)

Import ScanScenarios ExtraScenarios.

(** Line 1 of [draft.cpp] is reported; the fix appends the semicolon. *)
Lemma draft_semicolon_fixed :
  draft_fs "draft.cpp" = Some ("int x" +:+ Scenarios.newline +:+ "int y;"
                               +:+ Scenarios.newline)%string /\
  everything_writable "draft.cpp" = true /\
  missing_semicolon_finding "draft.cpp" 1
    ∈ CppAnalyzer.analyzeCode ("int x" +:+ Scenarios.newline +:+ "int y;"
                               +:+ Scenarios.newline)%string "draft.cpp" /\
  let '(ok, fs') :=
    Cpp_applyFix everything_writable draft_fs "draft.cpp"
      (missing_semicolon_finding "draft.cpp" 1) in
  ok = true /\
  fs' "draft.cpp"%string = Some ("int x;" +:+ Scenarios.newline +:+ "int y;")%string.
Proof.
  assert (Hfile : draft_fs "draft.cpp"
                  = Some ("int x" +:+ Scenarios.newline +:+ "int y;"
                          +:+ Scenarios.newline)%string) by reflexivity.
  assert (Hw : everything_writable "draft.cpp" = true) by reflexivity.
  assert (Hlen : Z.of_nat (length (getlines ("int x" +:+ Scenarios.newline +:+ "int y;"
                                             +:+ Scenarios.newline)%string)) <= INT_MAX)
    by (vm_compute; discriminate).
  assert (Hfinding : missing_semicolon_finding "draft.cpp" 1
            ∈ CppAnalyzer.analyzeCode ("int x" +:+ Scenarios.newline +:+ "int y;"
                                       +:+ Scenarios.newline)%string "draft.cpp").
  { assert (Hrun : CppAnalyzer.analyzeCode ("int x" +:+ Scenarios.newline +:+ "int y;"
                                             +:+ Scenarios.newline)%string "draft.cpp"
                   = [missing_semicolon_finding "draft.cpp" 1])
      by (vm_compute; reflexivity).
    rewrite Hrun. apply list_elem_of_here. }
  split; [exact Hfile|]. split; [exact Hw|]. split; [exact Hfinding|].
  pose proof (semicolon_fix_removes_the_finding everything_writable draft_fs
                "draft.cpp" _ 1 Hfile Hw Hlen Hfinding) as Hfix.
  destruct (Cpp_applyFix everything_writable draft_fs "draft.cpp"
              (missing_semicolon_finding "draft.cpp" 1)) as [ok fs'] eqn:Hrun.
  destruct Hfix as (Hok & _). split; [exact Hok|].
  apply (f_equal (fun x => x.2 "draft.cpp"%string)) in Hrun.
  cbn [snd] in Hrun. rewrite <- Hrun. vm_compute. reflexivity.
Defined.

(** The header without include guard: the fix reports success and writes
    the one line back without its newline. *)
Lemma guard_fix_reports_success :
  Cpp_canAutoFix (finding "guard.h" "INCLUDE_GUARD_MISSING"
                    "Header file missing include guard" "WARNING") = true /\
  draft_fs "guard.h" = Some ("int z;" +:+ Scenarios.newline)%string /\
  Cpp_applyFix everything_writable draft_fs "guard.h"
    (finding "guard.h" "INCLUDE_GUARD_MISSING"
       "Header file missing include guard" "WARNING")
  = (true, write_file everything_writable draft_fs "guard.h"
             (join_lines (getlines ("int z;" +:+ Scenarios.newline)%string))) /\
  getlines (join_lines (getlines ("int z;" +:+ Scenarios.newline)%string))
  = without_final_empty_line (getlines ("int z;" +:+ Scenarios.newline)%string) /\
  (everything_writable "guard.h" = false ->
   Cpp_applyFix everything_writable draft_fs "guard.h"
     (finding "guard.h" "INCLUDE_GUARD_MISSING"
        "Header file missing include guard" "WARNING")
   = (true, draft_fs)).
Proof.
  assert (Hcan : Cpp_canAutoFix (finding "guard.h" "INCLUDE_GUARD_MISSING"
                    "Header file missing include guard" "WARNING") = true)
    by reflexivity.
  assert (Hfile : draft_fs "guard.h" = Some ("int z;" +:+ Scenarios.newline)%string)
    by reflexivity.
  split; [exact Hcan|]. split; [exact Hfile|].
  exact (fix_without_edit_reports_success everything_writable draft_fs "guard.h" _ _
           Hcan ltac:(discriminate) Hfile).
Defined.

(** A fixable finding on [draft.cpp] followed by one on a file called
    [x.y]: the semicolon is written, the verdict is [false]. *)
Lemma draft_fixed_but_verdict_false :
  getFixerForFile fixers "x.y" = Throw (std_exception "basic_string::substr") /\
  exists fs1,
    fix_all fixers false no_suggestions [missing_semicolon_finding "draft.cpp" 1]
      draft_fs 0 0 = (fs1, Return (1, 1)) /\
    applyAutoFixes fixers false no_suggestions
      ([missing_semicolon_finding "draft.cpp" 1]
       ++ finding "x.y" "BRACE_STYLE" "" "INFO"
       :: [missing_semicolon_finding "draft.cpp" 2]) draft_fs
    = (fs1, Return false) /\
    fs1 "draft.cpp"%string = Some ("int x;" +:+ Scenarios.newline +:+ "int y;")%string.
Proof.
  assert (Hbad : getFixerForFile fixers "x.y"
                 = Throw (std_exception "basic_string::substr"))
    by (vm_compute; reflexivity).
  split; [exact Hbad|].
  assert (Hpre : fix_all fixers false no_suggestions
                   [missing_semicolon_finding "draft.cpp" 1] draft_fs 0 0
                 = ((fix_all fixers false no_suggestions
                       [missing_semicolon_finding "draft.cpp" 1] draft_fs 0 0).1,
                    Return (1, 1)))
    by (vm_compute; reflexivity).
  eexists. split; [exact Hpre|]. split.
  - exact (applyAutoFixes_stops_at_failed_lookup fixers false no_suggestions
             [missing_semicolon_finding "draft.cpp" 1]
             [missing_semicolon_finding "draft.cpp" 2]
             (finding "x.y" "BRACE_STYLE" "" "INFO") draft_fs _ _ _ Hpre Hbad).
  - vm_compute. reflexivity.
Defined.

(** A security finding on [draft.cpp], with a talkative AI engine. *)
Lemma suggested_fix_leaves_draft_alone :
  Forall (fun r => rule_id r = "SECURITY_VULNERABILITY"%string /\
                   CppAnalyzer.isSupportedFile (file_path r) = true /\
                   forall code_context, exists suggestion,
                     eager_suggestions r code_context = Return suggestion /\
                     empty suggestion = false)
    [security_finding "draft.cpp" 1] /\
  applyAutoFixes fixers true eager_suggestions [security_finding "draft.cpp" 1] draft_fs
  = (draft_fs, Return false).
Proof.
  assert (Hall : Forall (fun r => rule_id r = "SECURITY_VULNERABILITY"%string /\
                   CppAnalyzer.isSupportedFile (file_path r) = true /\
                   forall code_context, exists suggestion,
                     eager_suggestions r code_context = Return suggestion /\
                     empty suggestion = false)
                   [security_finding "draft.cpp" 1]).
  { repeat constructor. intros ctx. eexists. split; reflexivity. }
  split; [exact Hall|].
  exact (suggested_security_fixes_are_not_applied everything_writable no_rules no_rules
           base_fixer base_fixer eager_suggestions _ draft_fs Hall).
Defined.

End AutoFixSpec.
